(** * openstorage: alert bus over a key-value store, and the cluster database

    A shallow embedding of [alert/alert_kvdb.go], [alert/alert.go] and
    [cluster/database.go], with the properties of the alert identifier
    allocator, the alert store, the watch callback and the cluster state
    store stated and proved over it.

    Layout: part I holds the definitions (Go runtime helpers, the key-value
    store contract, the alert package, the cluster package, a reference
    codec used to run the model on concrete stores); part II holds the
    lemmas and theorems. *)

From Stdlib Require Import ZArith String Ascii List DecimalString DecimalZ Lia Permutation.
From stdpp Require Import gmap strings list fin_maps.

Open Scope Z_scope.
Open Scope string_scope.

(* ===================================================================== *)
(** * Part I: definitions *)
(* ===================================================================== *)

(** ** Go runtime: 64-bit integers, [strconv], [strings], [encoding/json] on integers *)
Module Go.

Definition int64_min : Z := - 2 ^ 63.
Definition int64_max : Z := 2 ^ 63 - 1.

Definition is_int64 (z : Z) : Prop := int64_min <= z <= int64_max.

(** Two's complement wrap-around of [int] / [int64] arithmetic. *)
Definition int64_wrap (z : Z) : Z := (z + 2 ^ 63) mod 2 ^ 64 - 2 ^ 63.

(** [strconv.FormatInt(z, 10)]. *)
Definition FormatInt (z : Z) : string := NilZero.string_of_int (Z.to_int z).

(** [strings.HasSuffix]. *)
Definition HasSuffix (s suf : string) : bool :=
  let n := String.length s in
  let m := String.length suf in
  (m <=? n)%nat && String.eqb (substring (n - m) m s) suf.

(** [strings.Contains]. *)
Fixpoint Contains (s sub : string) : bool :=
  String.prefix sub s ||
  match s with
  | EmptyString => false
  | String _ s' => Contains s' sub
  end.

(** [strings.Split(s, sep)] for a one-character separator (the code only
    splits on the path separator). *)
Fixpoint Split (s : string) (sep : ascii) : list string :=
  match s with
  | EmptyString => [EmptyString]
  | String c s' =>
      if Ascii.eqb c sep then EmptyString :: Split s' sep
      else match Split s' sep with
           | [] => [String c EmptyString]
           | x :: xs => String c x :: xs
           end
  end.

(** White space as [encoding/json] skips it before and after a value:
    space, tab, line feed and carriage return. *)
Definition json_space (c : ascii) : bool :=
  Ascii.eqb c " " || Ascii.eqb c "009" || Ascii.eqb c "010" || Ascii.eqb c "013".

Fixpoint trim_left (s : string) : string :=
  match s with
  | EmptyString => EmptyString
  | String c s' => if json_space c then trim_left s' else s
  end.

Fixpoint trim_right (s : string) : string :=
  match s with
  | EmptyString => EmptyString
  | String c s' =>
      match trim_right s' with
      | EmptyString => if json_space c then EmptyString else String c EmptyString
      | t => String c t
      end
  end.

Definition json_trim (s : string) : string := trim_right (trim_left s).

(** A string without white space. *)
Fixpoint no_space (s : string) : bool :=
  match s with
  | EmptyString => true
  | String c s' => negb (json_space c) && no_space s'
  end.

(** The value is the literal [null], white space around it skipped. *)
Definition json_null (b : string) : bool := String.eqb (json_trim b) "null".

(** [json.Unmarshal(b, &cur)] for [cur] of type [int]: white space around
    the value is skipped; the literal [null] leaves the variable as it is,
    an integer literal in range replaces it, anything else (a fraction, an
    exponent, a leading zero or sign, a string, nothing at all) is an
    error. *)
Definition json_unmarshal_int (b : string) (cur : Z) : option Z :=
  let b := json_trim b in
  if String.eqb b "null" then Some cur
  else match NilZero.int_of_string b with
       | Some d =>
           let z := Z.of_int d in
           if (String.eqb (FormatInt z) b || String.eqb b "-0")
              && (int64_min <=? z)%Z && (z <=? int64_max)%Z
           then Some z else None
       | None => None
       end.

(** A call either returns or panics (index out of range, nil dereference). *)
Inductive outcome (A : Type) : Type :=
| Ret (a : A)
| Panic (why : string).
Arguments Ret {A} a.
Arguments Panic {A} why.

End Go.

(** ** Errors: the sentinels of [alert/alert.go] and of the KV store *)
Module Err.

Inductive error : Type :=
(* package kvdb *)
| KvErrNotFound
| KvErrExist
| KvErrValueMismatch
| KvErrUnmarshal
(* package alert *)
| ErrNotSupported
| ErrNotFound
| ErrExist
| ErrUnmarshal
| ErrIllegal
| ErrNotInitialized
| ErrAlertClientNotFound
| ErrResourceNotFound
| ErrSubscribedRaise
(* an error of [encoding/json] *)
| ErrJson
(* [fmt.Errorf] / [errors.New] with the given text, or a backend failure *)
| Errorf (msg : string).

#[export] Instance error_eq_dec : EqDecision error.
Proof. solve_decision. Defined.

(** [err.Error()]. *)
Definition Error (e : error) : string :=
  match e with
  | KvErrNotFound => "Key not found"
  | KvErrExist => "Key already exists"
  | KvErrValueMismatch => "Value mismatch"
  | KvErrUnmarshal => "Failed to unmarshal value"
  | ErrNotSupported => "Implementation not supported"
  | ErrNotFound => "Key not found"
  | ErrExist => "Key already exists"
  | ErrUnmarshal => "Failed to unmarshal value"
  | ErrIllegal => "Illegal operation"
  | ErrNotInitialized => "Alert not initialized"
  | ErrAlertClientNotFound => "Alert client not found"
  | ErrResourceNotFound => "Resource not found in Alert"
  | ErrSubscribedRaise => "Could not raise alert and its subscribed alerts"
  | ErrJson => "json: cannot unmarshal"
  | Errorf msg => msg
  end.

Inductive result (A : Type) : Type :=
| Ok (a : A)
| Fail (e : error).
Arguments Ok {A} a.
Arguments Fail {A} e.

End Err.
Export Err.

(** ** The KV store contract (package [kvdb], an external dependency)

    An in-memory model of the capability contract the code relies on:
    [Create] fails if the key exists, [Update] and [Delete] fail if it is
    absent, [CompareAndSet] is an atomic swap that fails if the stored
    bytes differ from the expected prior bytes, [Enumerate] returns the
    pairs under a prefix, [Snapshot] returns a frozen copy and its version.
    Every mutation advances the store's index; a TTL is recorded, expiry is
    not modelled. *)
Module Kv.

Inductive KVAction := KVSet | KVCreate | KVGet | KVDelete | KVExpire | KVUknown.

#[export] Instance KVAction_eq_dec : EqDecision KVAction.
Proof. solve_decision. Defined.

Record KVPair := mkKVPair {
  Key : string;
  Value : string;
  Action : KVAction;
  TTL : Z;
  ModifiedIndex : Z;
}.

Record Entry := mkEntry {
  eValue : string;
  eTTL : Z;
  eModified : Z;
}.

Record Store := mkStore {
  data : gmap string Entry;
  index : Z;
}.

Definition empty : Store := {| data := ∅; index := 0 |}.

(** Compare-and-set flags; the allocator passes [KVFlags(0)]. *)
Definition KVFlags := Z.
Definition KVPrevExists : KVFlags := 1.
Definition KVCreatedIndex : KVFlags := 2.
Definition KVModifiedIndex : KVFlags := 4.
Definition KVTTL : KVFlags := 8.

Definition pair_of (k : string) (e : Entry) (act : KVAction) : KVPair :=
  {| Key := k; Value := eValue e; Action := act; TTL := eTTL e;
     ModifiedIndex := eModified e |}.

Definition write (k v : string) (ttl : Z) (act : KVAction) (s : Store)
  : Store * KVPair :=
  let i := index s + 1 in
  let e := {| eValue := v; eTTL := ttl; eModified := i |} in
  ({| data := <[k := e]> (data s); index := i |}, pair_of k e act).

Definition Get (k : string) (s : Store) : result KVPair :=
  match data s !! k with
  | Some e => Ok (pair_of k e KVGet)
  | None => Fail KvErrNotFound
  end.

(** [GetVal(key, &out)]: [Get], then decode the value into [out]. *)
Definition GetVal {A : Type} (decode : string → option A) (k : string) (s : Store)
  : result (KVPair * A) :=
  match Get k s with
  | Ok kvp =>
      match decode (Value kvp) with
      | Some a => Ok (kvp, a)
      | None => Fail KvErrUnmarshal
      end
  | Fail e => Fail e
  end.

Definition Put (k v : string) (ttl : Z) (s : Store) : Store * result KVPair :=
  let '(s', kvp) := write k v ttl KVSet s in (s', Ok kvp).

Definition Create (k v : string) (ttl : Z) (s : Store) : Store * result KVPair :=
  match data s !! k with
  | Some _ => (s, Fail KvErrExist)
  | None => let '(s', kvp) := write k v ttl KVCreate s in (s', Ok kvp)
  end.

Definition Update (k v : string) (ttl : Z) (s : Store) : Store * result KVPair :=
  match data s !! k with
  | Some _ => let '(s', kvp) := write k v ttl KVSet s in (s', Ok kvp)
  | None => (s, Fail KvErrNotFound)
  end.

Definition Delete (k : string) (s : Store) : Store * result KVPair :=
  match data s !! k with
  | Some e =>
      ({| data := delete k (data s); index := index s + 1 |},
       Ok (pair_of k e KVDelete))
  | None => (s, Fail KvErrNotFound)
  end.

(** [CompareAndSet(kvp, flags, prevValue)]: one atomic step. *)
Definition CompareAndSet (kvp : KVPair) (flags : KVFlags) (prevValue : option string)
    (s : Store) : Store * result KVPair :=
  match data s !! Key kvp with
  | None => (s, Fail KvErrNotFound)
  | Some e =>
      if match prevValue with
         | Some prev => negb (String.eqb (eValue e) prev)
         | None => false
         end
      then (s, Fail KvErrValueMismatch)
      else if (flags =? KVModifiedIndex)%Z && negb (ModifiedIndex kvp =? eModified e)%Z
      then (s, Fail KvErrValueMismatch)
      else let '(s', r) := write (Key kvp) (Value kvp) 0 KVSet s in (s', Ok r)
  end.

(** [Enumerate(prefix)]: the pairs whose key starts with [prefix], in the
    backend's order. *)
Definition Enumerate (pre : string) (s : Store) : result (list KVPair) :=
  Ok (omap (λ '(k, e), if String.prefix pre k then Some (pair_of k e KVGet) else None)
           (map_to_list (data s))).

End Kv.

(** ** Package [api]: the alert record and its enumerations *)
Module Api.

(** Modelled from the spec: [api.ResourceType] is declared in the [api]
    package, which is not among the sources; the spec gives the enumerated
    type Volume/Node/Cluster/Drive/None. *)
Inductive ResourceType :=
| RESOURCE_TYPE_NONE
| RESOURCE_TYPE_VOLUME
| RESOURCE_TYPE_NODE
| RESOURCE_TYPE_CLUSTER
| RESOURCE_TYPE_DRIVE.

#[export] Instance ResourceType_eq_dec : EqDecision ResourceType.
Proof. solve_decision. Defined.

(** Modelled from the spec: the action tag handed to a watcher callback
    (no-op, delete, create, update); [api.AlertActionType] is not among the
    sources. *)
Inductive AlertActionType :=
| ALERT_ACTION_TYPE_NONE
| ALERT_ACTION_TYPE_DELETE
| ALERT_ACTION_TYPE_CREATE
| ALERT_ACTION_TYPE_UPDATE.

#[export] Instance AlertActionType_eq_dec : EqDecision AlertActionType.
Proof. solve_decision. Defined.

(** Modelled from the spec: [api.Alert] is not among the sources; the
    fields are those of the spec's data model, all of which the code reads
    or writes. [Severity] is compared numerically. *)
Record Alert := mkAlert {
  Id : Z;
  Severity : Z;
  AlertType : Z;
  Timestamp : Z;
  Resource : ResourceType;
  Cleared : bool;
  Ttl : Z;
}.

#[export] Instance Alert_eq_dec : EqDecision Alert.
Proof. solve_decision. Defined.

(** Modelled from the spec: the lifecycle state of the cluster descriptor
    (Init/Ok/Error); [api.Status] is not among the sources. *)
Inductive Status := STATUS_NONE | STATUS_INIT | STATUS_OK | STATUS_ERROR.

#[export] Instance Status_eq_dec : EqDecision Status.
Proof. solve_decision. Defined.

(** The JSON encoding of alerts and of subscription lists, as
    [encoding/json] and the KV store's value marshalling provide it. A
    decoder result [None] stands for an [Unmarshal] error. *)
Class AlertCodec := {
  marshalAlert : Alert → string;
  unmarshalAlert : string → option Alert;
  marshalAlerts : list Alert → string;
  unmarshalAlerts : string → option (list Alert);
}.

End Api.
Export Api.

(** ** Package [alert]: [alert/alert_kvdb.go] *)
Module Alert.
Import Go Kv.

Definition alertKey := "alert/".
Definition subscriptionsKey := "subscriptions".
Definition nextAlertIDKey := "nextAlertId".
Definition clusterKey := "cluster/".
Definition volumeKey := "volume/".
Definition nodeKey := "node/".
Definition driveKey := "drive/".
Definition bootstrap := "bootstrap".
Definition watchRetries : Z := 5.
Definition watchSleep : Z := 100.

Inductive watcherStatus := watchBootstrap | watchReady | watchError.

#[export] Instance watcherStatus_eq_dec : EqDecision watcherStatus.
Proof. solve_decision. Defined.

Definition getResourceKey (resourceType : ResourceType) : string :=
  if decide (resourceType = RESOURCE_TYPE_VOLUME) then alertKey +:+ volumeKey
  else if decide (resourceType = RESOURCE_TYPE_NODE) then alertKey +:+ nodeKey
  else if decide (resourceType = RESOURCE_TYPE_CLUSTER) then alertKey +:+ clusterKey
  else alertKey +:+ driveKey.

Definition getNextAlertIDKey : string := alertKey +:+ nextAlertIDKey.

Definition getSubscriptionsKey (alertType : Z) : string :=
  alertKey +:+ subscriptionsKey +:+ "/" +:+ FormatInt alertType.

(** *** The identifier allocator, [getNextIDFromKVDB]

    Each KV store call is one atomic step; between two steps of one caller
    other callers may run. The control points of the function: *)
Inductive allocPC :=
| AtCreate
    (* line 323: [kv.Create(key, FormatInt(nextAlertID+1))], [nextAlertID = 0] *)
| AtGetVal (nextAlertID : Z)
    (* line 326: in the loop, [err != nil], about to read the counter *)
| AtCompareAndSet (nextAlertID : Z) (kvp : KVPair)
    (* line 334: the read succeeded, [prevValue = kvp.Value] *)
| Returned (id : Z) (err : option error).

(** One step of one caller. *)
Definition alloc_step (s : Store) (pc : allocPC) : Store * allocPC :=
  match pc with
  | AtCreate =>
      let nextAlertID := 0 in
      match Create getNextAlertIDKey (FormatInt (int64_wrap (nextAlertID + 1))) 0 s with
      | (s', Ok _) => (s', Returned nextAlertID None)
      | (s', Fail _) => (s', AtGetVal nextAlertID)
      end
  | AtGetVal nextAlertID =>
      match GetVal (λ b, json_unmarshal_int b nextAlertID) getNextAlertIDKey s with
      | Fail _ => (s, Returned (-1) (Some ErrNotInitialized))
      | Ok (kvp, nextAlertID') => (s, AtCompareAndSet nextAlertID' kvp)
      end
  | AtCompareAndSet nextAlertID kvp =>
      let prevValue := Value kvp in
      let newKvp :=
        {| Key := Key kvp; Value := FormatInt (int64_wrap (nextAlertID + 1));
           Action := Action kvp; TTL := TTL kvp; ModifiedIndex := ModifiedIndex kvp |} in
      match CompareAndSet newKvp 0 (Some prevValue) s with
      | (s', Ok _) => (s', Returned nextAlertID None)
      | (s', Fail _) => (s', AtGetVal nextAlertID)
      end
  | Returned _ _ => (s, pc)
  end.

(** A caller running alone: the loop of the function, bounded by [fuel]. *)
Fixpoint run_alloc (fuel : nat) (s : Store) (pc : allocPC)
  : option (Store * Z * option error) :=
  match pc with
  | Returned id err => Some (s, id, err)
  | _ =>
      match fuel with
      | O => None
      | S fuel' => let '(s', pc') := alloc_step s pc in run_alloc fuel' s' pc'
      end
  end.

Definition getNextIDFromKVDB (fuel : nat) (s : Store) : option (Store * Z * option error) :=
  run_alloc fuel s AtCreate.

(** Concurrent callers on one cluster's store: the store and the control
    point of every caller. An action of the schedule lets caller [i] take
    its next step, or stands for a store call made elsewhere (the record a
    [raise] creates after its allocation, a subscription being written). *)
Definition system : Type := Store * list allocPC.

Inductive action :=
| Step (i : nat)
| Elsewhere (f : Store → Store).

Definition sys_step (a : action) (st : system) : system :=
  match a with
  | Step i =>
      match st.2 !! i with
      | Some pc => let '(s', pc') := alloc_step st.1 pc in (s', <[i := pc']> st.2)
      | None => st
      end
  | Elsewhere f => (f st.1, st.2)
  end.

Definition sys_run (schedule : list action) (st : system) : system :=
  foldl (λ st a, sys_step a st) st schedule.

(** The store call [raise] makes after its allocation. *)
Definition create_record (resourceType : ResourceType) (alertID : Z) (value : string)
    (ttl : Z) : action :=
  Elsewhere (λ s, (Create (getResourceKey resourceType +:+ FormatInt alertID) value ttl s).1).

(** Store calls made elsewhere do not touch the counter key. *)
Definition leaves_counter (a : action) : Prop :=
  match a with
  | Step _ => True
  | Elsewhere f =>
      ∀ s, data (f s) !! getNextAlertIDKey = data s !! getNextAlertIDKey
  end.

(** The identifier a caller got, once it has returned without error. *)
Definition allocated (pc : allocPC) : option Z :=
  match pc with
  | Returned id None => Some id
  | _ => None
  end.

Definition allocated_ids (st : system) : list Z := omap allocated st.2.

(** The bytes stored under the counter key, if it exists. *)
Definition counter (s : Store) : option string :=
  eValue <$> data s !! getNextAlertIDKey.

(** The [k]-th identifier handed out when the counter started at [v0]. *)
Definition nth_id (v0 : Z) (k : nat) : Z := int64_wrap (v0 + Z.of_nat k).

(** A caller about to compare-and-set holds the number it read and the
    bytes it read it from. *)
Definition thread_ok (pc : allocPC) : Prop :=
  match pc with
  | AtCompareAndSet n kvp =>
      Key kvp = getNextAlertIDKey ∧ is_int64 n ∧ Value kvp = FormatInt n
  | _ => True
  end.

(** The invariant of the concurrent system: after [m] allocations the
    identifiers handed out are the first [m] from [v0] and the counter
    holds the next one (or nothing was allocated yet and the key is
    absent). *)
Definition alloc_inv (v0 : Z) (st : system) : Prop :=
  ∃ m : nat,
    allocated_ids st ≡ₚ map (nth_id v0) (seq 0 m)
    ∧ (counter st.1 = Some (FormatInt (nth_id v0 m))
       ∨ (counter st.1 = None ∧ m = 0%nat ∧ v0 = 0))
    ∧ Forall thread_ok st.2.

(** The stores the allocator starts from: no counter yet, or a counter it
    wrote earlier. *)
Definition counter_starts_at (v0 : Z) (s : Store) : Prop :=
  (counter s = None ∧ v0 = 0)
  ∨ (is_int64 v0 ∧ counter s = Some (FormatInt v0)).

(** *** The alert store *)
Section Store.
Context `{!AlertCodec}.

(** [raise]: the clock reading [now] stands for [time.Now().Unix()]. The
    alert is passed by pointer, so the stamped alert is returned too. *)
Definition raise (fuel : nat) (now : Z) (a : Alert) (s : Store)
  : option (Store * Alert * option error) :=
  if decide (Resource a = RESOURCE_TYPE_NONE) then Some (s, a, Some ErrResourceNotFound)
  else
    match getNextIDFromKVDB fuel s with
    | None => None
    | Some (s1, _, Some err) => Some (s1, a, Some err)
    | Some (s1, alertID, None) =>
        let a' :=
          {| Id := alertID; Severity := Severity a; AlertType := AlertType a;
             Timestamp := now; Resource := Resource a; Cleared := false;
             Ttl := Ttl a |} in
        let '(s2, r) :=
          Create (getResourceKey (Resource a') +:+ FormatInt (Id a'))
                 (marshalAlert a') (Ttl a') s1 in
        Some (s2, a', match r with Ok _ => None | Fail e => Some e end)
    end.

(** The loop of [Raise] over the subscribed alerts: the first failure ends it. *)
Fixpoint raise_each (f : Alert → Store → option (Store * Alert * option error))
    (subscriptions : list Alert) (s : Store) : option (Store * option error) :=
  match subscriptions with
  | [] => Some (s, None)
  | alert :: rest =>
      match f alert s with
      | None => None
      | Some (s', _, Some _) => Some (s', Some ErrSubscribedRaise)
      | Some (s', _, None) => raise_each f rest s'
      end
  end.

(** [Raise]: [fuel] bounds the depth of the recursion through subscriptions
    (and the allocator's loop). *)
Fixpoint Raise (fuel : nat) (now : Z) (a : Alert) (s : Store)
  : option (Store * Alert * option error) :=
  match fuel with
  | O => None
  | S fuel' =>
      match GetVal unmarshalAlerts (getSubscriptionsKey (AlertType a)) s with
      | Fail err =>
          if decide (err ≠ KvErrNotFound) then Some (s, a, Some err)
          else raise fuel now a s
      | Ok (_, subscriptions) =>
          match raise_each (Raise fuel' now) subscriptions s with
          | None => None
          | Some (s', Some err) => Some (s', a, Some err)
          | Some (s', None) => raise fuel now a s'
          end
      end
  end.

Definition Subscribe (parentAlertType : Z) (childAlert : Alert) (s : Store)
  : Store * option error :=
  match GetVal unmarshalAlerts (getSubscriptionsKey parentAlertType) s with
  | Fail err =>
      if decide (err ≠ KvErrNotFound) then (s, Some err)
      else
        let '(s', r) := Put (getSubscriptionsKey parentAlertType)
                            (marshalAlerts ([] ++ [childAlert])) 0 s in
        (s', match r with Ok _ => None | Fail e => Some e end)
  | Ok (_, subscriptions) =>
      let '(s', r) := Put (getSubscriptionsKey parentAlertType)
                          (marshalAlerts (subscriptions ++ [childAlert])) 0 s in
      (s', match r with Ok _ => None | Fail e => Some e end)
  end.

Definition Erase (resourceType : ResourceType) (alertID : Z) (s : Store)
  : Store * option error :=
  if decide (resourceType = RESOURCE_TYPE_NONE) then (s, Some ErrResourceNotFound)
  else
    let '(s', r) := Delete (getResourceKey resourceType +:+ FormatInt alertID) s in
    (s', match r with Ok _ => None | Fail e => Some e end).

(** [Retrieve] returns the zero alert together with an error. *)
Definition zeroAlert : Alert :=
  {| Id := 0; Severity := 0; AlertType := 0; Timestamp := 0;
     Resource := RESOURCE_TYPE_NONE; Cleared := false; Ttl := 0 |}.

Definition Retrieve (resourceType : ResourceType) (alertID : Z) (s : Store)
  : Alert * option error :=
  if decide (resourceType = RESOURCE_TYPE_NONE) then (zeroAlert, Some ErrResourceNotFound)
  else
    match GetVal unmarshalAlert (getResourceKey resourceType +:+ FormatInt alertID) s with
    | Ok (_, alert) => (alert, None)
    | Fail err => (zeroAlert, Some err)
    end.

(** [alert.Cleared = true]. *)
Definition set_Cleared (alert : Alert) : Alert :=
  {| Id := Id alert; Severity := Severity alert; AlertType := AlertType alert;
     Timestamp := Timestamp alert; Resource := Resource alert; Cleared := true;
     Ttl := Ttl alert |}.

Definition clear (resourceType : ResourceType) (alertID : Z) (ttl : Z) (s : Store)
  : Store * option error :=
  if decide (resourceType = RESOURCE_TYPE_NONE) then (s, Some ErrResourceNotFound)
  else
    match GetVal unmarshalAlert (getResourceKey resourceType +:+ FormatInt alertID) s with
    | Fail err => (s, Some err)
    | Ok (_, alert) =>
        let alert' := set_Cleared alert in
        let '(s', r) :=
          Update (getResourceKey resourceType +:+ FormatInt alertID)
                 (marshalAlert alert') ttl s in
        (s', match r with Ok _ => None | Fail e => Some e end)
    end.

Definition Clear := clear.

(** [json.Unmarshal(v.Value, &elem)] for [elem] a nil [*api.Alert]: the
    literal [null] leaves the pointer nil, without error; any other value
    is decoded into a fresh alert the pointer is set to. *)
Definition unmarshalAlertPtr (b : string) : option (option Alert) :=
  if json_null b then Some None else Some <$> unmarshalAlert b.

(** The loop of [getResourceSpecificAlerts]: decode every pair, give up at
    the first value that does not decode. The elements are pointers; [None]
    is a nil one. *)
Fixpoint decode_all (kvp : list KVPair) : result (list (option Alert)) :=
  match kvp with
  | [] => Ok []
  | v :: rest =>
      match unmarshalAlertPtr (Value v) with
      | None => Fail ErrJson
      | Some elem =>
          match decode_all rest with
          | Ok allAlerts => Ok (elem :: allAlerts)
          | Fail e => Fail e
          end
      end
  end.

Definition getResourceSpecificAlerts (resourceType : ResourceType) (kv : Store)
  : result (list (option Alert)) :=
  match Enumerate (getResourceKey resourceType) kv with
  | Fail err => Fail err
  | Ok kvp => decode_all kvp
  end.

(** One partition of [getAllAlerts]: appended when it could be read. *)
Definition append_partition (allAlerts : list (option Alert))
    (r : result (list (option Alert))) : list (option Alert) :=
  match r with
  | Ok alerts => allAlerts ++ alerts
  | Fail _ => allAlerts
  end.

Definition getAllAlerts (kv : Store) : list (option Alert) * option error :=
  let allAlerts := [] in
  let allAlerts := append_partition allAlerts (getResourceSpecificAlerts RESOURCE_TYPE_NODE kv) in
  let allAlerts := append_partition allAlerts (getResourceSpecificAlerts RESOURCE_TYPE_VOLUME kv) in
  let allAlerts := append_partition allAlerts (getResourceSpecificAlerts RESOURCE_TYPE_CLUSTER kv) in
  let allAlerts := append_partition allAlerts (getResourceSpecificAlerts RESOURCE_TYPE_DRIVE kv) in
  if (0 <? length allAlerts)%nat then (allAlerts, None)
  else ([], Some (Errorf "No alert raised yet")).

(** The severity loop of [enumerate]: [v.Severity] on a nil element is a
    nil dereference. *)
Fixpoint severity_loop (filter : Alert) (resourceAlerts allAlerts : list (option Alert))
  : outcome (list (option Alert)) :=
  match resourceAlerts with
  | [] => Ret allAlerts
  | None :: _ => Panic "nil pointer dereference"
  | Some v :: rest =>
      if (Severity v <=? Severity filter)%Z
      then severity_loop filter rest (allAlerts ++ [Some v])%list
      else severity_loop filter rest allAlerts
  end.

Definition by_severity (filter : Alert) (resourceAlerts : list (option Alert))
  : outcome (list (option Alert)) :=
  if decide (Severity filter ≠ 0)
  then severity_loop filter resourceAlerts []
  else Ret ([] ++ resourceAlerts)%list.

Definition enumerate (kv : Store) (filter : Alert)
  : outcome (list (option Alert) * option error) :=
  if decide (Resource filter ≠ RESOURCE_TYPE_NONE) then
    match getResourceSpecificAlerts (Resource filter) kv with
    | Fail err => Ret ([], Some err)
    | Ok resourceAlerts =>
        match by_severity filter resourceAlerts with
        | Ret allAlerts => Ret (allAlerts, None)
        | Panic why => Panic why
        end
    end
  else
    let '(resourceAlerts, err) := getAllAlerts kv in
    match by_severity filter resourceAlerts with
    | Ret allAlerts => Ret (allAlerts, err)
    | Panic why => Panic why
    end.

(** The alerts of one partition as [getAllAlerts] uses them: none when the
    partition cannot be read. *)
Definition partition_alerts (resourceType : ResourceType) (kv : Store)
  : list (option Alert) :=
  match getResourceSpecificAlerts resourceType kv with
  | Ok alerts => alerts
  | Fail _ => []
  end.

(** The best-effort union of the four partitions. *)
Definition union_alerts (kv : Store) : list (option Alert) :=
  partition_alerts RESOURCE_TYPE_NODE kv ++ partition_alerts RESOURCE_TYPE_VOLUME kv
  ++ partition_alerts RESOURCE_TYPE_CLUSTER kv ++ partition_alerts RESOURCE_TYPE_DRIVE kv.

(** The error of the enumeration of a partition, or of all of them for
    the resource [None]. *)
Definition enumeration_error (resourceType : ResourceType) (kv : Store) : option error :=
  if decide (resourceType = RESOURCE_TYPE_NONE) then
    if decide (union_alerts kv = []) then Some (Errorf "No alert raised yet") else None
  else
    match getResourceSpecificAlerts resourceType kv with
    | Fail err => Some err
    | Ok _ => None
    end.

(** The record stored under the key of alert [alertID] of a partition. *)
Definition stored_alert (resourceType : ResourceType) (alertID : Z) (s : Store)
  : option (option Alert * Z) :=
  (λ e, (unmarshalAlert (eValue e), eTTL e))
  <$> data s !! (getResourceKey resourceType +:+ FormatInt alertID).

End Store.

(** *** The watch callback, [kvdbWatch]

    The process-wide variables [watcherMap] and [watchErrors], and what a
    call of the callback does to the outside: the invocations of the
    registered [AlertWatcherFunc] and the calls of [WatchTree], in order. *)
Definition AlertWatcherFunc : Type :=
  option Alert → AlertActionType → string → string → option error.

(** The [kvdb.Kvdb] handle a watcher holds: [WatchTree] on it either
    registers the watch or fails. *)
Record KvdbHandle := mkKvdbHandle {
  WatchTree : string → Z → option error;
}.

Record watcher := mkWatcher {
  status : watcherStatus;
  cb : AlertWatcherFunc;
  clusterID : string;
  kvdb : KvdbHandle;
}.

Inductive effect :=
| CallbackInvoked (watcherKey : string) (a : option Alert) (action : AlertActionType)
    (prefix key : string)
| WatchTreeCalled (watcherKey : string) (prefix : string) (waitIndex : Z).

Record globals := mkGlobals {
  watcherMap : gmap string watcher;
  watchErrors : Z;
  effects : list effect;
}.

Definition set_status (w : watcher) (st : watcherStatus) : watcher :=
  {| status := st; cb := cb w; clusterID := clusterID w; kvdb := kvdb w |}.

(** [subscribeWatch(key)]: always watches from index 0. *)
Definition subscribeWatch (key : string) (g : globals) : globals * option error :=
  let watchIndex := 0 in
  match watcherMap g !! key with
  | None => (g, Some (Errorf ("Failed to find a watch on cluster : " +:+ key)))
  | Some w =>
      let g' :=
        {| watcherMap := watcherMap g; watchErrors := watchErrors g;
           effects := effects g ++ [WatchTreeCalled key alertKey watchIndex] |} in
      (g', WatchTree (kvdb w) alertKey watchIndex)
  end.

(** [w.cb(...)] for the watcher registered under [watcherKey]; a missing
    watcher is a nil pointer. *)
Definition invoke (watcherKey : string) (w : option watcher) (a : option Alert)
    (action : AlertActionType) (prefix key : string) (g : globals)
  : outcome (globals * option error) :=
  match w with
  | None => Panic "nil pointer dereference"
  | Some w =>
      Ret ({| watcherMap := watcherMap g; watchErrors := watchErrors g;
              effects := effects g ++ [CallbackInvoked watcherKey a action prefix key] |},
           cb w a action prefix key)
  end.

Section Watch.
Context `{!AlertCodec}.

Definition kvdbWatch (prefix : string) (kvp : option KVPair) (err : option error)
    (g : globals) : outcome (globals * option error) :=
  match Split prefix "/" !! 1%nat with
  | None => Panic "index out of range"
  | Some watcherKey =>
      match err with
      | Some err =>
          match watcherMap g !! watcherKey with
          | None => Panic "nil pointer dereference"
          | Some w =>
              if decide (status w = watchBootstrap) then
                Ret ({| watcherMap := <[watcherKey := set_status w watchError]> (watcherMap g);
                        watchErrors := watchErrors g; effects := effects g |},
                     Some err)
              else if decide (watchErrors g = 5) then
                match invoke watcherKey (watcherMap g !! watcherKey) None
                             ALERT_ACTION_TYPE_NONE prefix "" g with
                | Panic why => Panic why
                | Ret (g', _) => Ret (g', Some err)
                end
              else
                let g1 := {| watcherMap := watcherMap g;
                             watchErrors := int64_wrap (watchErrors g + 1);
                             effects := effects g |} in
                let '(g2, _) := subscribeWatch watcherKey g1 in
                Ret (g2, Some err)
          end
      | None =>
          match kvp with
          | None => Panic "nil pointer dereference"
          | Some kvp =>
              if HasSuffix (Key kvp) bootstrap then
                match watcherMap g !! watcherKey with
                | None => Panic "nil pointer dereference"
                | Some w =>
                    Ret ({| watcherMap := <[watcherKey := set_status w watchReady]> (watcherMap g);
                            watchErrors := watchErrors g; effects := effects g |},
                         None)
                end
              else if HasSuffix (Key kvp) nextAlertIDKey || Contains (Key kvp) subscriptionsKey
              then Ret (g, None)
              else
                let g1 := {| watcherMap := watcherMap g; watchErrors := 0;
                             effects := effects g |} in
                let w := watcherMap g1 !! watcherKey in
                if decide (Action kvp = KVDelete) then
                  invoke watcherKey w None ALERT_ACTION_TYPE_DELETE prefix (Key kvp) g1
                else
                  match unmarshalAlert (Value kvp) with
                  | None => Ret (g1, Some (Errorf "Failed to unmarshal Alert"))
                  | Some alert =>
                      match Action kvp with
                      | KVCreate =>
                          invoke watcherKey w (Some alert) ALERT_ACTION_TYPE_CREATE
                                 prefix (Key kvp) g1
                      | KVSet =>
                          invoke watcherKey w (Some alert) ALERT_ACTION_TYPE_UPDATE
                                 prefix (Key kvp) g1
                      | _ => Ret (g1, Some (Errorf "Unhandled KV Action"))
                      end
                  end
          end
      end
  end.

(** A delivery of the KV store's watch: the arguments of one call. *)
Record delivery := mkDelivery {
  dPrefix : string;
  dKvp : option KVPair;
  dErr : option error;
}.

(** The callback run on a sequence of deliveries, in order; the errors it
    returned are collected. *)
Fixpoint deliver (ds : list delivery) (g : globals) : outcome (globals * list (option error)) :=
  match ds with
  | [] => Ret (g, [])
  | d :: rest =>
      match kvdbWatch (dPrefix d) (dKvp d) (dErr d) g with
      | Panic why => Panic why
      | Ret (g', r) =>
          match deliver rest g' with
          | Panic why => Panic why
          | Ret (g'', rs) => Ret (g'', r :: rs)
          end
      end
  end.

End Watch.

(** The delivery of a watch error on [prefix]. *)
Definition error_on (prefix : string) (e : error) : delivery :=
  {| dPrefix := prefix; dKvp := None; dErr := Some e |}.

(** The watcher a delivery on [prefix] is for: the one registered under the
    second segment of the prefix. *)
Definition watcher_for (g : globals) (prefix : string) : option (string * watcher) :=
  watcherKey ← Split prefix "/" !! 1%nat;
  w ← watcherMap g !! watcherKey;
  Some (watcherKey, w).

(** A watch error for a watcher that has left the bootstrap state. *)
Definition steady_error (g : globals) (d : delivery) : Prop :=
  ∃ watcherKey w e,
    dErr d = Some e ∧ watcher_for g (dPrefix d) = Some (watcherKey, w)
    ∧ status w ≠ watchBootstrap.

(** The resubscription a steady-state error triggers. *)
Definition resubscription (d : delivery) : effect :=
  WatchTreeCalled (default "" (Split (dPrefix d) "/" !! 1%nat)) alertKey 0.

(** A successful mutation the callback does not ignore. *)
Definition surfaced (kvp : KVPair) : Prop :=
  HasSuffix (Key kvp) bootstrap = false
  ∧ HasSuffix (Key kvp) nextAlertIDKey = false
  ∧ Contains (Key kvp) subscriptionsKey = false.

Definition callbacks (es : list effect) : list effect :=
  List.filter (λ e, match e with CallbackInvoked _ _ _ _ _ => true | _ => false end) es.

Definition resubscriptions (es : list effect) : list effect :=
  List.filter (λ e, match e with WatchTreeCalled _ _ _ => true | _ => false end) es.

End Alert.

(** ** Package [cluster]: [cluster/database.go] *)
Module Cluster.
Import Go.

Definition ClusterDBKey := "cluster/database".

(** The operations of the KV store the cluster database uses that can fail
    for reasons of the backend. *)
Inductive op := OpGet | OpSnapshot | OpNewUpdatesCollector.

(** [kvdb.Instance()]: the store's content and, for each operation, the
    backend failure it answers with, if any. *)
Record Kvdb := mkKvdb {
  store : Kv.Store;
  failing : op → option error;
}.

(** [kvdb.Get]: Go returns the pair and the error side by side. *)
Definition Get (kv : Kvdb) (key : string) : option Kv.KVPair * option error :=
  match failing kv OpGet with
  | Some e => (None, Some e)
  | None =>
      match Kv.Get key (store kv) with
      | Ok kvp => (Some kvp, None)
      | Fail e => (None, Some e)
      end
  end.

(** [kv.Snapshot(prefix)]: a frozen copy of the content and its version. *)
Definition Snapshot (kv : Kvdb) (pre : string) : result (Kvdb * Z) :=
  match failing kv OpSnapshot with
  | Some e => Fail e
  | None => Ok ({| store := store kv; failing := failing kv |}, Kv.index (store kv))
  end.

(** The update collector: it buffers the mutations under [cPrefix] from
    version [cStartIndex] on. *)
Record UpdatesCollector := mkCollector {
  cPrefix : string;
  cStartIndex : Z;
}.

Definition NewUpdatesCollector (kv : Kvdb) (pre : string) (startIndex : Z)
  : result UpdatesCollector :=
  match failing kv OpNewUpdatesCollector with
  | Some e => Fail e
  | None => Ok {| cPrefix := pre; cStartIndex := startIndex |}
  end.

(** The calls the package makes, in order. *)
Inductive call :=
| CallSnapshot (pre : string)
| CallNewUpdatesCollector (pre : string) (version : Z)
| CallGet (onSnapshot : bool) (key : string)
| CallUnmarshal (bytes : string).

Section Database.
(** Modelled from the spec: [NodeEntry] (node metadata) and [ClusterInfo]
    are declared in [cluster/cluster.go], which is not among the sources;
    the descriptor has a status and a mapping from node identifier to
    node entry. *)
Context {NodeEntry : Type}.

Record ClusterInfo := mkClusterInfo {
  Status : Api.Status;
  NodeEntries : gmap string NodeEntry;
}.

Record ClusterInitState := mkClusterInitState {
  ClusterInfo_ : ClusterInfo;
  InitDb : Kvdb;
  Version : Z;
  Collector : UpdatesCollector;
}.

(** [json.Unmarshal(bytes, &db)]: fills [db] in place and may fail, leaving
    it partly filled. *)
Context (unmarshalClusterInfo : string → ClusterInfo → ClusterInfo * option error).

Definition defaultClusterInfo : ClusterInfo :=
  {| Status := STATUS_INIT; NodeEntries := ∅ |}.

(** The test both functions make on the error of the read: it is fatal
    unless its text says that the key is missing. *)
Definition fatal_read (err : option error) : bool :=
  match err with
  | Some e => negb (Contains (Error e) "Key not found")
  | None => false
  end.

(** What both functions do with the pair that was read, into the default
    descriptor [db]: the descriptor, the decode error if any, and the
    decode call if one was made. *)
Definition decodeClusterDB (clusterDB : option Kv.KVPair) (db : ClusterInfo)
  : ClusterInfo * option error * list call :=
  match clusterDB with
  | None => (db, None, [])
  | Some kv =>
      if String.eqb (Kv.Value kv) "{}" then (db, None, [])
      else
        let '(db', derr) := unmarshalClusterInfo (Kv.Value kv) db in
        (db', derr, [CallUnmarshal (Kv.Value kv)])
  end.

(** [readClusterInfo]: the descriptor, the error, and the calls made. *)
Definition readClusterInfo (kvdb : Kvdb) : ClusterInfo * option error * list call :=
  let db := defaultClusterInfo in
  let '(kv, err) := Get kvdb ClusterDBKey in
  if fatal_read err then (db, err, [CallGet false ClusterDBKey])
  else
    let '(db', derr, calls) := decodeClusterDB kv db in
    (db', derr, CallGet false ClusterDBKey :: calls).

(** [snapAndReadClusterInfo]. Other writers may change the live store
    between the snapshot and the calls that follow it: [interference] is
    what they did to it. *)
Definition snapAndReadClusterInfo (kv : Kvdb) (interference : Kv.Store → Kv.Store)
  : option ClusterInitState * option error * list call :=
  match Snapshot kv "" with
  | Fail err => (None, Some err, [CallSnapshot ""])
  | Ok (snap, version) =>
      let kv := {| store := interference (store kv); failing := failing kv |} in
      match NewUpdatesCollector kv "" version with
      | Fail err =>
          (None, Some err, [CallSnapshot ""; CallNewUpdatesCollector "" version])
      | Ok collector =>
          let calls := [CallSnapshot ""; CallNewUpdatesCollector "" version;
                        CallGet true ClusterDBKey] in
          let '(clusterDB, err) := Get snap ClusterDBKey in
          if fatal_read err then (None, err, calls)
          else
            let '(db, derr, calls') := decodeClusterDB clusterDB defaultClusterInfo in
            (Some {| ClusterInfo_ := db; InitDb := snap; Version := version;
                     Collector := collector |},
             derr, (calls ++ calls')%list)
      end
  end.

(** [json.Marshal(db)]: the encoding, or an error. *)
Context (marshalClusterInfo : ClusterInfo → result string).

(** [writeClusterInfo]: [putErr] is the error the backend answers the
    [Put] with, if any. *)
Definition writeClusterInfo (putErr : option error) (db : ClusterInfo) (kvdb : Kvdb)
  : Kvdb * result Kv.KVPair :=
  match marshalClusterInfo db with
  | Fail err => (kvdb, Fail err)
  | Ok b =>
      match putErr with
      | Some err => (kvdb, Fail err)
      | None =>
          let '(s', kvp) := Kv.Put ClusterDBKey b 0 (store kvdb) in
          ({| store := s'; failing := failing kvdb |}, kvp)
      end
  end.

End Database.

End Cluster.

(** ** A reference codec

    A JSON subset that is enough to run the model on concrete stores: an
    object of integer and boolean fields without white space, zero values
    for the fields left out, and lists of such objects. *)
Module Json.
Import Go.

Definition dq : string := String "034"%char EmptyString.

Definition field (name value : string) : string := dq +:+ name +:+ dq +:+ ":" +:+ value.

Definition strip_prefix (pre s : string) : option string :=
  if String.prefix pre s
  then Some (substring (String.length pre) (String.length s - String.length pre) s)
  else None.

Definition strip_suffix (suf s : string) : option string :=
  if HasSuffix s suf
  then Some (substring 0 (String.length s - String.length suf) s)
  else None.

Fixpoint parse_fields (fs : list string) : option (list (string * string)) :=
  match fs with
  | [] => Some []
  | f :: rest =>
      match Split f ":", parse_fields rest with
      | [k; v], Some kvs => Some ((k, v) :: kvs)
      | _, _ => None
      end
  end.

(** The fields of [{...}]. *)
Definition object_fields (s : string) : option (list (string * string)) :=
  match strip_prefix "{" s with
  | None => None
  | Some s1 =>
      match strip_suffix "}" s1 with
      | None => None
      | Some body =>
          if String.eqb body "" then Some [] else parse_fields (Split body ",")
      end
  end.

Fixpoint lookup_field (name : string) (kvs : list (string * string)) : option string :=
  match kvs with
  | [] => None
  | (k, v) :: rest =>
      if String.eqb k (dq +:+ name +:+ dq) then Some v else lookup_field name rest
  end.

Definition int_field (name : string) (kvs : list (string * string)) : option Z :=
  match lookup_field name kvs with
  | None => Some 0
  | Some v => json_unmarshal_int v 0
  end.

Definition bool_field (name : string) (kvs : list (string * string)) : option bool :=
  match lookup_field name kvs with
  | None => Some false
  | Some v =>
      if String.eqb v "true" then Some true
      else if String.eqb v "false" then Some false
      else None
  end.

Definition resource_code (r : ResourceType) : Z :=
  match r with
  | RESOURCE_TYPE_NONE => 0
  | RESOURCE_TYPE_VOLUME => 1
  | RESOURCE_TYPE_NODE => 2
  | RESOURCE_TYPE_CLUSTER => 3
  | RESOURCE_TYPE_DRIVE => 4
  end.

Definition resource_of_code (z : Z) : option ResourceType :=
  if (z =? 0)%Z then Some RESOURCE_TYPE_NONE
  else if (z =? 1)%Z then Some RESOURCE_TYPE_VOLUME
  else if (z =? 2)%Z then Some RESOURCE_TYPE_NODE
  else if (z =? 3)%Z then Some RESOURCE_TYPE_CLUSTER
  else if (z =? 4)%Z then Some RESOURCE_TYPE_DRIVE
  else None.

Definition encodeAlert (a : Alert) : string :=
  "{" +:+ field "id" (FormatInt (Id a))
  +:+ "," +:+ field "severity" (FormatInt (Severity a))
  +:+ "," +:+ field "alert_type" (FormatInt (AlertType a))
  +:+ "," +:+ field "timestamp" (FormatInt (Timestamp a))
  +:+ "," +:+ field "resource" (FormatInt (resource_code (Resource a)))
  +:+ "," +:+ field "cleared" (if Cleared a then "true" else "false")
  +:+ "," +:+ field "ttl" (FormatInt (Ttl a))
  +:+ "}".

Definition decodeAlert (s : string) : option Alert :=
  kvs ← object_fields s;
  id ← int_field "id" kvs;
  severity ← int_field "severity" kvs;
  alertType ← int_field "alert_type" kvs;
  timestamp ← int_field "timestamp" kvs;
  resource ← int_field "resource" kvs ≫= resource_of_code;
  cleared ← bool_field "cleared" kvs;
  ttl ← int_field "ttl" kvs;
  Some {| Id := id; Severity := severity; AlertType := alertType;
          Timestamp := timestamp; Resource := resource; Cleared := cleared;
          Ttl := ttl |}.

Fixpoint join (sep : string) (l : list string) : string :=
  match l with
  | [] => ""
  | [x] => x
  | x :: rest => x +:+ sep +:+ join sep rest
  end.

Definition encodeAlerts (l : list Alert) : string :=
  "[" +:+ join "," (map encodeAlert l) +:+ "]".

(** The objects of a list end in a closing brace: split there. *)
Fixpoint decode_objects (pieces : list string) : option (list Alert) :=
  match pieces with
  | [] => Some []
  | [last] => if String.eqb last "" then Some [] else None
  | p :: rest =>
      let p := match strip_prefix "," p with Some p' => p' | None => p end in
      a ← decodeAlert (p +:+ "}");
      l ← decode_objects rest;
      Some (a :: l)
  end.

Definition decodeAlerts (s : string) : option (list Alert) :=
  if String.eqb s "null" then Some []
  else
    s1 ← strip_prefix "[" s;
    body ← strip_suffix "]" s1;
    decode_objects (Split body "}").

#[export] Instance codec : AlertCodec := {|
  marshalAlert := encodeAlert;
  unmarshalAlert := decodeAlert;
  marshalAlerts := encodeAlerts;
  unmarshalAlerts := decodeAlerts;
|}.

(** A decoder for the cluster descriptor with node entries left out: the
    status code of [{"Status":n}]. *)
Definition status_of_code (z : Z) : option Status :=
  if (z =? 0)%Z then Some STATUS_NONE
  else if (z =? 1)%Z then Some STATUS_INIT
  else if (z =? 2)%Z then Some STATUS_OK
  else if (z =? 3)%Z then Some STATUS_ERROR
  else None.

Definition decodeClusterInfo (b : string) (db : @Cluster.ClusterInfo unit)
  : @Cluster.ClusterInfo unit * option error :=
  match kvs ← object_fields b; z ← int_field "Status" kvs; status_of_code z with
  | Some st =>
      ({| Cluster.Status := st; Cluster.NodeEntries := Cluster.NodeEntries db |}, None)
  | None => (db, Some ErrJson)
  end.

End Json.

(** ** Concrete alerts, stores and watchers the properties are run on *)
Module Sample.
Import Go Kv Alert Json.

Definition volume_alert : Alert :=
  {| Id := 0; Severity := 3; AlertType := 7; Timestamp := 0;
     Resource := RESOURCE_TYPE_VOLUME; Cleared := false; Ttl := 0 |}.

Definition node_child : Alert :=
  {| Id := 0; Severity := 1; AlertType := 8; Timestamp := 0;
     Resource := RESOURCE_TYPE_NODE; Cleared := false; Ttl := 0 |}.

Definition none_alert : Alert :=
  {| Id := 0; Severity := 2; AlertType := 7; Timestamp := 0;
     Resource := RESOURCE_TYPE_NONE; Cleared := false; Ttl := 0 |}.

(** A store in which [node_child] is subscribed to alerts of type 7. *)
Definition subscribed_store : Store := (Subscribe 7 node_child Kv.empty).1.

(** The same store after one alert of type 7 was raised at time 100: it
    holds the child as node alert 0 and the parent as volume alert 1. *)
Definition raised_store : Store :=
  match Raise 4 100 volume_alert subscribed_store with
  | Some (s, _, _) => s
  | None => subscribed_store
  end.

(** Watchers of two clusters, both ready; their callbacks accept every
    event and their stores accept every watch. *)
Definition accepting : AlertWatcherFunc := λ _ _ _ _, None.

Definition ready_watcher (cluster : string) : watcher :=
  {| status := watchReady; cb := accepting; clusterID := cluster;
     kvdb := {| WatchTree := λ _ _, None |} |}.

Definition two_clusters : globals :=
  {| watcherMap := <["c1" := ready_watcher "c1"]> (<["c2" := ready_watcher "c2"]> ∅);
     watchErrors := 0; effects := [] |}.

Definition io_error : error := Errorf "connection reset".

(** Errors on the watches of two clusters add up: three on the first and
    two on the second use up the budget, and the next error, on the second
    cluster, notifies the second cluster's callback. *)
Definition mixed_errors : list delivery :=
  [error_on "pwx/c1/alert/" io_error; error_on "pwx/c2/alert/" io_error;
   error_on "pwx/c1/alert/" io_error; error_on "pwx/c2/alert/" io_error;
   error_on "pwx/c1/alert/" io_error].

(** A watcher that had failed its bootstrap is set to ready by a later
    bootstrap mutation. *)
Definition failed_watcher : globals :=
  {| watcherMap := {["c1" := set_status (ready_watcher "c1") watchError]};
     watchErrors := 3; effects := [] |}.

Definition bootstrap_pair : KVPair :=
  {| Key := "alert/bootstrap"; Value := "2017-01-01T00:00:00Z"; Action := KVSet;
     TTL := 0; ModifiedIndex := 7 |}.

(** Three callers under contention: the second caller's compare-and-set
    loses against the third and is retried after a fresh read. *)
Definition contended_schedule : list action :=
  [Step 0; create_record RESOURCE_TYPE_NODE 0 "{}" 0; Step 1; Step 1;
   Step 2; Step 2; Step 2; Step 1; Step 1; Step 1].

(** A healthy KV store holding an initialized cluster database, and
    another writer that deletes the database. *)
Definition healthy : Cluster.op → option error := λ _, None.

Definition ok_database : string := "{" +:+ field "Status" "2" +:+ "}".

Definition initialized_kv : Cluster.Kvdb :=
  {| Cluster.store := (Put Cluster.ClusterDBKey ok_database 0 Kv.empty).1;
     Cluster.failing := healthy |}.

Definition empty_object_kv : Cluster.Kvdb :=
  {| Cluster.store := (Put Cluster.ClusterDBKey "{}" 0 Kv.empty).1;
     Cluster.failing := healthy |}.

Definition wipe : Store → Store := λ s, (Delete Cluster.ClusterDBKey s).1.

Definition no_snapshots : Cluster.op → option error :=
  λ o, match o with Cluster.OpSnapshot => Some io_error | _ => None end.

End Sample.

(** ** Sequences of calls on the alert store *)
Module AlertRuns.
Import Go Kv Alert.

(** [n] calls of [getNextIDFromKVDB] one after the other, each running
    alone: the identifiers they return, in order. A failed call ends the
    sequence. *)
Fixpoint allocate_many (n : nat) (s : Store) : option (Store * list Z) :=
  match n with
  | O => Some (s, [])
  | S n' =>
      match getNextIDFromKVDB 3 s with
      | Some (s', id, None) =>
          match allocate_many n' s' with
          | Some (s'', ids) => Some (s'', id :: ids)
          | None => None
          end
      | _ => None
      end
  end.

(** The alert as [raise] stamps it before it creates the record. *)
Definition stamp (a : Alert) (alertID now : Z) : Alert :=
  {| Id := alertID; Severity := Severity a; AlertType := AlertType a;
     Timestamp := now; Resource := Resource a; Cleared := false; Ttl := Ttl a |}.

(** The key of the record of alert [alertID] in a partition. *)
Definition record_key (resourceType : ResourceType) (alertID : Z) : string :=
  getResourceKey resourceType +:+ FormatInt alertID.

Section WithCodec.
Context `{!AlertCodec}.

(** [Subscribe] called for each child in turn, under one parent type. *)
Definition subscribe_all (parentAlertType : Z) (children : list Alert) (s : Store) : Store :=
  foldl (λ s child, (Subscribe parentAlertType child s).1) s children.

(** The subscription list stored for a parent type, decoded. *)
Definition subscriptions_of (parentAlertType : Z) (s : Store) : result (list Alert) :=
  match GetVal unmarshalAlerts (getSubscriptionsKey parentAlertType) s with
  | Ok (_, l) => Ok l
  | Fail e => Fail e
  end.

(** The codec reads back the lists [take k l] it writes. *)
Definition reads_back_prefixes (l : list Alert) : Prop :=
  ∀ k : nat, unmarshalAlerts (marshalAlerts (take k l)) = Some (take k l).

End WithCodec.

End AlertRuns.

(** ** Sequences of deliveries to the watch callback *)
Module WatchRuns.
Import Go Kv Alert.

(** The order in which a watcher's status can only move: from bootstrap to
    error or ready, from error to ready. *)
Definition status_rank (st : watcherStatus) : nat :=
  match st with
  | watchBootstrap => 0
  | watchError => 1
  | watchReady => 2
  end.

(** A watcher as it was and as it is now: the same callback, cluster and
    store handle, a status that has not moved back. *)
Definition watcher_evolved (w w' : watcher) : Prop :=
  cb w' = cb w ∧ clusterID w' = clusterID w ∧ kvdb w' = kvdb w
  ∧ (status_rank (status w) <= status_rank (status w'))%nat.

(** The registered watchers as they were and as they are now: the same
    clusters, each watcher evolved. *)
Definition watchers_evolved (g g' : globals) : Prop :=
  ∀ k, match watcherMap g !! k, watcherMap g' !! k with
       | Some w, Some w' => watcher_evolved w w'
       | None, None => True
       | _, _ => False
       end.

(** The error counter is within the budget. *)
Definition within_budget (g : globals) : Prop := 0 <= watchErrors g <= 5.

(** A successful mutation of the allocator's counter or of a subscription
    list, which the callback ignores. *)
Definition bookkeeping (d : delivery) : Prop :=
  dErr d = None
  ∧ is_Some (Split (dPrefix d) "/" !! 1%nat)
  ∧ ∃ kvp, dKvp d = Some kvp
      ∧ HasSuffix (Key kvp) bootstrap = false
      ∧ (HasSuffix (Key kvp) nextAlertIDKey = true
         ∨ Contains (Key kvp) subscriptionsKey = true).

(** A delivery the callback can handle: its prefix names, in its second
    segment, a cluster with a registered watcher, and it carries a pair
    when it carries no error. *)
Definition addressed (registered : string → Prop) (d : delivery) : Prop :=
  (∃ watcherKey, Split (dPrefix d) "/" !! 1%nat = Some watcherKey ∧ registered watcherKey)
  ∧ (dErr d = None → is_Some (dKvp d)).

(** The clusters in [registered] have a watcher. *)
Definition all_registered (registered : string → Prop) (g : globals) : Prop :=
  ∀ k, registered k → is_Some (watcherMap g !! k).

(** The number of errors among deliveries. *)
Definition error_count (ds : list delivery) : nat :=
  length (List.filter (λ d, match dErr d with Some _ => true | None => false end) ds).

End WatchRuns.

(** ** Package [time]: instants and their comparison *)
Module GoTime.
Import Go.

(** A [time.Time] as [Before] and [After] see it beside an instant
    without monotonic clock reading: the seconds since January 1 of year 1
    (an [int64]) and the nanoseconds within the second. *)
Record Time := mkTime {
  sec : Z;
  nsec : Z;
}.

(** The seconds from year 1 to 1970. *)
Definition unixToInternal : Z := 62135596800.

(** [time.Unix(sec, nsec)]: nanoseconds outside [0, 1e9) carry into the
    seconds; the epoch offset is added in [int64], where it wraps. *)
Definition Unix (s n : Z) : Time :=
  let '(s, n) :=
    if (n <? 0)%Z || (1000000000 <=? n)%Z then
      let q := Z.quot n 1000000000 in
      let s := int64_wrap (s + q) in
      let n := int64_wrap (n - int64_wrap (q * 1000000000)) in
      if (n <? 0)%Z then (int64_wrap (s - 1), int64_wrap (n + 1000000000)) else (s, n)
    else (s, n) in
  {| sec := int64_wrap (s + unixToInternal); nsec := n |}.

(** [t.Before(u)] and [t.After(u)]. *)
Definition Before (t u : Time) : bool :=
  (sec t <? sec u)%Z || ((sec t =? sec u)%Z && (nsec t <? nsec u)%Z).

Definition After (t u : Time) : bool :=
  (sec u <? sec t)%Z || ((sec t =? sec u)%Z && (nsec u <? nsec t)%Z).

End GoTime.

(** ** Package [alert]: the client type [KvAlert] and the rest of
    [alert/alert_kvdb.go] *)
Module KvAlertClient.
Import Go Kv Alert GoTime.

Definition Name := "alert_kvdb".
Definition NameTest := "alert_kvdb_test".

(** A [kvdb.Kvdb] instance, known by what [kvdb.New] was called with. *)
Record KvdbInstance := mkKvdbInstance {
  kvName : string;
  kvDomain : string;
  kvMachines : list string;
  kvOptions : gmap string string;
}.

Record KvAlert := mkKvAlert {
  kvdbOptions : gmap string string;
  kvdbName : string;
  kvdbDomain : string;
  kvdbMachines : list string;
  clusterID : string;
}.

(** [kva.String()]. *)
Definition String_ (kva : KvAlert) : string := Name.

Section Clients.
Context `{!AlertCodec}.
(** The backend refuses to open some instances: the error [kvdb.New]
    answers with, if any. *)
Context (newFails : KvdbInstance → option error).

(** [kvdb.New(name, domain, machines, options)]. *)
Definition kvdb_New (name domain : string) (machines : list string)
    (options : gmap string string) : result KvdbInstance :=
  let kv := {| kvName := name; kvDomain := domain; kvMachines := machines;
               kvOptions := options |} in
  match newFails kv with
  | Some err => Fail err
  | None => Ok kv
  end.

(** [GetKvdbInstance]: the cached instance of the client's cluster, nil
    when there is none. *)
Definition GetKvdbInstance (kva : KvAlert) (kvdbMap : gmap string KvdbInstance)
  : option KvdbInstance :=
  kvdbMap !! clusterID kva.

(** [Init]: the process-wide [kvdbMap] before and after. *)
Definition Init (name domain : string) (machines : list string) (clusterID : string)
    (kvdbOptions : gmap string string) (kvdbMap : gmap string KvdbInstance)
  : gmap string KvdbInstance * result KvAlert :=
  let client := {| kvdbOptions := kvdbOptions; kvdbName := name; kvdbDomain := domain;
                   kvdbMachines := machines; clusterID := clusterID |} in
  match kvdbMap !! clusterID with
  | Some _ => (kvdbMap, Ok client)
  | None =>
      match kvdb_New name (domain +:+ "/" +:+ clusterID) machines kvdbOptions with
      | Fail err => (kvdbMap, Fail err)
      | Ok kv => (<[clusterID := kv]> kvdbMap, Ok client)
      end
  end.

Definition getKvdbForCluster (kva : KvAlert) (clusterID : string)
    (kvdbMap : gmap string KvdbInstance)
  : gmap string KvdbInstance * result KvdbInstance :=
  match kvdbMap !! clusterID with
  | Some kv => (kvdbMap, Ok kv)
  | None =>
      match kvdb_New (kvdbName kva) (kvdbDomain kva +:+ "/" +:+ clusterID)
                     (kvdbMachines kva) (kvdbOptions kva) with
      | Fail err => (kvdbMap, Fail err)
      | Ok kv => (<[clusterID := kv]> kvdbMap, Ok kv)
      end
  end.

(** [EnumerateByCluster]: [content] is what the store behind an instance
    holds. *)
Definition EnumerateByCluster (content : KvdbInstance → Store) (kva : KvAlert)
    (clusterID : string) (filter : Alert) (kvdbMap : gmap string KvdbInstance)
  : gmap string KvdbInstance * outcome (list (option Alert) * option error) :=
  match getKvdbForCluster kva clusterID kvdbMap with
  | (kvdbMap', Fail err) => (kvdbMap', Ret ([], Some err))
  | (kvdbMap', Ok kv) => (kvdbMap', enumerate (content kv) filter)
  end.

(** The time test of [EnumerateWithinTimeRange]. *)
Definition within (timeStart timeEnd : Time) (v : Alert) : bool :=
  let alertTime := Unix (Timestamp v) 0 in
  Before alertTime timeEnd && After alertTime timeStart.

(** The loop of [EnumerateWithinTimeRange]: [v.Timestamp] on a nil element
    is a nil dereference. *)
Fixpoint time_loop (timeStart timeEnd : Time) (resourceAlerts allAlerts : list (option Alert))
  : outcome (list (option Alert)) :=
  match resourceAlerts with
  | [] => Ret allAlerts
  | None :: _ => Panic "nil pointer dereference"
  | Some v :: rest =>
      if within timeStart timeEnd v
      then time_loop timeStart timeEnd rest (allAlerts ++ [Some v])%list
      else time_loop timeStart timeEnd rest allAlerts
  end.

Definition EnumerateWithinTimeRange (timeStart timeEnd : Time)
    (resourceType : ResourceType) (kv : Store)
  : outcome (list (option Alert) * option error) :=
  let allAlerts := [] in
  match
    (if decide (resourceType ≠ RESOURCE_TYPE_NONE)
     then match getResourceSpecificAlerts resourceType kv with
          | Fail err => ([], Some err)
          | Ok resourceAlerts => (resourceAlerts, None)
          end
     else getAllAlerts kv)
  with
  | (_, Some err) => Ret ([], Some err)
  | (resourceAlerts, None) =>
      match time_loop timeStart timeEnd resourceAlerts allAlerts with
      | Ret allAlerts => Ret (allAlerts, None)
      | Panic why => Panic why
      end
  end.

(** *** [Watch]: the bootstrap handshake

    The watch callback runs on its own while [Watch] loops: [arrivals n]
    are the deliveries it has handled between the previous reading of the
    watcher's status by [Watch] and the [n]-th one. [handle] gives the
    watch behaviour of an instance, [putFails kv n] the error of the
    [n]-th write of the bootstrap key, if any. *)
Context (handle : KvdbInstance → KvdbHandle).
Context (putFails : KvdbInstance → nat → option error).

(** A reading of [alertWatcher.status]. The watcher is the one installed
    under [watcherKey]; deliveries never remove it. *)
Definition read_status (arrivals : nat → list delivery) (reading : nat)
    (watcherKey : string) (g : globals) : outcome (globals * watcherStatus) :=
  match deliver (arrivals reading) g with
  | Panic why => Panic why
  | Ret (g', _) =>
      match watcherMap g' !! watcherKey with
      | Some w => Ret (g', status w)
      | None => Panic "the watcher is gone"
      end
  end.

(** The loop of [Watch] and the test after it: the state, the number of
    writes of the bootstrap key, and the error. *)
Fixpoint bootstrap_loop (fuel : nat) (kv : KvdbInstance) (clusterID : string)
    (arrivals : nat → list delivery) (reading puts : nat) (retries : Z) (g : globals)
  : option (outcome (globals * nat * option error)) :=
  match fuel with
  | O => None
  | S fuel' =>
      match read_status arrivals reading clusterID g with
      | Panic why => Some (Panic why)
      | Ret (g1, st) =>
          if decide (st = watchBootstrap) then
            match putFails kv puts with
            | Some err => Some (Ret (g1, S puts, Some err))
            | None =>
                match read_status arrivals (S reading) clusterID g1 with
                | Panic why => Some (Panic why)
                | Ret (g2, st2) =>
                    let retries' :=
                      if decide (st2 = watchBootstrap) then int64_wrap (retries + 1)
                      else retries in
                    if decide (retries' = watchRetries) then
                      Some (Ret (g2, S puts,
                                 Some (Errorf ("Failed to bootstrap watch on " +:+ clusterID))))
                    else
                      bootstrap_loop fuel' kv clusterID arrivals (S (S reading)) (S puts)
                                     retries' g2
                end
            end
          else
            match read_status arrivals (S reading) clusterID g1 with
            | Panic why => Some (Panic why)
            | Ret (g2, st2) =>
                if decide (st2 ≠ watchReady) then
                  Some (Ret (g2, puts, Some (Errorf ("Failed to watch on " +:+ clusterID))))
                else Some (Ret (g2, puts, None))
            end
      end
  end.

(** The watcher [Watch] installs: its cluster field is left empty. *)
Definition new_watcher (alertWatcherFunc : AlertWatcherFunc) (kv : KvdbInstance) : watcher :=
  {| status := watchBootstrap; cb := alertWatcherFunc; Alert.clusterID := "";
     kvdb := handle kv |}.

Definition Watch (fuel : nat) (kva : KvAlert) (clusterID : string)
    (alertWatcherFunc : AlertWatcherFunc) (arrivals : nat → list delivery)
    (kvdbMap : gmap string KvdbInstance) (g : globals)
  : option (outcome (gmap string KvdbInstance * globals * nat * option error)) :=
  match getKvdbForCluster kva clusterID kvdbMap with
  | (kvdbMap', Fail err) => Some (Ret (kvdbMap', g, 0%nat, Some err))
  | (kvdbMap', Ok kv) =>
      let alertWatcher := new_watcher alertWatcherFunc kv in
      let watcherKey := clusterID in
      let g1 := {| watcherMap := <[watcherKey := alertWatcher]> (watcherMap g);
                   watchErrors := watchErrors g; effects := effects g |} in
      match subscribeWatch watcherKey g1 with
      | (g2, Some err) => Some (Ret (kvdbMap', g2, 0%nat, Some err))
      | (g2, None) =>
          match bootstrap_loop fuel kv clusterID arrivals 0 0 0 g2 with
          | None => None
          | Some (Panic why) => Some (Panic why)
          | Some (Ret (g3, puts, err)) => Some (Ret (kvdbMap', g3, puts, err))
          end
      end
  end.

End Clients.

End KvAlertClient.

(** ** Package [alert]: the driver registry of [alert/alert.go] *)
Module AlertRegistry.
Import Go KvAlertClient.

(** An initializer: it works on the process-wide [kvdbMap]. *)
Definition InitFunc : Type :=
  string → string → list string → string → gmap string string →
  gmap string KvdbInstance → gmap string KvdbInstance * result KvAlert.

(** The package variables. *)
Record package := mkPackage {
  instances : gmap string KvAlert;
  drivers : gmap string InitFunc;
  kvdbMap : gmap string KvdbInstance;
}.

Definition Register (name : string) (initFunc : InitFunc) (p : package)
  : package * option error :=
  match drivers p !! name with
  | Some _ => (p, Some ErrExist)
  | None =>
      ({| instances := instances p; drivers := <[name := initFunc]> (drivers p);
          kvdbMap := kvdbMap p |}, None)
  end.

Definition New (name kvdbName kvdbBase : string) (kvdbMachines : list string)
    (clusterID : string) (kvdbOptions : gmap string string) (p : package)
  : package * result KvAlert :=
  match drivers p !! name with
  | Some initFunc =>
      match initFunc kvdbName kvdbBase kvdbMachines clusterID kvdbOptions (kvdbMap p) with
      | (m, Fail err) =>
          ({| instances := instances p; drivers := drivers p; kvdbMap := m |}, Fail err)
      | (m, Ok driver) =>
          ({| instances := <[name := driver]> (instances p); drivers := drivers p;
              kvdbMap := m |}, Ok driver)
      end
  | None => (p, Fail ErrNotSupported)
  end.

(** [Register] called for each pair in turn, errors ignored. *)
Definition register_all (regs : list (string * InitFunc)) (p : package) : package :=
  foldl (λ p reg, (Register reg.1 reg.2 p).1) p regs.

(** The package after its [init]: both names registered with [Init]. *)
Definition initial (newFails : KvdbInstance → option error) : package :=
  register_all [(Name, Init newFails); (NameTest, Init newFails)]
    {| instances := ∅; drivers := ∅; kvdbMap := ∅ |}.

End AlertRegistry.

(** ** Further stores, deliveries and clients the properties are run on *)
Module Scenario.
Import Go Kv Alert GoTime KvAlertClient AlertRegistry Json.

(** A store whose counter holds bytes that are no integer. *)
Definition corrupt_counter : Store := (Put getNextAlertIDKey "abc" 0 Kv.empty).1.

(** A store whose counter was written with white space before the number. *)
Definition spaced_counter : Store := (Put getNextAlertIDKey " 5" 0 Kv.empty).1.

(** The store of [Sample.raised_store] with a record that holds the
    literal [null] in the node partition. *)
Definition null_record : Store := (Put "alert/node/9" "null" 0 Sample.raised_store).1.

(** A store with one volume alert, raised when the clock read the largest
    64-bit second. *)
Definition far_future : Store :=
  match Raise 4 9223372036854775807 Sample.volume_alert Kv.empty with
  | Some (s, _, _) => s
  | None => Kv.empty
  end.

(** A store without counter in which a record already sits under the key
    of volume alert 0. *)
Definition squatted : Store := (Put "alert/volume/0" "stale" 0 Kv.empty).1.

(** Alerts of type 7 subscribed to their own type. *)
Definition self_subscribed : Store := (Subscribe 7 Sample.volume_alert Kv.empty).1.

(** Mutations of the allocator's counter and of a subscription list, as
    the tree-watch delivers them. *)
Definition counter_mutation : delivery :=
  {| dPrefix := "pwx/c1/alert/";
     dKvp := Some {| Key := "pwx/c1/alert/nextAlertId"; Value := "4"; Action := KVSet;
                     TTL := 0; ModifiedIndex := 9 |};
     dErr := None |}.

Definition subscription_mutation : delivery :=
  {| dPrefix := "pwx/c2/alert/";
     dKvp := Some {| Key := "pwx/c2/alert/subscriptions/7"; Value := "[]"; Action := KVSet;
                     TTL := 0; ModifiedIndex := 10 |};
     dErr := None |}.

Definition interleaved_errors : list delivery :=
  [error_on "pwx/c1/alert/" Sample.io_error; counter_mutation;
   error_on "pwx/c2/alert/" Sample.io_error; subscription_mutation;
   error_on "pwx/c1/alert/" Sample.io_error].

(** A backend that opens every instance, whose watches subscribe and whose
    writes succeed. *)
Definition open_backend : KvdbInstance → option error := λ _, None.
Definition closed_backend : KvdbInstance → option error := λ _, Some Sample.io_error.
Definition quiet_handle : KvdbInstance → KvdbHandle :=
  λ _, {| WatchTree := λ _ _, None |}.
Definition writable : KvdbInstance → nat → option error := λ _ _, None.

Definition machines : list string := ["http://127.0.0.1:4001"].

Definition client : KvAlert :=
  {| kvdbOptions := ∅; kvdbName := "etcd-kv"; kvdbDomain := "pwx";
     kvdbMachines := machines; clusterID := "c1" |}.

Definition instance_of (cluster : string) : KvdbInstance :=
  {| kvName := "etcd-kv"; kvDomain := "pwx/" +:+ cluster; kvMachines := machines;
     kvOptions := ∅ |}.

Definition no_watchers : globals :=
  {| watcherMap := ∅; watchErrors := 0; effects := [] |}.

(** The watch delivers nothing; the watch delivers the bootstrap mutation
    after the first write. *)
Definition silence : nat → list delivery := λ _, [].

Definition bootstrap_seen : nat → list delivery :=
  λ n, match n with
       | 1%nat => [{| dPrefix := "pwx/c1/alert/"; dKvp := Some Sample.bootstrap_pair;
                      dErr := None |}]
       | _ => []
       end.

(** The watch of another cluster fails while [Watch] waits; the bootstrap
    mutation is delivered after the second write. *)
Definition noisy : nat → list delivery :=
  λ n, match n with
       | 0%nat => [error_on "pwx/c2/alert/" Sample.io_error]
       | 1%nat => [error_on "pwx/c2/alert/" Sample.io_error;
                   error_on "pwx/c2/alert/" Sample.io_error]
       | 2%nat => [{| dPrefix := "pwx/c1/alert/"; dKvp := Some Sample.bootstrap_pair;
                      dErr := None |}]
       | _ => []
       end.

(** An encoder for the cluster descriptor with node entries left out, the
    counterpart of [Json.decodeClusterInfo]. *)
Definition code_of_status (st : Status) : Z :=
  match st with
  | STATUS_NONE => 0
  | STATUS_INIT => 1
  | STATUS_OK => 2
  | STATUS_ERROR => 3
  end.

Definition encodeClusterInfo (db : @Cluster.ClusterInfo unit) : result string :=
  Ok ("{" +:+ field "Status" (FormatInt (code_of_status (Cluster.Status db))) +:+ "}").

Definition ok_cluster : @Cluster.ClusterInfo unit :=
  {| Cluster.Status := STATUS_OK; Cluster.NodeEntries := ∅ |}.

(** A store whose reads fail with an error that mentions the missing key. *)
Definition lookup_error : error := Errorf "rpc error: Key not found (cluster/database)".

Definition unreadable_kv : Cluster.Kvdb :=
  {| Cluster.store := Kv.empty;
     Cluster.failing := λ o, match o with
                             | Cluster.OpGet => Some lookup_error
                             | _ => None
                             end |}.

End Scenario.


(* ===================================================================== *)
(** * Part II: lemmas and theorems *)
(* ===================================================================== *)

Open Scope list_scope.

(** ** Integers and their decimal rendering *)
Module GoFacts.
Import Go.

Lemma two63 : 2 ^ 63 = 9223372036854775808.
Proof. reflexivity. Qed.

Lemma two64 : 2 ^ 64 = 18446744073709551616.
Proof. reflexivity. Qed.

Lemma int64_wrap_range z : is_int64 (int64_wrap z).
Proof.
  unfold is_int64, int64_wrap, int64_min, int64_max.
  pose proof (Z.mod_pos_bound (z + 2 ^ 63) (2 ^ 64)) as Hb.
  rewrite two63, two64 in *. lia.
Qed.

Lemma int64_wrap_id z : is_int64 z → int64_wrap z = z.
Proof.
  unfold is_int64, int64_wrap, int64_min, int64_max. rewrite two63, two64.
  intros Hz. rewrite Z.mod_small by lia. lia.
Qed.

Lemma int64_wrap_succ a : int64_wrap (int64_wrap a + 1) = int64_wrap (a + 1).
Proof.
  unfold int64_wrap. f_equal.
  replace ((a + 2 ^ 63) mod 2 ^ 64 - 2 ^ 63 + 1 + 2 ^ 63)
    with ((a + 2 ^ 63) mod 2 ^ 64 + 1) by lia.
  replace (a + 1 + 2 ^ 63) with ((a + 2 ^ 63) + 1) by lia.
  rewrite Z.add_mod_idemp_l; [reflexivity | rewrite two64; lia].
Qed.

(** Fewer than [2^64] increments never bring the counter back. *)
Lemma int64_wrap_inj v i j :
  0 <= i < 2 ^ 64 → 0 <= j < 2 ^ 64 →
  int64_wrap (v + i) = int64_wrap (v + j) → i = j.
Proof.
  unfold int64_wrap. rewrite two63, two64. intros Hi Hj Heq.
  pose proof (Z.div_mod (v + i + 9223372036854775808) 18446744073709551616 ltac:(lia)) as E1.
  pose proof (Z.div_mod (v + j + 9223372036854775808) 18446744073709551616 ltac:(lia)) as E2.
  set (ri := (v + i + 9223372036854775808) mod 18446744073709551616) in *.
  set (rj := (v + j + 9223372036854775808) mod 18446744073709551616) in *.
  set (qi := (v + i + 9223372036854775808) / 18446744073709551616) in *.
  set (qj := (v + j + 9223372036854775808) / 18446744073709551616) in *.
  assert (Hr : ri = rj) by lia.
  destruct (Z.eq_dec qi qj) as [Hq|Hq]; lia.
Qed.

Lemma to_int_proper z :
  Z.to_int z ≠ Decimal.Pos Decimal.Nil ∧ Z.to_int z ≠ Decimal.Neg Decimal.Nil.
Proof.
  destruct z as [|p|p]; simpl; split; try discriminate;
    intros [= Hp]; exact (DecimalPos.Unsigned.to_uint_nonnil p Hp).
Qed.

Lemma int_of_string_FormatInt z :
  NilZero.int_of_string (FormatInt z) = Some (Z.to_int z).
Proof.
  unfold FormatInt. destruct (to_int_proper z). now apply NilZero.isi.
Qed.

Lemma FormatInt_inj a b : FormatInt a = FormatInt b → a = b.
Proof.
  intros Heq.
  assert (Hi : Some (Z.to_int a) = Some (Z.to_int b))
    by (rewrite <- !int_of_string_FormatInt; now rewrite Heq).
  injection Hi as Hi.
  rewrite <- (DecimalZ.of_to a), <- (DecimalZ.of_to b). now rewrite Hi.
Qed.

(** [FormatInt] writes digits and a sign, no white space. *)
Lemma json_trim_no_space s : no_space s = true → json_trim s = s.
Proof.
  intros Hs. unfold json_trim.
  assert (Hl : trim_left s = s).
  { destruct s as [|c s']; [reflexivity|]. simpl in *.
    now destruct (json_space c). }
  rewrite Hl. clear Hl. induction s as [|c s' IH]; [reflexivity|].
  simpl in *. apply andb_prop in Hs as [Hc Hs']. rewrite (IH Hs').
  destruct s'; [|reflexivity]. now destruct (json_space c).
Qed.

Lemma no_space_uint d : no_space (NilEmpty.string_of_uint d) = true.
Proof. induction d; simpl; auto. Qed.

Lemma no_space_FormatInt z : no_space (FormatInt z) = true.
Proof.
  unfold FormatInt, NilZero.string_of_int, NilZero.string_of_uint.
  destruct (Z.to_int z) as [d|d]; destruct d; simpl; auto using no_space_uint.
Qed.

Lemma json_trim_FormatInt z : json_trim (FormatInt z) = FormatInt z.
Proof. apply json_trim_no_space, no_space_FormatInt. Qed.

Lemma FormatInt_not_null z : String.eqb (FormatInt z) "null" = false.
Proof.
  destruct (String.eqb (FormatInt z) "null") eqn:E; [|reflexivity].
  apply String.eqb_eq in E.
  pose proof (int_of_string_FormatInt z) as H. rewrite E in H. discriminate H.
Qed.

(** Reading back what [FormatInt] wrote gives the number, whatever the
    variable held before. *)
Lemma json_unmarshal_int_FormatInt z cur :
  is_int64 z → json_unmarshal_int (FormatInt z) cur = Some z.
Proof.
  intros [Hlo Hhi]. unfold json_unmarshal_int. rewrite json_trim_FormatInt.
  rewrite FormatInt_not_null, int_of_string_FormatInt. cbv zeta.
  rewrite DecimalZ.of_to, String.eqb_refl. simpl.
  destruct (Z.leb_spec int64_min z); [|lia].
  destruct (Z.leb_spec z int64_max); [|lia].
  reflexivity.
Qed.

End GoFacts.

(** ** The identifier allocator *)
Module AllocSpec.
Import Go Kv Alert GoFacts.

Lemma counter_write v ttl act s :
  counter (write getNextAlertIDKey v ttl act s).1 = Some v.
Proof. unfold counter, write. simpl. now rewrite lookup_insert_eq. Qed.

Lemma create_absent s v :
  data s !! getNextAlertIDKey = None →
  Create getNextAlertIDKey v 0 s
  = ((write getNextAlertIDKey v 0 KVCreate s).1,
     Ok (write getNextAlertIDKey v 0 KVCreate s).2).
Proof. intros H. unfold Create. now rewrite H. Qed.

Lemma create_present s v e :
  data s !! getNextAlertIDKey = Some e →
  Create getNextAlertIDKey v 0 s = (s, Fail KvErrExist).
Proof. intros H. unfold Create. now rewrite H. Qed.

(** The compare-and-set of the allocator goes through exactly when the
    stored bytes are the expected ones; the indices play no part. *)
Lemma cas_same_bytes s kvp v e :
  data s !! Key kvp = Some e → eValue e = v →
  CompareAndSet kvp 0 (Some v) s
  = ((write (Key kvp) (Value kvp) 0 KVSet s).1,
     Ok (write (Key kvp) (Value kvp) 0 KVSet s).2).
Proof.
  intros H <-. unfold CompareAndSet. rewrite H, String.eqb_refl. reflexivity.
Qed.

Lemma cas_other_bytes s kvp v :
  eValue <$> data s !! Key kvp ≠ Some v →
  ∃ e, CompareAndSet kvp 0 (Some v) s = (s, Fail e).
Proof.
  intros H. unfold CompareAndSet.
  destruct (data s !! Key kvp) as [e|] eqn:E; [|eauto].
  destruct (String.eqb (eValue e) v) eqn:Eb; simpl; [|eauto].
  apply String.eqb_eq in Eb. exfalso. apply H. simpl. now rewrite Eb.
Qed.

Lemma step_create_absent s :
  data s !! getNextAlertIDKey = None →
  alloc_step s AtCreate
  = ((write getNextAlertIDKey (FormatInt (int64_wrap (0 + 1))) 0 KVCreate s).1,
     Returned 0 None).
Proof. intros H. unfold alloc_step. now rewrite (create_absent _ _ H). Qed.

Lemma step_create_present s e :
  data s !! getNextAlertIDKey = Some e →
  alloc_step s AtCreate = (s, AtGetVal 0).
Proof. intros H. unfold alloc_step. now rewrite (create_present _ _ _ H). Qed.

Lemma step_read_fail s n e :
  GetVal (λ b, json_unmarshal_int b n) getNextAlertIDKey s = Fail e →
  alloc_step s (AtGetVal n) = (s, Returned (-1) (Some ErrNotInitialized)).
Proof. intros H. unfold alloc_step. now rewrite H. Qed.

Lemma step_read_ok s n e v :
  data s !! getNextAlertIDKey = Some e →
  json_unmarshal_int (eValue e) n = Some v →
  alloc_step s (AtGetVal n)
  = (s, AtCompareAndSet v (pair_of getNextAlertIDKey e KVGet)).
Proof.
  intros He Hv. unfold alloc_step, GetVal, Get. rewrite He. simpl. now rewrite Hv.
Qed.

Lemma step_cas_ok s n kvp :
  Key kvp = getNextAlertIDKey → counter s = Some (Value kvp) →
  alloc_step s (AtCompareAndSet n kvp)
  = ((write getNextAlertIDKey (FormatInt (int64_wrap (n + 1))) 0 KVSet s).1,
     Returned n None).
Proof.
  intros Hk Hc. unfold counter in Hc.
  destruct (data s !! getNextAlertIDKey) as [e|] eqn:He; [|discriminate].
  injection Hc as Hc. unfold alloc_step.
  rewrite (cas_same_bytes s _ (Value kvp) e); simpl; [|now rewrite Hk|assumption].
  now rewrite Hk.
Qed.

Lemma step_cas_conflict s n kvp :
  Key kvp = getNextAlertIDKey → counter s ≠ Some (Value kvp) →
  alloc_step s (AtCompareAndSet n kvp) = (s, AtGetVal n).
Proof.
  intros Hk Hc. unfold alloc_step.
  destruct (cas_other_bytes s
    {| Key := Key kvp; Value := FormatInt (int64_wrap (n + 1)); Action := Action kvp;
       TTL := TTL kvp; ModifiedIndex := ModifiedIndex kvp |} (Value kvp)) as [e He].
  { simpl. rewrite Hk. exact Hc. }
  now rewrite He.
Qed.

Lemma run_alloc_step fuel s pc :
  (∀ id err, pc ≠ Returned id err) →
  run_alloc (S fuel) s pc = run_alloc fuel (alloc_step s pc).1 (alloc_step s pc).2.
Proof.
  intros H. destruct pc as [|n|n kvp|i e];
    try (cbn [run_alloc]; destruct (alloc_step s _); reflexivity).
  now destruct (H i e).
Qed.

(** From the read, two uninterrupted store calls end the call. *)
Lemma run_from_read fuel s n :
  ∃ r, run_alloc (S (S fuel)) s (AtGetVal n) = Some r.
Proof.
  rewrite run_alloc_step by discriminate.
  destruct (data s !! getNextAlertIDKey) as [e|] eqn:He.
  - destruct (json_unmarshal_int (eValue e) n) as [v|] eqn:Hv.
    + rewrite (step_read_ok _ _ _ _ He Hv). cbn [fst snd].
      rewrite run_alloc_step by discriminate.
      rewrite step_cas_ok; [destruct fuel; cbn; eauto|reflexivity|].
      unfold counter. now rewrite He.
    + erewrite step_read_fail; [cbn; eauto|].
      unfold GetVal, Get. rewrite He. simpl. now rewrite Hv.
  - erewrite step_read_fail; [cbn; eauto|].
    unfold GetVal, Get. now rewrite He.
Qed.

(** Wherever a caller stands, three uninterrupted store calls end its
    call: a lost compare-and-set is followed by a read and a
    compare-and-set that goes through. *)
Lemma run_alloc_uninterrupted s pc :
  (∀ n kvp, pc = AtCompareAndSet n kvp → Key kvp = getNextAlertIDKey) →
  ∃ r, run_alloc 3 s pc = Some r.
Proof.
  intros Hkey. destruct pc as [|n|n kvp|id err].
  - rewrite run_alloc_step by discriminate.
    destruct (data s !! getNextAlertIDKey) as [e|] eqn:He.
    + rewrite (step_create_present _ _ He). apply run_from_read.
    + rewrite (step_create_absent _ He). cbn. eauto.
  - apply run_from_read.
  - rewrite run_alloc_step by discriminate.
    specialize (Hkey n kvp eq_refl).
    destruct (decide (counter s = Some (Value kvp))) as [Heq|Hne].
    + rewrite (step_cas_ok _ _ _ Hkey Heq). cbn. eauto.
    + rewrite (step_cas_conflict _ _ _ Hkey Hne). apply run_from_read.
  - cbn. eauto.
Qed.

(** More fuel does not change what a call returns. *)
Lemma run_alloc_more fuel : ∀ s pc r k,
  run_alloc fuel s pc = Some r → run_alloc (fuel + k) s pc = Some r.
Proof.
  induction fuel as [|fuel IH]; intros s pc r k Hrun.
  - destruct pc; try discriminate. simpl in *. now destruct k.
  - change (S fuel + k)%nat with (S (fuel + k)).
    destruct pc as [|n|n kvp|i e]; cbn [run_alloc] in *; try exact Hrun;
      destruct (alloc_step s _) as [s' pc']; now apply IH.
Qed.

(** A call alone on a store without counter. *)
Lemma solo_create s :
  data s !! getNextAlertIDKey = None →
  run_alloc 3 s AtCreate = Some ((write getNextAlertIDKey "1" 0 KVCreate s).1, 0, None).
Proof.
  intros Habs. rewrite run_alloc_step by discriminate.
  rewrite (step_create_absent _ Habs). reflexivity.
Qed.

(** A caller alone from the read on: the read and the compare-and-set on
    the bytes read. *)
Lemma solo_read s n e v :
  data s !! getNextAlertIDKey = Some e →
  json_unmarshal_int (eValue e) n = Some v →
  run_alloc 2 s (AtGetVal n)
  = Some ((write getNextAlertIDKey (FormatInt (int64_wrap (v + 1))) 0 KVSet s).1, v, None).
Proof.
  intros He Hv. rewrite run_alloc_step by discriminate.
  rewrite (step_read_ok _ _ _ _ He Hv). cbn [fst snd].
  rewrite run_alloc_step by discriminate.
  rewrite step_cas_ok; [reflexivity|reflexivity|].
  unfold counter. now rewrite He.
Qed.

Lemma solo_read_fail s n e :
  data s !! getNextAlertIDKey = Some e →
  json_unmarshal_int (eValue e) n = None →
  run_alloc 2 s (AtGetVal n) = Some (s, -1, Some ErrNotInitialized).
Proof.
  intros He Hv. rewrite run_alloc_step by discriminate.
  rewrite (step_read_fail s n KvErrUnmarshal); [reflexivity|].
  unfold GetVal, Get. rewrite He. simpl. now rewrite Hv.
Qed.

(** C1. What a call of [getNextIDFromKVDB] returns and stores. Running
    alone: when the counter key is absent the create of value 1 succeeds
    and the call returns 0; when the key exists and its bytes decode to
    [v], the call returns [v] and has replaced these bytes by [v+1]; when
    the key exists and its bytes do not decode, the call returns -1 with
    the not-initialized error and the store is as it was. Step by step, for
    callers that interleave: the create fails on an existing key and the
    loop is entered; in the loop a failed read ends the call with -1 and
    the not-initialized error, a successful read is followed by a
    compare-and-set that stores read+1 and succeeds exactly when the stored
    bytes are still the bytes read, giving the value read as identifier; on
    a conflict the loop reads again, and a caller whose compare-and-set
    lost returns, once alone, the value it then reads. The loop ends as
    soon as the caller gets three store calls in a row. *)
Theorem getNextIDFromKVDB_steps (s : Store) :
  (data s !! getNextAlertIDKey = None →
     (∃ s', alloc_step s AtCreate = (s', Returned 0 None)
            ∧ counter s' = Some "1")
     ∧ ∀ fuel, getNextIDFromKVDB (3 + fuel) s
               = Some ((write getNextAlertIDKey "1" 0 KVCreate s).1, 0, None))
  ∧ (is_Some (data s !! getNextAlertIDKey) →
     alloc_step s AtCreate = (s, AtGetVal 0))
  ∧ (∀ e v, data s !! getNextAlertIDKey = Some e →
     json_unmarshal_int (eValue e) 0 = Some v →
     ∀ fuel, getNextIDFromKVDB (3 + fuel) s
             = Some ((write getNextAlertIDKey (FormatInt (int64_wrap (v + 1))) 0 KVSet s).1,
                     v, None))
  ∧ (∀ e, data s !! getNextAlertIDKey = Some e →
     json_unmarshal_int (eValue e) 0 = None →
     ∀ fuel, getNextIDFromKVDB (3 + fuel) s = Some (s, -1, Some ErrNotInitialized))
  ∧ (∀ n e, GetVal (λ b, json_unmarshal_int b n) getNextAlertIDKey s = Fail e →
     alloc_step s (AtGetVal n) = (s, Returned (-1) (Some ErrNotInitialized)))
  ∧ (∀ n e v, data s !! getNextAlertIDKey = Some e →
     json_unmarshal_int (eValue e) n = Some v →
     alloc_step s (AtGetVal n)
     = (s, AtCompareAndSet v (pair_of getNextAlertIDKey e KVGet)))
  ∧ (∀ n kvp, Key kvp = getNextAlertIDKey → counter s = Some (Value kvp) →
     ∃ s', alloc_step s (AtCompareAndSet n kvp) = (s', Returned n None)
           ∧ counter s' = Some (FormatInt (int64_wrap (n + 1))))
  ∧ (∀ n kvp, Key kvp = getNextAlertIDKey → counter s ≠ Some (Value kvp) →
     alloc_step s (AtCompareAndSet n kvp) = (s, AtGetVal n))
  ∧ (∀ n kvp e w, Key kvp = getNextAlertIDKey →
     data s !! getNextAlertIDKey = Some e → eValue e ≠ Value kvp →
     json_unmarshal_int (eValue e) n = Some w →
     run_alloc 3 s (AtCompareAndSet n kvp)
     = Some ((write getNextAlertIDKey (FormatInt (int64_wrap (w + 1))) 0 KVSet s).1,
             w, None))
  ∧ (∀ pc, (∀ n kvp, pc = AtCompareAndSet n kvp → Key kvp = getNextAlertIDKey) →
     ∃ r, run_alloc 3 s pc = Some r).
Proof.
  split; [|split; [|split; [|split; [|split; [|split; [|split; [|split; [|split]]]]]]]].
  - intros Habs. split.
    + eexists. split; [exact (step_create_absent _ Habs)|]. apply counter_write.
    + intros fuel. apply run_alloc_more. now apply solo_create.
  - intros [e He]. exact (step_create_present _ _ He).
  - intros e v He Hv fuel. apply run_alloc_more. unfold getNextIDFromKVDB.
    rewrite run_alloc_step by discriminate.
    rewrite (step_create_present _ _ He). now apply (solo_read s 0 e v).
  - intros e He Hv fuel. apply run_alloc_more. unfold getNextIDFromKVDB.
    rewrite run_alloc_step by discriminate.
    rewrite (step_create_present _ _ He). now apply (solo_read_fail s 0 e).
  - intros n e. apply step_read_fail.
  - intros n e v. apply step_read_ok.
  - intros n kvp Hk Hc. eexists. split; [exact (step_cas_ok _ _ _ Hk Hc)|].
    apply counter_write.
  - intros n kvp. apply step_cas_conflict.
  - intros n kvp e w Hk He Hne Hw. rewrite run_alloc_step by discriminate.
    rewrite (step_cas_conflict _ _ _ Hk).
    + now apply (solo_read s n e w).
    + unfold counter. rewrite He. simpl. congruence.
  - apply run_alloc_uninterrupted.
Qed.

(** The allocator on the empty store, on a store that holds two alerts, on
    a counter written with white space, on a counter that is no number,
    and after a lost compare-and-set. *)
Lemma getNextIDFromKVDB_steps_witness :
  getNextIDFromKVDB 3 Kv.empty
  = Some ((write getNextAlertIDKey "1" 0 KVCreate Kv.empty).1, 0, None)
  ∧ getNextIDFromKVDB 3 Sample.raised_store
    = Some ((write getNextAlertIDKey "3" 0 KVSet Sample.raised_store).1, 2, None)
  ∧ getNextIDFromKVDB 3 Scenario.spaced_counter
    = Some ((write getNextAlertIDKey "6" 0 KVSet Scenario.spaced_counter).1, 5, None)
  ∧ getNextIDFromKVDB 3 Scenario.corrupt_counter
    = Some (Scenario.corrupt_counter, -1, Some ErrNotInitialized)
  ∧ run_alloc 3 Sample.raised_store
      (AtCompareAndSet 1 {| Key := getNextAlertIDKey; Value := "1"; Action := KVGet;
                            TTL := 0; ModifiedIndex := 1 |})
    = Some ((write getNextAlertIDKey "3" 0 KVSet Sample.raised_store).1, 2, None).
Proof.
  destruct (getNextIDFromKVDB_steps Kv.empty) as (Hempty & _).
  destruct (getNextIDFromKVDB_steps Sample.raised_store)
    as (_ & _ & Hraised & _ & _ & _ & _ & _ & Hretry & _).
  destruct (getNextIDFromKVDB_steps Scenario.spaced_counter) as (_ & _ & Hspaced & _).
  destruct (getNextIDFromKVDB_steps Scenario.corrupt_counter) as (_ & _ & _ & Hcorrupt & _).
  split; [|split; [|split; [|split]]].
  - destruct (Hempty eq_refl) as (_ & Hrun). exact (Hrun 0%nat).
  - exact (Hraised {| eValue := "2"; eTTL := 0; eModified := 4 |} 2
             ltac:(vm_compute; reflexivity) ltac:(vm_compute; reflexivity) 0%nat).
  - exact (Hspaced {| eValue := " 5"; eTTL := 0; eModified := 1 |} 5
             ltac:(vm_compute; reflexivity) ltac:(vm_compute; reflexivity) 0%nat).
  - exact (Hcorrupt {| eValue := "abc"; eTTL := 0; eModified := 1 |}
             ltac:(vm_compute; reflexivity) ltac:(vm_compute; reflexivity) 0%nat).
  - apply (Hretry 1 _ {| eValue := "2"; eTTL := 0; eModified := 4 |} 2).
    + reflexivity.
    + vm_compute. reflexivity.
    + discriminate.
    + vm_compute. reflexivity.
Defined.

(** *** Concurrent callers *)

Lemma omap_insert_same {A B} (f : A → option B) (l : list A) i x y :
  l !! i = Some x → f x = f y → omap f (<[i := y]> l) = omap f l.
Proof.
  revert i. induction l as [|a l IH]; intros [|i] Hi Hf; simpl in *; try discriminate.
  - injection Hi as ->. now rewrite Hf.
  - destruct (f a); [f_equal|]; apply (IH i Hi Hf).
Qed.

Lemma omap_insert_new {A B} (f : A → option B) (l : list A) i x y b :
  l !! i = Some x → f x = None → f y = Some b →
  omap f (<[i := y]> l) ≡ₚ b :: omap f l.
Proof.
  revert i. induction l as [|a l IH]; intros [|i] Hi Hx Hy; simpl in *; try discriminate.
  - injection Hi as ->. now rewrite Hx, Hy.
  - specialize (IH i Hi Hx Hy). destruct (f a) as [b0|]; [|exact IH].
    etrans; [apply Permutation_skip, IH|apply Permutation_swap].
Qed.

Lemma nth_id_0 v0 : is_int64 v0 → nth_id v0 0 = v0.
Proof. intros H. unfold nth_id. rewrite Z.add_0_r. now apply int64_wrap_id. Qed.

Lemma nth_id_S v0 m : int64_wrap (nth_id v0 m + 1) = nth_id v0 (S m).
Proof.
  unfold nth_id. rewrite int64_wrap_succ. f_equal. lia.
Qed.

Lemma nth_id_range v0 m : is_int64 (nth_id v0 m).
Proof. apply int64_wrap_range. Qed.

Lemma ids_snoc v0 m ids :
  ids ≡ₚ map (nth_id v0) (seq 0 m) →
  nth_id v0 m :: ids ≡ₚ map (nth_id v0) (seq 0 (S m)).
Proof.
  intros H. rewrite seq_S, map_app. simpl. rewrite H.
  apply Permutation_cons_append.
Qed.

Lemma counter_None s : counter s = None ↔ data s !! getNextAlertIDKey = None.
Proof. unfold counter. destruct (data s !! getNextAlertIDKey); simpl; split; congruence. Qed.

(** Every action of a schedule keeps the invariant. *)
Lemma alloc_inv_step v0 a st :
  leaves_counter a → alloc_inv v0 st → alloc_inv v0 (sys_step a st).
Proof.
  destruct st as [s ts]. intros Ha (m & Hids & Hc & Hts).
  unfold allocated_ids in Hids. simpl in Hids, Hc, Hts.
  destruct a as [i|f]; simpl.
  2:{ exists m. unfold allocated_ids, counter in *. simpl in *.
      rewrite (Ha s). auto. }
  destruct (ts !! i) as [pc|] eqn:Hi; [|exists m; auto].
  assert (Hpc : thread_ok pc) by (eapply Forall_lookup_1; eauto).
  destruct pc as [|n|n kvp|id err].
  - (* the create *)
    destruct (data s !! getNextAlertIDKey) as [e|] eqn:He.
    + rewrite (step_create_present _ _ He). exists m. unfold allocated_ids. simpl.
      rewrite (omap_insert_same _ _ _ _ _ Hi) by reflexivity.
      repeat split; auto. apply Forall_insert; simpl; auto.
    + rewrite (step_create_absent _ He).
      destruct Hc as [Hc|(_ & -> & ->)].
      { apply counter_None in He. congruence. }
      exists 1%nat. unfold allocated_ids. simpl.
      rewrite (omap_insert_new _ _ _ _ _ 0 Hi) by reflexivity.
      repeat split.
      * simpl in Hids. rewrite Hids. reflexivity.
      * left. unfold counter. simpl. rewrite lookup_insert_eq. reflexivity.
      * apply Forall_insert; simpl; auto.
  - (* the read *)
    assert (Hkeep : ∀ pc', allocated pc' = None → thread_ok pc' →
              alloc_inv v0 (s, <[i := pc']> ts)).
    { intros pc' Hn Hok. exists m. unfold allocated_ids. simpl.
      rewrite (omap_insert_same _ _ _ _ _ Hi) by (symmetry; exact Hn).
      repeat split; auto. apply Forall_insert; auto. }
    destruct (data s !! getNextAlertIDKey) as [e|] eqn:He.
    + destruct Hc as [Hc|(Hc & _)]; [|apply counter_None in Hc; congruence].
      unfold counter in Hc. rewrite He in Hc. injection Hc as Hc.
      rewrite (step_read_ok s n e (nth_id v0 m) He).
      * apply Hkeep; [reflexivity|]. simpl.
        split; [reflexivity|]. split; [apply nth_id_range|exact Hc].
      * rewrite Hc. apply json_unmarshal_int_FormatInt, nth_id_range.
    + erewrite step_read_fail.
      * apply Hkeep; [reflexivity|exact I].
      * unfold GetVal, Get. now rewrite He.
  - (* the compare-and-set *)
    destruct Hpc as (Hk & Hn & Hv).
    destruct (decide (counter s = Some (Value kvp))) as [Heq|Hne].
    + rewrite (step_cas_ok _ _ _ Hk Heq).
      destruct Hc as [Hc|(Hc & _)]; [|congruence].
      assert (n = nth_id v0 m) as ->.
      { apply FormatInt_inj. congruence. }
      exists (S m). unfold allocated_ids. simpl.
      rewrite (omap_insert_new _ _ _ _ _ (nth_id v0 m) Hi) by reflexivity.
      repeat split.
      * now apply ids_snoc.
      * left. unfold counter. simpl. rewrite lookup_insert_eq. simpl.
        now rewrite nth_id_S.
      * apply Forall_insert; simpl; auto.
    + rewrite (step_cas_conflict _ _ _ Hk Hne). exists m. unfold allocated_ids. simpl.
      rewrite (omap_insert_same _ _ _ _ _ Hi) by reflexivity.
      repeat split; auto. apply Forall_insert; simpl; auto.
  - (* returned already *)
    simpl. rewrite list_insert_id by exact Hi. exists m. auto.
Qed.

Lemma alloc_inv_run v0 schedule st :
  Forall leaves_counter schedule → alloc_inv v0 st →
  alloc_inv v0 (sys_run schedule st).
Proof.
  intros Hs. revert st. induction Hs as [|a l Ha _ IH]; intros st Hinv; [exact Hinv|].
  simpl. apply IH. now apply alloc_inv_step.
Qed.

Lemma sys_step_length a st : length (sys_step a st).2 = length st.2.
Proof.
  destruct st as [s ts]. destruct a as [i|f]; simpl; [|reflexivity].
  destruct (ts !! i); [|reflexivity].
  destruct (alloc_step s a) as [s' pc']. simpl. apply length_insert.
Qed.

Lemma sys_run_length schedule st : length (sys_run schedule st).2 = length st.2.
Proof.
  revert st. induction schedule as [|a l IH]; intros st; [reflexivity|].
  simpl. rewrite IH. apply sys_step_length.
Qed.

Lemma alloc_inv_initial v0 s n :
  counter_starts_at v0 s → alloc_inv v0 (s, replicate n AtCreate).
Proof.
  intros H. exists 0%nat. unfold allocated_ids. simpl. repeat split.
  - induction n; simpl; auto.
  - destruct H as [[Hc ->]|[Hv Hc]]; [right; auto|left].
    rewrite Hc. now rewrite nth_id_0.
  - apply Forall_replicate. exact I.
Qed.

Lemma omap_length {A B} (f : A → option B) (l : list A) :
  (length (omap f l) <= length l)%nat.
Proof.
  induction l as [|a l IH]; simpl; [lia|].
  change (list_omap A B f l) with (omap f l).
  destruct (f a); simpl; lia.
Qed.

Lemma NoDup_first_ids v0 m :
  Z.of_nat m <= 2 ^ 64 → NoDup (map (nth_id v0) (seq 0 m)).
Proof.
  intros Hm. apply (NoDup_fmap_2_strong (nth_id v0)); [|apply NoDup_seq].
  intros i j Hi%elem_of_seq Hj%elem_of_seq Heq.
  apply Nat2Z.inj. apply (int64_wrap_inj v0); [lia|lia|exact Heq].
Qed.

(** The record [raise] creates lives under a partition key, never under the
    counter key. *)
Lemma record_key_not_counter r id :
  getResourceKey r +:+ FormatInt id ≠ getNextAlertIDKey.
Proof. destruct r; cbn; intros [=]. Qed.

Lemma create_record_leaves_counter r id v ttl :
  leaves_counter (create_record r id v ttl).
Proof.
  intros s. unfold Create.
  destruct (data s !! (getResourceKey r +:+ FormatInt id)); [reflexivity|].
  simpl. apply lookup_insert_ne, record_key_not_counter.
Qed.

(** C2. Concurrent allocations on one cluster's store, in any interleaving
    of their store calls and of store calls made elsewhere, hand out
    pairwise distinct identifiers: the identifiers returned so far are the
    first ones counted from the counter's starting value, each once. The
    callers are fewer than the 64-bit counter has values, and the counter
    key is absent or holds a number the allocator wrote. [Raise] stamps the
    alert with the identifier its allocation returned. *)
Theorem concurrent_ids_distinct (n : nat) (v0 : Z) (s : Store) (schedule : list action) :
  Z.of_nat n <= 2 ^ 64 →
  counter_starts_at v0 s →
  Forall leaves_counter schedule →
  NoDup (allocated_ids (sys_run schedule (s, replicate n AtCreate)))
  ∧ ∃ m : nat, allocated_ids (sys_run schedule (s, replicate n AtCreate))
               ≡ₚ map (nth_id v0) (seq 0 m).
Proof.
  intros Hn Hs Hsched.
  pose proof (alloc_inv_run v0 schedule _ Hsched (alloc_inv_initial v0 s n Hs))
    as (m & Hids & _ & _).
  split; [|eauto].
  rewrite Hids. apply NoDup_first_ids.
  assert (Hm : m = length (allocated_ids (sys_run schedule (s, replicate n AtCreate)))).
  { rewrite Hids. now rewrite length_map, length_seq. }
  pose proof (omap_length allocated (sys_run schedule (s, replicate n AtCreate)).2) as Hle.
  rewrite sys_run_length in Hle. simpl in Hle. rewrite length_replicate in Hle.
  unfold allocated_ids in Hm. lia.
Qed.

Example contention_retry :
  (sys_run (take 8 Sample.contended_schedule) (Kv.empty, replicate 3 AtCreate)).2 !! 1%nat
  = Some (AtGetVal 1)
  ∧ allocated_ids (sys_run Sample.contended_schedule (Kv.empty, replicate 3 AtCreate))
    = [0; 2; 1].
Proof. split; vm_compute; reflexivity. Qed.

Lemma concurrent_ids_distinct_witness :
  NoDup (allocated_ids (sys_run Sample.contended_schedule (Kv.empty, replicate 3 AtCreate)))
  ∧ ∃ m : nat, allocated_ids (sys_run Sample.contended_schedule (Kv.empty, replicate 3 AtCreate))
               ≡ₚ map (nth_id 0) (seq 0 m).
Proof.
  apply (concurrent_ids_distinct 3 0 Kv.empty Sample.contended_schedule).
  - rewrite two64. lia.
  - left. split; reflexivity.
  - repeat (constructor; [first [exact I|apply create_record_leaves_counter]|]).
    constructor.
Defined.

End AllocSpec.

(** ** The alert store *)
Module AlertSpec.
Import Go Kv Alert GoFacts.

Section WithCodec.
Context `{!AlertCodec}.

Lemma raise_none fuel now a s :
  Resource a = RESOURCE_TYPE_NONE →
  raise fuel now a s = Some (s, a, Some ErrResourceNotFound).
Proof. intros Hnone. unfold raise. now rewrite decide_True. Qed.

(** C4 (as the code has it). For an alert whose resource type is [None],
    [raise] fails with resource-not-found before it allocates an identifier
    or writes anything, and so does [Raise] when no subscription is
    registered for the alert's type, leaving the store unchanged. The
    sentinel check follows the subscription lookup: subscribed alerts are
    raised first, and when they all succeed [Raise] fails with
    resource-not-found on the store they left. *)
Theorem Raise_none_resource (fuel : nat) (now : Z) (a : Alert) (s : Store) :
  Resource a = RESOURCE_TYPE_NONE →
  raise fuel now a s = Some (s, a, Some ErrResourceNotFound)
  ∧ (GetVal unmarshalAlerts (getSubscriptionsKey (AlertType a)) s = Fail KvErrNotFound →
     Raise (S fuel) now a s = Some (s, a, Some ErrResourceNotFound))
  ∧ (∀ kvp subscriptions s',
       GetVal unmarshalAlerts (getSubscriptionsKey (AlertType a)) s
       = Ok (kvp, subscriptions) →
       raise_each (Raise fuel now) subscriptions s = Some (s', None) →
       Raise (S fuel) now a s = Some (s', a, Some ErrResourceNotFound)).
Proof.
  intros Hnone. split; [now apply raise_none|]. split.
  - intros Hget. cbn [Raise]. rewrite Hget.
    rewrite decide_False by (intros Hne; now apply Hne).
    now apply raise_none.
  - intros kvp subscriptions s' Hget Heach. cbn [Raise]. rewrite Hget, Heach.
    now apply raise_none.
Qed.

Lemma stored_alert_lookup r id s :
  stored_alert r id s
  = (λ e, (unmarshalAlert (eValue e), eTTL e))
    <$> data s !! (getResourceKey r +:+ FormatInt id).
Proof. reflexivity. Qed.

(** C8. [Clear] with the [None] resource type fails with
    resource-not-found; on an absent record it fails with the store's
    not-found; on an existing record it succeeds and the record is written
    back by [Update] with [Cleared] set and the given TTL, every other key
    being left alone. Clearing the cleared record again succeeds and leaves
    it cleared. *)
Theorem clear_sets_cleared (r : ResourceType) (id ttl : Z) (s : Store) :
  (r = RESOURCE_TYPE_NONE → clear r id ttl s = (s, Some ErrResourceNotFound))
  ∧ (r ≠ RESOURCE_TYPE_NONE → stored_alert r id s = None →
     clear r id ttl s = (s, Some KvErrNotFound))
  ∧ (r ≠ RESOURCE_TYPE_NONE → ∀ a old_ttl,
     stored_alert r id s = Some (Some a, old_ttl) →
     ∃ s', clear r id ttl s = (s', None)
       ∧ data s' !! (getResourceKey r +:+ FormatInt id)
         = Some {| eValue := marshalAlert (set_Cleared a); eTTL := ttl;
                   eModified := index s + 1 |}
       ∧ Cleared (set_Cleared a) = true
       ∧ (Cleared a = true → set_Cleared a = a)
       ∧ (∀ k, k ≠ getResourceKey r +:+ FormatInt id → data s' !! k = data s !! k)
       ∧ (unmarshalAlert (marshalAlert (set_Cleared a)) = Some (set_Cleared a) →
          ∀ ttl', ∃ s'', clear r id ttl' s' = (s'', None)
            ∧ stored_alert r id s'' = Some (Some (set_Cleared a), ttl'))).
Proof.
  split; [|split].
  - intros ->. reflexivity.
  - intros Hr Habs. unfold clear. rewrite decide_False by exact Hr.
    rewrite stored_alert_lookup in Habs. unfold GetVal, Get.
    destruct (data s !! _); [discriminate|reflexivity].
  - intros Hr a old_ttl Hst. rewrite stored_alert_lookup in Hst.
    destruct (data s !! (getResourceKey r +:+ FormatInt id)) as [e|] eqn:He;
      [|discriminate].
    simpl in Hst. injection Hst as Ha _.
    eexists. split; [|split; [|split; [|split; [|split]]]].
    + unfold clear. rewrite decide_False by exact Hr.
      unfold GetVal, Get. rewrite He. simpl. rewrite Ha.
      unfold Update. rewrite He. reflexivity.
    + simpl. now rewrite lookup_insert_eq.
    + reflexivity.
    + destruct a. simpl. now intros ->.
    + intros k Hk. simpl. now rewrite lookup_insert_ne.
    + intros Hround ttl'. eexists. split.
      * unfold clear. rewrite decide_False by exact Hr.
        unfold GetVal, Get. simpl. rewrite lookup_insert_eq. simpl.
        rewrite Hround. unfold Update. simpl. rewrite lookup_insert_eq. reflexivity.
      * rewrite stored_alert_lookup. simpl. rewrite lookup_insert_eq. simpl.
        change (set_Cleared (set_Cleared a)) with (set_Cleared a).
        now rewrite Hround.
Qed.

Lemma append_partition_app l r kv :
  append_partition l (getResourceSpecificAlerts r kv) = (l ++ partition_alerts r kv)%list.
Proof.
  unfold append_partition, partition_alerts.
  destruct (getResourceSpecificAlerts r kv); [reflexivity|].
  now rewrite app_nil_r.
Qed.

Lemma getAllAlerts_union kv :
  getAllAlerts kv
  = (union_alerts kv,
     if decide (union_alerts kv = []) then Some (Errorf "No alert raised yet") else None).
Proof.
  unfold getAllAlerts. rewrite !append_partition_app. simpl.
  rewrite <- !app_assoc. fold (union_alerts kv).
  destruct (union_alerts kv) as [|a l]; reflexivity.
Qed.



(** A nil element comes from a stored [null] only. *)
Lemma decode_all_nil kvp : ∀ l,
  decode_all kvp = Ok l → In None l → ∃ v, In v kvp ∧ json_null (Value v) = true.
Proof.
  induction kvp as [|v kvp IH]; intros l Hdec Hin; simpl in Hdec.
  - injection Hdec as <-. destruct Hin.
  - unfold unmarshalAlertPtr in Hdec.
    destruct (json_null (Value v)) eqn:Hnull.
    + exists v. split; [now left|exact Hnull].
    + destruct (unmarshalAlert (Value v)) as [a|]; simpl in Hdec; [|discriminate].
      destruct (decode_all kvp) as [l'|] eqn:Hrest; [|discriminate].
      injection Hdec as <-. destruct Hin as [Hin|Hin]; [discriminate|].
      destruct (IH l' eq_refl Hin) as (v' & Hv' & Hn). exists v'. split; [now right|exact Hn].
Qed.

Lemma Enumerate_stored pre s kvp v :
  Enumerate pre s = Ok kvp → In v kvp →
  ∃ k e, data s !! k = Some e ∧ Value v = eValue e.
Proof.
  unfold Enumerate. intros [= <-] Hin.
  apply list_elem_of_In, list_elem_of_omap in Hin as ([k e] & Hke & Hf).
  apply elem_of_map_to_list in Hke.
  destruct (String.prefix pre k); [|discriminate]. injection Hf as <-.
  exists k, e. split; [exact Hke|reflexivity].
Qed.

Lemma partition_alerts_nil r kv :
  In None (partition_alerts r kv) →
  ∃ k e, data kv !! k = Some e ∧ json_null (eValue e) = true.
Proof.
  unfold partition_alerts, getResourceSpecificAlerts. intros Hin.
  destruct (Enumerate (getResourceKey r) kv) as [kvp|] eqn:Hen; [|destruct Hin].
  destruct (decode_all kvp) as [l|] eqn:Hdec; [|destruct Hin].
  destruct (decode_all_nil kvp l Hdec Hin) as (v & Hv & Hnull).
  destruct (Enumerate_stored _ _ _ _ Hen Hv) as (k & e & Hke & Hval).
  exists k, e. split; [exact Hke|]. now rewrite <- Hval.
Qed.

(** A list of pointers none of which is nil. *)
Lemma no_nil_alerts (l : list (option Alert)) :
  ¬ In None l → ∃ alerts, l = map Some alerts.
Proof.
  induction l as [|[v|] l IH]; intros Hno.
  - now exists [].
  - destruct IH as [alerts ->]; [intros Hin; apply Hno; now right|].
    now exists (v :: alerts).
  - exfalso. apply Hno. now left.
Qed.

Lemma enumerated_no_nil kv r :
  (∀ k e, data kv !! k = Some e → json_null (eValue e) = false) →
  ∃ alerts,
    (if decide (r = RESOURCE_TYPE_NONE) then union_alerts kv else partition_alerts r kv)
    = map Some alerts.
Proof.
  intros Hstore. apply no_nil_alerts. intros Hin.
  assert (Hpart : ∃ r', In None (partition_alerts r' kv)).
  { destruct (decide (r = RESOURCE_TYPE_NONE)); [|eauto].
    unfold union_alerts in Hin. rewrite !in_app_iff in Hin.
    destruct Hin as [?|[?|[?|?]]]; eauto. }
  destruct Hpart as [r' Hr'].
  destruct (partition_alerts_nil r' kv Hr') as (k & e & Hke & Hnull).
  rewrite (Hstore k e Hke) in Hnull. discriminate.
Qed.

Lemma enumerate_by_severity kv filter :
  enumerate kv filter
  = match by_severity filter
            (if decide (Resource filter = RESOURCE_TYPE_NONE) then union_alerts kv
             else partition_alerts (Resource filter) kv) with
    | Ret allAlerts => Ret (allAlerts, enumeration_error (Resource filter) kv)
    | Panic why => Panic why
    end.
Proof.
  unfold enumerate, enumeration_error.
  destruct (decide (Resource filter = RESOURCE_TYPE_NONE)) as [Hr|Hr].
  - rewrite decide_False by (intros Hne; now apply Hne).
    rewrite getAllAlerts_union. reflexivity.
  - rewrite decide_True by exact Hr. unfold partition_alerts.
    destruct (getResourceSpecificAlerts (Resource filter) kv); [reflexivity|].
    unfold by_severity. destruct (decide (Severity filter ≠ 0)); reflexivity.
Qed.


End WithCodec.

Import Json.

(** C4 fails as stated: with a child subscribed to the alert's type,
    [Raise] of an alert without resource type raises the child (the node
    partition gains record 0, the counter is created) before it fails with
    resource-not-found. *)
Lemma Raise_none_raises_subscribed :
  Resource Sample.none_alert = RESOURCE_TYPE_NONE
  ∧ ∃ s', Raise 4 100 Sample.none_alert Sample.subscribed_store
          = Some (s', Sample.none_alert, Some ErrResourceNotFound)
      ∧ s' ≠ Sample.subscribed_store
      ∧ stored_alert RESOURCE_TYPE_NODE 0 Sample.subscribed_store = None
      ∧ stored_alert RESOURCE_TYPE_NODE 0 s'
        = Some (Some {| Id := 0; Severity := 1; AlertType := 8; Timestamp := 100;
                        Resource := RESOURCE_TYPE_NODE; Cleared := false; Ttl := 0 |}, 0).
Proof.
  split; [reflexivity|]. eexists. split; [vm_compute; reflexivity|].
  split; [|split; vm_compute; reflexivity].
  intros Heq. apply (f_equal index) in Heq. vm_compute in Heq. discriminate Heq.
Qed.

Lemma Raise_none_resource_witness :
  raise 3 100 Sample.none_alert Kv.empty
  = Some (Kv.empty, Sample.none_alert, Some ErrResourceNotFound)
  ∧ (GetVal unmarshalAlerts (getSubscriptionsKey (AlertType Sample.none_alert)) Kv.empty
     = Fail KvErrNotFound →
     Raise 4 100 Sample.none_alert Kv.empty
     = Some (Kv.empty, Sample.none_alert, Some ErrResourceNotFound))
  ∧ (∀ kvp subscriptions s',
       GetVal unmarshalAlerts (getSubscriptionsKey (AlertType Sample.none_alert)) Kv.empty
       = Ok (kvp, subscriptions) →
       raise_each (Raise 3 100) subscriptions Kv.empty = Some (s', None) →
       Raise 4 100 Sample.none_alert Kv.empty
       = Some (s', Sample.none_alert, Some ErrResourceNotFound)).
Proof.
  apply (Raise_none_resource 3 100 Sample.none_alert Kv.empty). reflexivity.
Defined.

(** The scenario of the spec: after raising an alert of type 7 with
    [node_child] subscribed, the store holds both records. *)
Example raise_with_subscription :
  enumerate Sample.raised_store zeroAlert
  = Ret ([ Some {| Id := 0; Severity := 1; AlertType := 8; Timestamp := 100;
                   Resource := RESOURCE_TYPE_NODE; Cleared := false; Ttl := 0 |};
           Some {| Id := 1; Severity := 3; AlertType := 7; Timestamp := 100;
                   Resource := RESOURCE_TYPE_VOLUME; Cleared := false; Ttl := 0 |} ], None).
Proof. vm_compute. reflexivity. Qed.

Lemma clear_sets_cleared_witness :
  ∃ s' s'',
    clear RESOURCE_TYPE_VOLUME 1 60 Sample.raised_store = (s', None)
    ∧ clear RESOURCE_TYPE_VOLUME 1 30 s' = (s'', None)
    ∧ stored_alert RESOURCE_TYPE_VOLUME 1 s''
      = Some (Some {| Id := 1; Severity := 3; AlertType := 7; Timestamp := 100;
                      Resource := RESOURCE_TYPE_VOLUME; Cleared := true; Ttl := 0 |}, 30).
Proof.
  destruct (clear_sets_cleared RESOURCE_TYPE_VOLUME 1 60 Sample.raised_store)
    as (_ & _ & Hc).
  destruct (Hc ltac:(discriminate)
              {| Id := 1; Severity := 3; AlertType := 7; Timestamp := 100;
                 Resource := RESOURCE_TYPE_VOLUME; Cleared := false; Ttl := 0 |} 0
              ltac:(vm_compute; reflexivity))
    as (s' & H1 & _ & _ & _ & _ & H5).
  destruct (H5 ltac:(vm_compute; reflexivity) 30) as (s'' & H6 & H7).
  exists s', s''. repeat split; assumption.
Defined.



(** A partition that cannot be read is skipped: a malformed node record
    hides the node partition, the volume alert is still enumerated. *)
Example enumerate_best_effort :
  let kv := (Put "alert/node/9" "garbage" 0 Sample.raised_store).1 in
  getResourceSpecificAlerts RESOURCE_TYPE_NODE kv = Fail ErrJson
  ∧ enumerate kv zeroAlert
    = Ret ([ Some {| Id := 1; Severity := 3; AlertType := 7; Timestamp := 100;
                     Resource := RESOURCE_TYPE_VOLUME; Cleared := false; Ttl := 0 |} ], None).
Proof. split; vm_compute; reflexivity. Qed.

End AlertSpec.

(** ** The watch callback *)
Module WatchSpec.
Import Go Kv Alert GoFacts.

Section WithCodec.
Context `{!AlertCodec}.

Lemma watcher_for_Some g prefix k w :
  watcher_for g prefix = Some (k, w) ↔
  Split prefix "/" !! 1%nat = Some k ∧ watcherMap g !! k = Some w.
Proof.
  unfold watcher_for. split.
  - destruct (Split prefix "/" !! 1%nat) as [k'|]; simpl; [|discriminate].
    destruct (watcherMap g !! k') as [w'|] eqn:E; simpl; [|discriminate].
    intros [= <- <-]. auto.
  - intros [-> Hw]. simpl. now rewrite Hw.
Qed.

(** An error for a watcher past its bootstrap, with the budget not yet
    used up: the counter goes up and the tree-watch is subscribed again. *)
Lemma error_resubscribes g prefix kvp e k w :
  watcher_for g prefix = Some (k, w) → status w ≠ watchBootstrap →
  watchErrors g ≠ 5 →
  kvdbWatch prefix kvp (Some e) g
  = Ret ({| watcherMap := watcherMap g;
            watchErrors := int64_wrap (watchErrors g + 1);
            effects := effects g ++ [WatchTreeCalled k alertKey 0] |},
         Some e).
Proof.
  intros [Hk Hw]%watcher_for_Some Hst Hne. unfold kvdbWatch.
  rewrite Hk, Hw. rewrite decide_False by exact Hst.
  rewrite decide_False by exact Hne.
  unfold subscribeWatch. simpl. rewrite Hw. reflexivity.
Qed.

(** An error arriving when the counter reads 5: the registered callback is
    told once, nothing is subscribed, nothing else changes. *)
Lemma error_gives_up g prefix kvp e k w :
  watcher_for g prefix = Some (k, w) → status w ≠ watchBootstrap →
  watchErrors g = 5 →
  kvdbWatch prefix kvp (Some e) g
  = Ret ({| watcherMap := watcherMap g; watchErrors := watchErrors g;
            effects := effects g
                       ++ [CallbackInvoked k None ALERT_ACTION_TYPE_NONE prefix ""] |},
         Some e).
Proof.
  intros [Hk Hw]%watcher_for_Some Hst H5. unfold kvdbWatch.
  rewrite Hk, Hw. rewrite decide_False by exact Hst.
  rewrite decide_True by exact H5. unfold invoke. reflexivity.
Qed.

Lemma callbacks_app es es' : callbacks (es ++ es') = callbacks es ++ callbacks es'.
Proof. unfold callbacks. apply List.filter_app. Qed.

Lemma resubscriptions_app es es' :
  resubscriptions (es ++ es') = resubscriptions es ++ resubscriptions es'.
Proof. unfold resubscriptions. apply List.filter_app. Qed.

Lemma callbacks_resubscription ds : callbacks (map resubscription ds) = [].
Proof. induction ds as [|d ds IH]; simpl; auto. Qed.

Lemma resubscriptions_resubscription ds :
  resubscriptions (map resubscription ds) = map resubscription ds.
Proof. induction ds as [|d ds IH]; simpl; [reflexivity|]. now rewrite IH. Qed.

(** Steady-state errors within the budget, on any mix of clusters: every
    one is answered by one resubscription and no callback, and the one
    counter counts them all. *)
Lemma errors_within_budget ds : ∀ g,
  Forall (steady_error g) ds →
  0 <= watchErrors g → watchErrors g + Z.of_nat (length ds) <= 5 →
  deliver ds g
  = Ret ({| watcherMap := watcherMap g;
            watchErrors := watchErrors g + Z.of_nat (length ds);
            effects := effects g ++ map resubscription ds |},
         map dErr ds).
Proof.
  induction ds as [|d ds IH]; intros g Hds H0 H5.
  - simpl. rewrite Z.add_0_r, app_nil_r. now destruct g.
  - inversion Hds as [|? ? (k & w & e & He & Hw & Hst) Hrest]; subst.
    simpl in H5. cbn [deliver]. rewrite He.
    rewrite (error_resubscribes g _ _ e k w Hw Hst) by lia.
    assert (Hwrap : int64_wrap (watchErrors g + 1) = watchErrors g + 1).
    { apply int64_wrap_id. unfold is_int64, int64_min, int64_max.
      rewrite two63. lia. }
    rewrite Hwrap.
    rewrite IH; simpl; [| |lia|lia].
    + f_equal. f_equal; [|now rewrite He].
      f_equal; [lia|]. rewrite <- app_assoc. simpl. do 3 f_equal.
      unfold resubscription. apply watcher_for_Some in Hw as [-> _]. reflexivity.
    + eapply Forall_impl; [exact Hrest|].
      intros d' (k' & w' & e' & He' & Hw' & Hst'). exists k', w', e'.
      repeat split; auto.
Qed.

Lemma map_replicate {A B} (f : A → B) n x : map f (replicate n x) = replicate n (f x).
Proof. induction n; simpl; [reflexivity|]. now rewrite IHn. Qed.

Lemma steady_error_on g prefix e k w :
  watcher_for g prefix = Some (k, w) → status w ≠ watchBootstrap →
  steady_error g (error_on prefix e).
Proof. intros Hw Hst. exists k, w, e. auto. Qed.

Lemma resubscription_on g prefix e k w :
  watcher_for g prefix = Some (k, w) →
  resubscription (error_on prefix e) = WatchTreeCalled k alertKey 0.
Proof.
  intros [Hk _]%watcher_for_Some. unfold resubscription. simpl. now rewrite Hk.
Qed.

(** C3 (as the code has it). A ready watcher with the error counter at 0
    receives consecutive delivery errors: each of the first five triggers
    exactly one resubscription of the tree-watch and no callback, and
    leaves the counter at the number of errors so far; the error that
    arrives when the counter reads 5, the sixth, invokes the registered
    callback exactly once with a null alert and the no-op action tag,
    subscribes nothing, and returns the error, with the counter still 5. *)
Theorem consecutive_watch_errors (g : globals) (prefix : string) (k : string)
    (w : watcher) (e : error) (n : nat) :
  watcher_for g prefix = Some (k, w) → status w = watchReady →
  watchErrors g = 0 → (n <= 5)%nat →
  ∃ g', deliver (replicate n (error_on prefix e)) g = Ret (g', replicate n (Some e))
    ∧ watcherMap g' = watcherMap g
    ∧ watchErrors g' = Z.of_nat n
    ∧ callbacks (effects g') = callbacks (effects g)
    ∧ resubscriptions (effects g')
      = resubscriptions (effects g) ++ replicate n (WatchTreeCalled k alertKey 0)
    ∧ (n = 5%nat →
       kvdbWatch prefix None (Some e) g'
       = Ret ({| watcherMap := watcherMap g'; watchErrors := 5;
                 effects := effects g'
                   ++ [CallbackInvoked k None ALERT_ACTION_TYPE_NONE prefix ""] |},
              Some e)).
Proof.
  intros Hw Hst H0 Hn.
  assert (Hnb : status w ≠ watchBootstrap) by (rewrite Hst; discriminate).
  exists {| watcherMap := watcherMap g; watchErrors := Z.of_nat n;
            effects := effects g ++ replicate n (WatchTreeCalled k alertKey 0) |}.
  split.
  - rewrite errors_within_budget.
    + rewrite length_replicate, H0, Z.add_0_l, !map_replicate.
      rewrite (resubscription_on g prefix e k w Hw). reflexivity.
    + apply Forall_replicate. now apply (steady_error_on g prefix e k w).
    + lia.
    + rewrite length_replicate. lia.
  - simpl. repeat split.
    + rewrite callbacks_app.
      replace (callbacks (replicate n (WatchTreeCalled k alertKey 0))) with (@nil effect).
      * now rewrite app_nil_r.
      * clear. induction n; simpl; auto.
    + rewrite resubscriptions_app. f_equal. clear. induction n; simpl; [reflexivity|].
      now rewrite IHn.
    + intros ->.
      rewrite (error_gives_up _ prefix None e k w); [reflexivity| |exact Hnb|reflexivity].
      apply watcher_for_Some. apply watcher_for_Some in Hw. exact Hw.
Qed.

(** C9. The error counter is one variable for all watchers. An error for
    any cluster's watcher that has left the bootstrap state bumps it (when
    it does not read 5); a successful mutation that is not ignored resets
    it to zero, whichever cluster it is for; and five errors spread over
    any clusters use up the budget, so that the next error, on whichever
    cluster, is answered with the permanent-failure notification to that
    cluster's callback. *)
Theorem watch_errors_shared (g : globals) :
  (∀ prefix kvp e k w,
     watcher_for g prefix = Some (k, w) → status w ≠ watchBootstrap →
     watchErrors g ≠ 5 →
     ∃ g', kvdbWatch prefix kvp (Some e) g = Ret (g', Some e)
           ∧ watchErrors g' = int64_wrap (watchErrors g + 1))
  ∧ (∀ prefix kvp k w,
     watcher_for g prefix = Some (k, w) → surfaced kvp →
     ∃ g' r, kvdbWatch prefix (Some kvp) None g = Ret (g', r) ∧ watchErrors g' = 0)
  ∧ (∀ ds prefix e k w,
     watchErrors g = 0 → length ds = 5%nat → Forall (steady_error g) ds →
     watcher_for g prefix = Some (k, w) → status w ≠ watchBootstrap →
     ∃ g' g'', deliver ds g = Ret (g', map dErr ds)
       ∧ watchErrors g' = 5
       ∧ kvdbWatch prefix None (Some e) g' = Ret (g'', Some e)
       ∧ callbacks (effects g'')
         = callbacks (effects g)
           ++ [CallbackInvoked k None ALERT_ACTION_TYPE_NONE prefix ""]).
Proof.
  split; [|split].
  - intros prefix kvp e k w Hw Hst Hne. eexists. split.
    + now apply (error_resubscribes g prefix kvp e k w).
    + reflexivity.
  - intros prefix kvp k w [Hk Hw]%watcher_for_Some (Hb & Hi & Hs).
    unfold kvdbWatch. rewrite Hk, Hb, Hi, Hs. simpl. rewrite Hw.
    destruct (decide (Action kvp = KVDelete)); [simpl; eauto|].
    destruct (unmarshalAlert (Value kvp)); [|eauto].
    destruct (Action kvp); simpl; eauto.
  - intros ds prefix e k w H0 Hlen Hds Hw Hst.
    eexists. eexists. split; [|split; [|split]].
    + rewrite errors_within_budget; [reflexivity|exact Hds|lia|lia].
    + simpl. lia.
    + apply (error_gives_up _ prefix None e k w); [|exact Hst|simpl; lia].
      apply watcher_for_Some. apply watcher_for_Some in Hw. exact Hw.
    + simpl. rewrite !callbacks_app, callbacks_resubscription, app_nil_r. reflexivity.
Qed.

(** C10. An error-free mutation of a key that ends with the bootstrap
    marker sets the watcher of the mutation's cluster to ready, whatever
    its state was, and returns at once: no callback, no resubscription, the
    error counter as it was. *)
Theorem bootstrap_mutation_sets_ready (g : globals) (prefix : string) (kvp : KVPair)
    (k : string) (w : watcher) :
  watcher_for g prefix = Some (k, w) → HasSuffix (Key kvp) bootstrap = true →
  kvdbWatch prefix (Some kvp) None g
  = Ret ({| watcherMap := <[k := set_status w watchReady]> (watcherMap g);
            watchErrors := watchErrors g; effects := effects g |},
         None)
  ∧ status (set_status w watchReady) = watchReady.
Proof.
  intros [Hk Hw]%watcher_for_Some Hb. split; [|reflexivity].
  unfold kvdbWatch. now rewrite Hk, Hb, Hw.
Qed.

End WithCodec.

Import Json.

(** C3 fails as stated: after five consecutive errors for a ready watcher
    the callback has not been invoked at all; the five errors were each
    answered by a resubscription. *)
Lemma five_errors_no_callback :
  status <$> watcherMap Sample.two_clusters !! "c1" = Some watchReady
  ∧ ∃ g', deliver (replicate 5 (error_on "pwx/c1/alert/" Sample.io_error))
                  Sample.two_clusters
          = Ret (g', replicate 5 (Some Sample.io_error))
      ∧ callbacks (effects g') = []
      ∧ resubscriptions (effects g') = replicate 5 (WatchTreeCalled "c1" alertKey 0).
Proof.
  split; [vm_compute; reflexivity|].
  eexists. split; [vm_compute; reflexivity|]. split; vm_compute; reflexivity.
Qed.

(** The callback keeps no record of having given up: the sixth error
    notifies the registered callback, and so does the seventh. *)
Example errors_after_the_budget :
  ∃ g', deliver (replicate 7 (error_on "pwx/c1/alert/" Sample.io_error))
                Sample.two_clusters
        = Ret (g', replicate 7 (Some Sample.io_error))
    ∧ callbacks (effects g')
      = replicate 2 (CallbackInvoked "c1" None ALERT_ACTION_TYPE_NONE "pwx/c1/alert/" "")
    ∧ watchErrors g' = 5.
Proof.
  eexists. split; [vm_compute; reflexivity|]. split; vm_compute; reflexivity.
Qed.

Lemma consecutive_watch_errors_witness :
  ∃ g', deliver (replicate 5 (error_on "pwx/c1/alert/" Sample.io_error))
                Sample.two_clusters
        = Ret (g', replicate 5 (Some Sample.io_error))
    ∧ watcherMap g' = watcherMap Sample.two_clusters
    ∧ watchErrors g' = Z.of_nat 5
    ∧ callbacks (effects g') = callbacks (effects Sample.two_clusters)
    ∧ resubscriptions (effects g')
      = resubscriptions (effects Sample.two_clusters)
        ++ replicate 5 (WatchTreeCalled "c1" alertKey 0)
    ∧ (5%nat = 5%nat →
       kvdbWatch "pwx/c1/alert/" None (Some Sample.io_error) g'
       = Ret ({| watcherMap := watcherMap g'; watchErrors := 5;
                 effects := effects g'
                   ++ [CallbackInvoked "c1" None ALERT_ACTION_TYPE_NONE
                                       "pwx/c1/alert/" ""] |},
              Some Sample.io_error)).
Proof.
  apply (consecutive_watch_errors Sample.two_clusters "pwx/c1/alert/" "c1"
           (Sample.ready_watcher "c1") Sample.io_error 5).
  - vm_compute. reflexivity.
  - reflexivity.
  - reflexivity.
  - lia.
Defined.

Lemma watch_errors_shared_witness :
  ∃ g' g'', deliver Sample.mixed_errors Sample.two_clusters = Ret (g', map dErr Sample.mixed_errors)
    ∧ watchErrors g' = 5
    ∧ kvdbWatch "pwx/c2/alert/" None (Some Sample.io_error) g'
      = Ret (g'', Some Sample.io_error)
    ∧ callbacks (effects g'')
      = callbacks (effects Sample.two_clusters)
        ++ [CallbackInvoked "c2" None ALERT_ACTION_TYPE_NONE "pwx/c2/alert/" ""].
Proof.
  destruct (watch_errors_shared Sample.two_clusters) as (_ & _ & Hshared).
  apply (Hshared Sample.mixed_errors "pwx/c2/alert/" Sample.io_error "c2"
           (Sample.ready_watcher "c2")).
  - reflexivity.
  - reflexivity.
  - repeat constructor;
      (eexists _, _, _; split; [reflexivity|split; [vm_compute; reflexivity|discriminate]]).
  - vm_compute. reflexivity.
  - discriminate.
Defined.

Lemma bootstrap_mutation_sets_ready_witness :
  kvdbWatch "pwx/c1/alert/" (Some Sample.bootstrap_pair) None Sample.failed_watcher
  = Ret ({| watcherMap :=
              <["c1" := set_status (set_status (Sample.ready_watcher "c1") watchError)
                                   watchReady]> (watcherMap Sample.failed_watcher);
            watchErrors := watchErrors Sample.failed_watcher;
            effects := effects Sample.failed_watcher |},
         None)
  ∧ status (set_status (set_status (Sample.ready_watcher "c1") watchError) watchReady)
    = watchReady.
Proof.
  apply (bootstrap_mutation_sets_ready Sample.failed_watcher "pwx/c1/alert/" Sample.bootstrap_pair "c1").
  - vm_compute. reflexivity.
  - vm_compute. reflexivity.
Defined.

End WatchSpec.

(** ** The cluster state store *)
Module ClusterSpec.
Import Go Kv Cluster GoFacts.

Section WithDecoder.
Context {NodeEntry : Type}.
Context (unmarshalClusterInfo :
           string → @ClusterInfo NodeEntry → @ClusterInfo NodeEntry * option error).

(** C6. On a store whose cluster key is absent, or holds the empty-object
    encoding, [readClusterInfo] returns the descriptor with status [Init]
    and no node entries, and no error; nothing is decoded. *)
Theorem readClusterInfo_uninitialized (kv : Kvdb) :
  failing kv OpGet = None →
  data (store kv) !! ClusterDBKey = None
  ∨ eValue <$> data (store kv) !! ClusterDBKey = Some "{}" →
  readClusterInfo unmarshalClusterInfo kv
  = ({| Status := STATUS_INIT; NodeEntries := ∅ |}, None, [CallGet false ClusterDBKey]).
Proof.
  intros Hok Hkey. unfold Cluster.readClusterInfo, Get, Kv.Get. rewrite Hok.
  destruct (data (store kv) !! ClusterDBKey) as [e|] eqn:He.
  - destruct Hkey as [Hkey|Hkey]; [discriminate|].
    simpl in Hkey. injection Hkey as Hkey. simpl. now rewrite Hkey.
  - reflexivity.
Qed.

(** C7. [snapAndReadClusterInfo] takes the snapshot first and starts the
    collector at the snapshot's version next; a failure of either is
    returned with no state, before anything is read or decoded. When both
    succeed, the fixed key is read from the snapshot, whatever happened to
    the live store since, and handled as [readClusterInfo] handles it: a
    read failure other than a missing key is returned with no state, and
    otherwise the state carries the descriptor [readClusterInfo] gives on
    the snapshot, the snapshot, its version and the collector started at
    that version, together with the decode error if any. *)
Theorem snapAndReadClusterInfo_order (kv : Kvdb) (interference : Store → Store) :
  (∀ e, failing kv OpSnapshot = Some e →
     snapAndReadClusterInfo unmarshalClusterInfo kv interference = (None, Some e, [CallSnapshot ""]))
  ∧ (∀ e, failing kv OpSnapshot = None → failing kv OpNewUpdatesCollector = Some e →
     snapAndReadClusterInfo unmarshalClusterInfo kv interference
     = (None, Some e,
        [CallSnapshot ""; CallNewUpdatesCollector "" (index (store kv))]))
  ∧ (failing kv OpSnapshot = None → failing kv OpNewUpdatesCollector = None →
     let snap := {| store := store kv; failing := failing kv |} in
     let version := index (store kv) in
     let calls := [CallSnapshot ""; CallNewUpdatesCollector "" version;
                   CallGet true ClusterDBKey] in
     if fatal_read (Get snap ClusterDBKey).2
     then snapAndReadClusterInfo unmarshalClusterInfo kv interference = (None, (Get snap ClusterDBKey).2, calls)
     else snapAndReadClusterInfo unmarshalClusterInfo kv interference
          = (Some {| ClusterInfo_ := (readClusterInfo unmarshalClusterInfo snap).1.1; InitDb := snap;
                     Version := version;
                     Collector := {| cPrefix := ""; cStartIndex := version |} |},
             (readClusterInfo unmarshalClusterInfo snap).1.2,
             calls ++ tail (readClusterInfo unmarshalClusterInfo snap).2)).
Proof.
  split; [|split].
  - intros e He. unfold Cluster.snapAndReadClusterInfo, Snapshot. now rewrite He.
  - intros e Hs He. unfold Cluster.snapAndReadClusterInfo, Snapshot, NewUpdatesCollector.
    rewrite Hs. simpl. now rewrite He.
  - intros Hs Hc. cbv zeta.
    unfold Cluster.snapAndReadClusterInfo, Cluster.readClusterInfo, Snapshot,
      NewUpdatesCollector.
    rewrite Hs. simpl. rewrite Hc.
    destruct (Get {| store := store kv; failing := failing kv |} ClusterDBKey)
      as [clusterDB err] eqn:Hget.
    simpl. destruct (fatal_read err); [reflexivity|].
    destruct (decodeClusterDB unmarshalClusterInfo clusterDB defaultClusterInfo) as [[db derr] calls'].
    reflexivity.
Qed.

End WithDecoder.

Import Json.

Lemma readClusterInfo_uninitialized_witness :
  readClusterInfo decodeClusterInfo {| store := Kv.empty; failing := Sample.healthy |}
  = ({| Status := STATUS_INIT; NodeEntries := ∅ |}, None, [CallGet false ClusterDBKey])
  ∧ readClusterInfo decodeClusterInfo Sample.empty_object_kv
    = ({| Status := STATUS_INIT; NodeEntries := ∅ |}, None, [CallGet false ClusterDBKey]).
Proof.
  split.
  - apply (readClusterInfo_uninitialized decodeClusterInfo
             {| store := Kv.empty; failing := Sample.healthy |}).
    + reflexivity.
    + left. reflexivity.
  - apply (readClusterInfo_uninitialized decodeClusterInfo Sample.empty_object_kv).
    + reflexivity.
    + right. vm_compute. reflexivity.
Defined.

(** A present, initialized database is decoded. *)
Example readClusterInfo_initialized :
  readClusterInfo decodeClusterInfo Sample.initialized_kv
  = ({| Status := STATUS_OK; NodeEntries := ∅ |}, None,
     [CallGet false ClusterDBKey; CallUnmarshal Sample.ok_database]).
Proof. vm_compute. reflexivity. Qed.

(** The bootstrap of a node while another writer deletes the database right
    after the snapshot: the state carries the snapshotted descriptor, a
    live read afterwards sees an uninitialized cluster. A store that cannot
    take snapshots fails the bootstrap at its first call. *)
Lemma snapAndReadClusterInfo_order_witness :
  snapAndReadClusterInfo decodeClusterInfo Sample.initialized_kv Sample.wipe
  = (Some {| ClusterInfo_ := {| Status := STATUS_OK; NodeEntries := ∅ |};
             InitDb := Sample.initialized_kv; Version := 1;
             Collector := {| cPrefix := ""; cStartIndex := 1 |} |},
     None,
     [CallSnapshot ""; CallNewUpdatesCollector "" 1; CallGet true ClusterDBKey;
      CallUnmarshal Sample.ok_database])
  ∧ (readClusterInfo decodeClusterInfo
       {| store := Sample.wipe (store Sample.initialized_kv);
          failing := Sample.healthy |}).1.1
    = {| Status := STATUS_INIT; NodeEntries := ∅ |}
  ∧ snapAndReadClusterInfo decodeClusterInfo
      {| store := Kv.empty; failing := Sample.no_snapshots |} Sample.wipe
    = (None, Some Sample.io_error, [CallSnapshot ""]).
Proof.
  split; [|split].
  - destruct (snapAndReadClusterInfo_order decodeClusterInfo Sample.initialized_kv
                Sample.wipe) as (_ & _ & Hok).
    specialize (Hok eq_refl eq_refl). cbv zeta in Hok.
    change (fatal_read (Get {| store := store Sample.initialized_kv;
                               failing := failing Sample.initialized_kv |}
                            ClusterDBKey).2) with false in Hok.
    cbv iota in Hok. rewrite Hok. vm_compute. reflexivity.
  - vm_compute. reflexivity.
  - apply (snapAndReadClusterInfo_order decodeClusterInfo
             {| store := Kv.empty; failing := Sample.no_snapshots |} Sample.wipe).
    reflexivity.
Defined.

End ClusterSpec.

(** ** More on the identifier allocator *)
Module AllocMore.
Import Go Kv Alert AlertRuns GoFacts.

(** The store after the counter was set to [v]. *)
Lemma write_counter_act v act act' s :
  (write getNextAlertIDKey v 0 act s).1 = (write getNextAlertIDKey v 0 act' s).1.
Proof. reflexivity. Qed.

(** One call running alone on a store whose counter starts at [v0]. *)
Lemma alloc_once v0 s :
  counter_starts_at v0 s →
  getNextIDFromKVDB 3 s
  = Some ((write getNextAlertIDKey (FormatInt (int64_wrap (v0 + 1))) 0 KVSet s).1, v0, None).
Proof.
  intros [[Hc ->]|[Hv Hc]]; unfold getNextIDFromKVDB.
  - apply AllocSpec.counter_None in Hc.
    rewrite AllocSpec.run_alloc_step by discriminate.
    rewrite (AllocSpec.step_create_absent _ Hc). reflexivity.
  - unfold counter in Hc.
    destruct (data s !! getNextAlertIDKey) as [e|] eqn:He; [|discriminate].
    injection Hc as Hc.
    rewrite AllocSpec.run_alloc_step by discriminate.
    rewrite (AllocSpec.step_create_present _ _ He). cbn [fst snd].
    rewrite AllocSpec.run_alloc_step by discriminate.
    rewrite (AllocSpec.step_read_ok s 0 e v0 He)
      by (rewrite Hc; now apply json_unmarshal_int_FormatInt).
    cbn [fst snd]. rewrite AllocSpec.run_alloc_step by discriminate.
    rewrite AllocSpec.step_cas_ok; [reflexivity|reflexivity|].
    unfold counter. rewrite He. simpl. now rewrite Hc.
Qed.

Lemma shifted_ids v0 n :
  v0 :: map (λ k : nat, v0 + 1 + Z.of_nat k) (seq 0 n)
  = map (λ k : nat, v0 + Z.of_nat k) (seq 0 (S n)).
Proof.
  simpl. rewrite Z.add_0_r. f_equal.
  rewrite <- seq_shift, map_map. apply map_ext. intros k. lia.
Qed.

(** X1. Calls of the allocator made one after the other return strictly
    increasing, consecutive identifiers: from a counter that starts at
    [v0], [n] calls return [v0], [v0+1], ..., [v0+n-1], as long as these
    stay within the 64-bit range, and leave the counter at the next
    value. *)
Theorem sequential_ids_consecutive (n : nat) (v0 : Z) (s : Store) :
  counter_starts_at v0 s → v0 + Z.of_nat n <= int64_max + 1 →
  ∃ s', allocate_many n s = Some (s', map (λ k : nat, v0 + Z.of_nat k) (seq 0 n))
    ∧ ((0 < n)%nat → counter s' = Some (FormatInt (int64_wrap (v0 + Z.of_nat n)))).
Proof.
  revert v0 s. induction n as [|n IH]; intros v0 s Hs Hn.
  - exists s. split; [reflexivity|lia].
  - cbn [allocate_many]. rewrite (alloc_once v0 s Hs).
    set (s1 := (write getNextAlertIDKey (FormatInt (int64_wrap (v0 + 1))) 0 KVSet s).1).
    assert (Hc1 : counter s1 = Some (FormatInt (int64_wrap (v0 + 1))))
      by apply AllocSpec.counter_write.
    destruct n as [|n'].
    + exists s1. split; [simpl; now rewrite Z.add_0_r|]. intros _. exact Hc1.
    + assert (Hv : is_int64 (v0 + 1)).
      { destruct Hs as [[_ ->]|[[Hlo _] _]];
          unfold is_int64, int64_min, int64_max in *; rewrite two63 in *; lia. }
      rewrite (int64_wrap_id _ Hv) in Hc1.
      destruct (IH (v0 + 1) s1) as (s' & Hrun & Hc').
      { right. split; assumption. }
      { lia. }
      exists s'. rewrite Hrun. split.
      * f_equal. f_equal. apply shifted_ids.
      * intros _. rewrite Hc' by lia. do 3 f_equal. lia.
Qed.

Lemma sequential_ids_consecutive_witness :
  ∃ s', allocate_many 3 Kv.empty = Some (s', map (λ k : nat, 0 + Z.of_nat k) (seq 0 3))
    ∧ ((0 < 3)%nat → counter s' = Some (FormatInt (int64_wrap (0 + Z.of_nat 3)))).
Proof.
  apply (sequential_ids_consecutive 3 0 Kv.empty).
  - left. split; reflexivity.
  - unfold int64_max. rewrite two63. simpl. lia.
Defined.

(** X2. A counter that does not decode is never repaired: every call of
    the allocator returns -1 with the not-initialized error and leaves the
    store as it is, and so every [raise] of an alert with a resource type
    fails with that error without writing a record. *)
Theorem corrupt_counter_is_permanent `{!AlertCodec} (fuel : nat) (s : Store) (e : Entry)
    (now : Z) (a : Alert) :
  data s !! getNextAlertIDKey = Some e →
  (∀ cur, json_unmarshal_int (eValue e) cur = None) →
  Resource a ≠ RESOURCE_TYPE_NONE →
  getNextIDFromKVDB (S (S fuel)) s = Some (s, -1, Some ErrNotInitialized)
  ∧ raise (S (S fuel)) now a s = Some (s, a, Some ErrNotInitialized).
Proof.
  intros He Hbad Hr.
  assert (Hget : getNextIDFromKVDB (S (S fuel)) s = Some (s, -1, Some ErrNotInitialized)).
  { unfold getNextIDFromKVDB. rewrite AllocSpec.run_alloc_step by discriminate.
    rewrite (AllocSpec.step_create_present _ _ He). cbn [fst snd].
    rewrite AllocSpec.run_alloc_step by discriminate.
    rewrite (AllocSpec.step_read_fail s 0 KvErrUnmarshal).
    - destruct fuel; reflexivity.
    - unfold GetVal, Get. rewrite He. simpl. now rewrite Hbad. }
  split; [exact Hget|].
  unfold raise. rewrite decide_False by exact Hr. now rewrite Hget.
Qed.

(** A caller that is about to compare-and-set does so on the counter key. *)
Lemma alloc_step_writes s pc :
  (∀ n kvp, pc = AtCompareAndSet n kvp → Key kvp = getNextAlertIDKey) →
  (∀ n kvp, (alloc_step s pc).2 = AtCompareAndSet n kvp → Key kvp = getNextAlertIDKey)
  ∧ ((alloc_step s pc).1 = s
     ∨ ∃ v id, (alloc_step s pc).1 = (write getNextAlertIDKey v 0 KVSet s).1
               ∧ (alloc_step s pc).2 = Returned id None).
Proof.
  intros Hkey. destruct pc as [|n|n kvp|id err].
  - destruct (data s !! getNextAlertIDKey) as [e|] eqn:He.
    + rewrite (AllocSpec.step_create_present _ _ He). split; [discriminate|now left].
    + rewrite (AllocSpec.step_create_absent _ He). split; [discriminate|].
      right. eexists _, _. split; reflexivity.
  - destruct (data s !! getNextAlertIDKey) as [e|] eqn:He.
    + destruct (json_unmarshal_int (eValue e) n) as [v|] eqn:Hv.
      * rewrite (AllocSpec.step_read_ok _ _ _ _ He Hv). split; [|now left].
        intros n' kvp' [= _ <-]. reflexivity.
      * rewrite (AllocSpec.step_read_fail s n KvErrUnmarshal).
        -- split; [discriminate|now left].
        -- unfold GetVal, Get. rewrite He. simpl. now rewrite Hv.
    + rewrite (AllocSpec.step_read_fail s n KvErrNotFound).
      * split; [discriminate|now left].
      * unfold GetVal, Get. now rewrite He.
  - specialize (Hkey n kvp eq_refl).
    destruct (decide (counter s = Some (Value kvp))) as [Heq|Hne].
    + rewrite (AllocSpec.step_cas_ok _ _ _ Hkey Heq). split; [discriminate|].
      right. eexists _, _. split; reflexivity.
    + rewrite (AllocSpec.step_cas_conflict _ _ _ Hkey Hne). split; [discriminate|now left].
  - simpl. split; [discriminate|now left].
Qed.

Lemma run_alloc_writes fuel : ∀ s pc s' id err,
  (∀ n kvp, pc = AtCompareAndSet n kvp → Key kvp = getNextAlertIDKey) →
  (∀ i, pc ≠ Returned i None) →
  run_alloc fuel s pc = Some (s', id, err) →
  (s' = s ∧ err ≠ None)
  ∨ (∃ v, s' = (write getNextAlertIDKey v 0 KVSet s).1 ∧ err = None).
Proof.
  induction fuel as [|fuel IH]; intros s pc s' id err Hkey Hnot Hrun.
  - destruct pc as [|n|n kvp|i e]; try discriminate.
    injection Hrun as <- <- <-. left. split; [reflexivity|].
    destruct e; [discriminate|]. now destruct (Hnot i).
  - destruct pc as [|n|n kvp|i e].
    4:{ simpl in Hrun. injection Hrun as <- <- <-. left. split; [reflexivity|].
        destruct e; [discriminate|]. now destruct (Hnot i). }
    all: rewrite AllocSpec.run_alloc_step in Hrun by discriminate;
      destruct (alloc_step_writes s _ Hkey) as [Hkey' [Hsame|(v & i & Hw & Hret)]].
    all: try (rewrite Hw, Hret in Hrun; destruct fuel; simpl in Hrun;
              injection Hrun as <- <- <-; right; eauto).
    all: rewrite Hsame in Hrun; apply IH in Hrun; [exact Hrun|exact Hkey'|].
    + destruct (data s !! getNextAlertIDKey) as [e|] eqn:He.
      * rewrite (AllocSpec.step_create_present _ _ He). discriminate.
      * rewrite (AllocSpec.step_create_absent _ He) in Hsame. simpl in Hsame.
        apply (f_equal index) in Hsame. simpl in Hsame. lia.
    + intros i Hi. unfold alloc_step in Hi.
      destruct (GetVal _ _ s) as [[? ?]|?]; simpl in Hi; discriminate.
    + intros i Hi. specialize (Hkey n kvp eq_refl).
      destruct (decide (counter s = Some (Value kvp))) as [Heq|Hne].
      * rewrite (AllocSpec.step_cas_ok _ _ _ Hkey Heq) in Hsame. simpl in Hsame.
        apply (f_equal index) in Hsame. simpl in Hsame. lia.
      * rewrite (AllocSpec.step_cas_conflict _ _ _ Hkey Hne) in Hi. discriminate.
Qed.

(** X3. A call of the allocator changes nothing but the counter: when it
    returns, every other key of the store is as before; it wrote the
    counter once if it returned an identifier, and nothing at all if it
    returned an error; it never removes the counter. *)
Theorem allocation_changes_only_counter (fuel : nat) (s s' : Store) (id : Z)
    (err : option error) :
  getNextIDFromKVDB fuel s = Some (s', id, err) →
  (∀ k, k ≠ getNextAlertIDKey → data s' !! k = data s !! k)
  ∧ (err = None → index s' = index s + 1 ∧ is_Some (counter s'))
  ∧ (err ≠ None → s' = s)
  ∧ (is_Some (counter s) → is_Some (counter s')).
Proof.
  intros Hrun. apply run_alloc_writes in Hrun; [|discriminate|discriminate].
  destruct Hrun as [[-> Herr]|(v & -> & ->)].
  - repeat split; auto; intros; congruence.
  - split; [|split; [|split]].
    + intros k Hk. simpl. now rewrite lookup_insert_ne.
    + intros _. split; [reflexivity|]. rewrite AllocSpec.counter_write. eauto.
    + congruence.
    + intros _. rewrite AllocSpec.counter_write. eauto.
Qed.

Lemma corrupt_counter_is_permanent_witness :
  getNextIDFromKVDB 2 Scenario.corrupt_counter
  = Some (Scenario.corrupt_counter, -1, Some ErrNotInitialized)
  ∧ @raise Json.codec 2 100 Sample.volume_alert Scenario.corrupt_counter
    = Some (Scenario.corrupt_counter, Sample.volume_alert, Some ErrNotInitialized).
Proof.
  apply (@corrupt_counter_is_permanent Json.codec 0 Scenario.corrupt_counter
           {| eValue := "abc"; eTTL := 0; eModified := 1 |} 100 Sample.volume_alert).
  - vm_compute. reflexivity.
  - intros cur. vm_compute. reflexivity.
  - discriminate.
Defined.

Lemma allocation_changes_only_counter_witness :
  index (write getNextAlertIDKey "3" 0 KVSet Sample.raised_store).1
  = index Sample.raised_store + 1
  ∧ data (write getNextAlertIDKey "3" 0 KVSet Sample.raised_store).1 !! "alert/volume/1"
    = data Sample.raised_store !! "alert/volume/1".
Proof.
  destruct (allocation_changes_only_counter 3 Sample.raised_store
              (write getNextAlertIDKey "3" 0 KVSet Sample.raised_store).1 2 None
              ltac:(vm_compute; reflexivity)) as (Hkeys & Hok & _).
  split; [apply Hok; reflexivity|]. apply Hkeys. vm_compute. discriminate.
Defined.

End AllocMore.

(** ** More on the alert store *)
Module AlertStoreMore.
Import Go Kv Alert AlertRuns GoFacts.

Lemma subscriptions_key_not_counter t : getSubscriptionsKey t ≠ getNextAlertIDKey.
Proof. cbn. intros [=]. Qed.

Lemma record_key_not_subscriptions r id t : record_key r id ≠ getSubscriptionsKey t.
Proof. destruct r; cbn; intros [=]. Qed.

Lemma record_key_counter r id : record_key r id ≠ getNextAlertIDKey.
Proof. apply AllocSpec.record_key_not_counter. Qed.

Lemma subscriptions_key_inj t t' :
  getSubscriptionsKey t = getSubscriptionsKey t' → t = t'.
Proof. cbn. intros [= H]. now apply FormatInt_inj. Qed.

(** X10. The key layout keeps the partitions apart: the records of two
    alerts share a key only if they have the same resource type and the
    same identifier (for resource types other than [None], which shares
    the drive partition), and no record key is the counter key or a
    subscription key. *)
Theorem record_keys_distinct (r r' : ResourceType) (id id' : Z) (t : Z) :
  (r ≠ RESOURCE_TYPE_NONE → r' ≠ RESOURCE_TYPE_NONE →
   record_key r id = record_key r' id' → r = r' ∧ id = id')
  ∧ record_key r id ≠ getNextAlertIDKey
  ∧ record_key r id ≠ getSubscriptionsKey t
  ∧ record_key RESOURCE_TYPE_NONE id = record_key RESOURCE_TYPE_DRIVE id.
Proof.
  split; [|split; [|split]].
  - intros Hr Hr'. destruct r, r'; try congruence; cbn; intros [= H];
      (split; [reflexivity|now apply FormatInt_inj]).
  - apply record_key_counter.
  - apply record_key_not_subscriptions.
  - reflexivity.
Qed.

Section WithCodec.
Context `{!AlertCodec}.

Lemma raise_unfold now a v0 s :
  Resource a ≠ RESOURCE_TYPE_NONE → counter_starts_at v0 s →
  raise 3 now a s
  = (let s1 := (write getNextAlertIDKey (FormatInt (int64_wrap (v0 + 1))) 0 KVSet s).1 in
     let '(s2, r) := Create (record_key (Resource a) v0) (marshalAlert (stamp a v0 now))
                            (Ttl a) s1 in
     Some (s2, stamp a v0 now, match r with Ok _ => None | Fail e => Some e end)).
Proof.
  intros Hr Hs. unfold raise. rewrite decide_False by exact Hr.
  now rewrite (AllocMore.alloc_once v0 s Hs).
Qed.

(** X4. [raise] of an alert with a resource type, on a store whose counter
    starts at [v0] and that has no record under that identifier yet: the
    alert gets identifier [v0], the given clock reading as timestamp and
    [Cleared = false], whatever the caller had put there; the record is
    created under its partition key with the alert's own TTL, the counter
    moves on, and no other key changes. [Retrieve] then returns the stamped
    alert (when the codec reads back what it wrote). *)
Theorem raise_creates_record (now : Z) (a : Alert) (v0 : Z) (s : Store) :
  Resource a ≠ RESOURCE_TYPE_NONE → counter_starts_at v0 s →
  data s !! record_key (Resource a) v0 = None →
  ∃ s', raise 3 now a s = Some (s', stamp a v0 now, None)
    ∧ data s' !! record_key (Resource a) v0
      = Some {| eValue := marshalAlert (stamp a v0 now); eTTL := Ttl a;
                eModified := index s + 2 |}
    ∧ counter s' = Some (FormatInt (int64_wrap (v0 + 1)))
    ∧ (∀ k, k ≠ record_key (Resource a) v0 → k ≠ getNextAlertIDKey →
         data s' !! k = data s !! k)
    ∧ (unmarshalAlert (marshalAlert (stamp a v0 now)) = Some (stamp a v0 now) →
       Retrieve (Resource a) v0 s' = (stamp a v0 now, None)).
Proof.
  intros Hr Hs Hfree. rewrite (raise_unfold now a v0 s Hr Hs). cbv zeta.
  unfold Create. simpl.
  rewrite lookup_insert_ne by (apply not_eq_sym, record_key_counter).
  rewrite Hfree. simpl. eexists. split; [reflexivity|]. simpl.
  split; [|split; [|split]].
  - rewrite lookup_insert_eq. do 2 f_equal. lia.
  - unfold counter. simpl.
    rewrite lookup_insert_ne by apply record_key_counter.
    now rewrite lookup_insert_eq.
  - intros k Hk Hc. now rewrite !lookup_insert_ne by congruence.
  - intros Hround. unfold Retrieve. rewrite decide_False by exact Hr.
    unfold GetVal, Get. simpl. fold (record_key (Resource a) v0).
    rewrite lookup_insert_eq. simpl. now rewrite Hround.
Qed.

(** X5. [raise] never overwrites: when a record already sits under the
    key of the identifier it allocated, the create fails with the store's
    already-exists error and the record stays as it was; the identifier is
    used up all the same, the counter having moved on. *)
Theorem raise_never_overwrites (now : Z) (a : Alert) (v0 : Z) (s : Store) (e : Entry) :
  Resource a ≠ RESOURCE_TYPE_NONE → counter_starts_at v0 s →
  data s !! record_key (Resource a) v0 = Some e →
  ∃ s', raise 3 now a s = Some (s', stamp a v0 now, Some KvErrExist)
    ∧ data s' !! record_key (Resource a) v0 = Some e
    ∧ counter s' = Some (FormatInt (int64_wrap (v0 + 1))).
Proof.
  intros Hr Hs Hthere. rewrite (raise_unfold now a v0 s Hr Hs). cbv zeta.
  unfold Create. simpl.
  rewrite lookup_insert_ne by (apply not_eq_sym, record_key_counter).
  rewrite Hthere. eexists. split; [reflexivity|]. simpl. split.
  - now rewrite lookup_insert_ne by (apply not_eq_sym, record_key_counter).
  - unfold counter. simpl. now rewrite lookup_insert_eq.
Qed.

(** X6. A subscription of an alert type to itself makes [Raise] recurse
    without end: when the list subscribed to the alert's type starts with a
    child of that same type, no recursion depth lets [Raise] return. *)
Theorem Raise_self_subscription_diverges (fuel : nat) (now : Z) (a : Alert) (s : Store)
    (kvp : KVPair) (child : Alert) (rest : list Alert) :
  GetVal unmarshalAlerts (getSubscriptionsKey (AlertType a)) s = Ok (kvp, child :: rest) →
  AlertType child = AlertType a →
  Raise fuel now a s = None.
Proof.
  revert a. induction fuel as [|fuel IH]; intros a Hget Hty; [reflexivity|].
  cbn [Raise]. rewrite Hget. cbn [raise_each].
  rewrite (IH child); [reflexivity| |reflexivity].
  now rewrite Hty.
Qed.

Lemma subscribe_first t child s :
  data s !! getSubscriptionsKey t = None →
  (Subscribe t child s).1
  = (write (getSubscriptionsKey t) (marshalAlerts [child]) 0 KVSet s).1
  ∧ (Subscribe t child s).2 = None.
Proof.
  intros Habs. unfold Subscribe, GetVal, Get. rewrite Habs.
  rewrite decide_False by (intros Hne; now apply Hne). split; reflexivity.
Qed.

(** X7. A subscribed alert without resource type blocks its parent type.
    [Subscribe] stores any child under a parent type that has no list yet,
    whatever the child's resource type. And on every store in which the
    first alert of the list subscribed to a type has resource [None],
    while no list is subscribed to that alert's own type, [Raise] of an
    alert of the parent type fails with the subscribed-raise error and
    leaves the store as it is: nothing is written and the alert itself is
    never raised. *)
Theorem None_child_blocks_parent (fuel : nat) (now : Z) (a child : Alert)
    (rest : list Alert) (kvp : KVPair) (s : Store) :
  Resource child = RESOURCE_TYPE_NONE →
  GetVal unmarshalAlerts (getSubscriptionsKey (AlertType a)) s = Ok (kvp, child :: rest) →
  GetVal unmarshalAlerts (getSubscriptionsKey (AlertType child)) s = Fail KvErrNotFound →
  Raise (S (S fuel)) now a s = Some (s, a, Some ErrSubscribedRaise)
  ∧ ∀ t s0, data s0 !! getSubscriptionsKey t = None →
      (Subscribe t child s0).2 = None
      ∧ eValue <$> data (Subscribe t child s0).1 !! getSubscriptionsKey t
        = Some (marshalAlerts [child])
      ∧ ∀ k, k ≠ getSubscriptionsKey t → data (Subscribe t child s0).1 !! k = data s0 !! k.
Proof.
  intros Hnone Hsubs Hchild. split.
  - cbn [Raise]. rewrite Hsubs. cbn [raise_each]. rewrite Hchild.
    rewrite decide_False by (intros Hne; now apply Hne).
    rewrite (AlertSpec.raise_none _ _ _ _ Hnone). reflexivity.
  - intros t s0 Habs. destruct (subscribe_first t child s0 Habs) as [-> ->].
    split; [reflexivity|]. simpl. split; [now rewrite lookup_insert_eq|].
    intros k Hk. now rewrite lookup_insert_ne.
Qed.

(** The bytes stored under a parent type's subscription key after the
    children were subscribed one by one. *)
Lemma subscribe_all_stored t rest : ∀ pre s,
  (pre = [] ∧ data s !! getSubscriptionsKey t = None)
  ∨ (pre ≠ [] ∧ eValue <$> data s !! getSubscriptionsKey t = Some (marshalAlerts pre)) →
  reads_back_prefixes (pre ++ rest) →
  pre ++ rest ≠ [] →
  eValue <$> data (subscribe_all t rest s) !! getSubscriptionsKey t
  = Some (marshalAlerts (pre ++ rest)).
Proof.
  induction rest as [|c rest IH]; intros pre s Hst Hread Hne.
  - rewrite app_nil_r in *. simpl. destruct Hst as [[-> _]|[_ Hst]]; [congruence|exact Hst].
  - cbn [subscribe_all foldl]. fold (subscribe_all t rest).
    replace (pre ++ c :: rest) with ((pre ++ [c]) ++ rest) in * by now rewrite <- app_assoc.
    apply IH; [|exact Hread|exact Hne].
    right. split; [now destruct pre|].
    destruct Hst as [[-> Habs]|[Hpre Hst]].
    + destruct (subscribe_first t c s Habs) as [-> _]. simpl.
      now rewrite lookup_insert_eq.
    + unfold Subscribe, GetVal, Get.
      destruct (data s !! getSubscriptionsKey t) as [e|] eqn:He; [|discriminate].
      simpl in Hst. injection Hst as Hst. simpl. rewrite Hst.
      pose proof (Hread (length pre)) as Hk.
      rewrite <- app_assoc, take_app_length in Hk. rewrite Hk. simpl.
      now rewrite lookup_insert_eq.
Qed.

(** X8. Subscriptions accumulate in order: after children were subscribed
    one by one to a parent type that had none, the stored list is these
    children, first subscribed first (when the codec reads back the lists
    it wrote on the way). *)
Theorem subscribe_all_in_order (t : Z) (children : list Alert) (s : Store) :
  children ≠ [] →
  data s !! getSubscriptionsKey t = None →
  reads_back_prefixes children →
  subscriptions_of t (subscribe_all t children s) = Ok children.
Proof.
  intros Hne Habs Hread.
  pose proof (subscribe_all_stored t children [] s (or_introl (conj eq_refl Habs))
                Hread Hne) as Hst.
  simpl in Hst. unfold subscriptions_of, GetVal, Get.
  destruct (data (subscribe_all t children s) !! getSubscriptionsKey t) as [e|];
    [|discriminate].
  simpl in Hst. injection Hst as Hst. simpl. rewrite Hst.
  pose proof (Hread (length children)) as Hk. rewrite firstn_all in Hk.
  now rewrite Hk.
Qed.

(** X9. [Erase] deletes exactly the record it names: erasing an existing
    record succeeds, a [Retrieve] of it afterwards fails with the store's
    not-found error, and every other key is as before; erasing a record
    that is not there fails with not-found and changes nothing. *)
Theorem Erase_then_Retrieve (r : ResourceType) (id : Z) (s : Store) :
  r ≠ RESOURCE_TYPE_NONE →
  (is_Some (data s !! record_key r id) →
     (Erase r id s).2 = None
     ∧ data (Erase r id s).1 !! record_key r id = None
     ∧ (∀ k, k ≠ record_key r id → data (Erase r id s).1 !! k = data s !! k)
     ∧ Retrieve r id (Erase r id s).1 = (zeroAlert, Some KvErrNotFound))
  ∧ (data s !! record_key r id = None → Erase r id s = (s, Some KvErrNotFound)).
Proof.
  intros Hr. unfold Erase. rewrite decide_False by exact Hr.
  fold (record_key r id). unfold Delete. split.
  - intros [e He]. rewrite He. simpl. split; [reflexivity|]. split; [|split].
    + apply lookup_delete_eq.
    + intros k Hk. now apply lookup_delete_ne.
    + unfold Retrieve. rewrite decide_False by exact Hr.
      unfold GetVal, Get. simpl. fold (record_key r id).
      now rewrite lookup_delete_eq.
  - intros Habs. now rewrite Habs.
Qed.

(** X11. [Enumerate] never hands out alerts together with an error: when
    it returns an error, the list it returns is empty. *)
Theorem enumerate_error_means_no_alerts (kv : Store) (filter : Alert)
    (allAlerts : list (option Alert)) (e : error) :
  enumerate kv filter = Ret (allAlerts, Some e) → allAlerts = [].
Proof.
  rewrite AlertSpec.enumerate_by_severity. unfold enumeration_error, partition_alerts.
  assert (Hnone : ∀ l, by_severity filter [] = Ret l → l = []).
  { unfold by_severity. destruct (decide (Severity filter ≠ 0)); now intros l [= <-]. }
  destruct (decide (Resource filter = RESOURCE_TYPE_NONE)).
  - destruct (decide (union_alerts kv = [])) as [->|Hu].
    + destruct (by_severity filter []) as [l|] eqn:Hl; [|discriminate].
      intros [= <- _]. now apply Hnone.
    + destruct (by_severity filter (union_alerts kv)); intros [=].
  - destruct (getResourceSpecificAlerts (Resource filter) kv) as [alerts|err].
    + destruct (by_severity filter alerts); intros [=].
    + destruct (by_severity filter []) as [l|] eqn:Hl; [|discriminate].
      intros [= <- _]. now apply Hnone.
Qed.

End WithCodec.

Import Json.

Lemma raise_creates_record_witness :
  ∃ s', raise 3 100 Sample.volume_alert Sample.raised_store
        = Some (s', stamp Sample.volume_alert 2 100, None)
    ∧ counter s' = Some "3"
    ∧ Retrieve RESOURCE_TYPE_VOLUME 2 s' = (stamp Sample.volume_alert 2 100, None).
Proof.
  destruct (@raise_creates_record Json.codec 100 Sample.volume_alert 2 Sample.raised_store
              ltac:(discriminate)
              ltac:(right; split; [split; vm_compute; discriminate|vm_compute; reflexivity])
              ltac:(vm_compute; reflexivity))
    as (s' & Hr & _ & Hc & _ & Hget).
  exists s'. split; [exact Hr|]. split; [exact Hc|]. apply Hget. vm_compute. reflexivity.
Defined.

Lemma raise_never_overwrites_witness :
  ∃ s', raise 3 100 Sample.volume_alert Scenario.squatted
        = Some (s', stamp Sample.volume_alert 0 100, Some KvErrExist)
    ∧ data s' !! record_key (Resource Sample.volume_alert) 0
      = Some {| eValue := "stale"; eTTL := 0; eModified := 1 |}
    ∧ counter s' = Some (FormatInt (int64_wrap (0 + 1))).
Proof.
  apply (@raise_never_overwrites Json.codec 100 Sample.volume_alert 0 Scenario.squatted).
  - discriminate.
  - left. split; reflexivity.
  - vm_compute. reflexivity.
Defined.

Lemma Raise_self_subscription_diverges_witness :
  Raise 10 100 Sample.volume_alert Scenario.self_subscribed = None.
Proof.
  eapply (@Raise_self_subscription_diverges Json.codec 10 100 Sample.volume_alert
            Scenario.self_subscribed _ Sample.volume_alert []).
  - vm_compute. reflexivity.
  - reflexivity.
Defined.

Lemma None_child_blocks_parent_witness :
  (Subscribe 8 Sample.none_alert Kv.empty).2 = None
  ∧ Raise 2 100 Sample.node_child (Subscribe 8 Sample.none_alert Kv.empty).1
    = Some ((Subscribe 8 Sample.none_alert Kv.empty).1, Sample.node_child,
            Some ErrSubscribedRaise).
Proof.
  assert (Hsubs : ∃ kvp,
            GetVal unmarshalAlerts (getSubscriptionsKey (AlertType Sample.node_child))
              (Subscribe 8 Sample.none_alert Kv.empty).1 = Ok (kvp, [Sample.none_alert])).
  { eexists. vm_compute. reflexivity. }
  destruct Hsubs as [kvp Hsubs].
  destruct (@None_child_blocks_parent Json.codec 0 100 Sample.node_child Sample.none_alert
              [] kvp (Subscribe 8 Sample.none_alert Kv.empty).1
              ltac:(reflexivity) Hsubs ltac:(vm_compute; reflexivity)) as (Hraise & Hsub).
  split; [|exact Hraise]. now destruct (Hsub 8 Kv.empty ltac:(reflexivity)).
Defined.

Lemma subscribe_all_in_order_witness :
  subscriptions_of 5 (subscribe_all 5 [Sample.node_child; Sample.volume_alert] Kv.empty)
  = Ok [Sample.node_child; Sample.volume_alert].
Proof.
  apply (@subscribe_all_in_order Json.codec).
  - discriminate.
  - reflexivity.
  - intros [|[|[|k]]]; vm_compute; reflexivity.
Defined.

Lemma Erase_then_Retrieve_witness :
  (Erase RESOURCE_TYPE_VOLUME 1 Sample.raised_store).2 = None
  ∧ Retrieve RESOURCE_TYPE_VOLUME 1 (Erase RESOURCE_TYPE_VOLUME 1 Sample.raised_store).1
    = (zeroAlert, Some KvErrNotFound)
  ∧ Erase RESOURCE_TYPE_VOLUME 5 Sample.raised_store
    = (Sample.raised_store, Some KvErrNotFound).
Proof.
  destruct (@Erase_then_Retrieve Json.codec RESOURCE_TYPE_VOLUME 1 Sample.raised_store
              ltac:(discriminate)) as (Hthere & _).
  destruct (@Erase_then_Retrieve Json.codec RESOURCE_TYPE_VOLUME 5 Sample.raised_store
              ltac:(discriminate)) as (_ & Hgone).
  destruct (Hthere ltac:(eexists; vm_compute; reflexivity)) as (H1 & _ & _ & H4).
  split; [exact H1|]. split; [exact H4|]. apply Hgone. vm_compute. reflexivity.
Defined.

Lemma enumerate_error_means_no_alerts_witness :
  enumerate (Put "alert/node/9" "garbage" 0 Sample.raised_store).1 Sample.node_child
  = Ret ([], Some ErrJson).
Proof.
  assert (Hrun : ∃ allAlerts,
            enumerate (Put "alert/node/9" "garbage" 0 Sample.raised_store).1
              Sample.node_child = Ret (allAlerts, Some ErrJson)).
  { eexists. vm_compute. reflexivity. }
  destruct Hrun as [allAlerts Hrun]. rewrite Hrun.
  now rewrite (@enumerate_error_means_no_alerts Json.codec _ _ _ _ Hrun).
Defined.

End AlertStoreMore.

(** ** More on the watch callback *)
Module WatchMore.
Import Go Kv Alert WatchRuns GoFacts.

Section WithCodec.
Context `{!AlertCodec}.

Lemma watcher_evolved_refl w : watcher_evolved w w.
Proof. repeat split; auto. Qed.

Lemma watchers_evolved_refl g : watchers_evolved g g.
Proof. intros k. destruct (watcherMap g !! k); auto using watcher_evolved_refl. Qed.

Lemma watchers_evolved_trans g1 g2 g3 :
  watchers_evolved g1 g2 → watchers_evolved g2 g3 → watchers_evolved g1 g3.
Proof.
  intros H12 H23 k. specialize (H12 k). specialize (H23 k).
  destruct (watcherMap g1 !! k) as [w1|], (watcherMap g2 !! k) as [w2|],
    (watcherMap g3 !! k) as [w3|]; try tauto.
  destruct H12 as (? & ? & ? & ?), H23 as (? & ? & ? & ?).
  repeat split; try congruence. lia.
Qed.

(** Only the status of the watcher under [k] was set, to one not before
    its old one. *)
Lemma set_status_evolved g g' k w st :
  watcherMap g !! k = Some w →
  (status_rank (status w) <= status_rank st)%nat →
  watcherMap g' = <[k := set_status w st]> (watcherMap g) →
  watchers_evolved g g'.
Proof.
  intros Hw Hrank Hmap k'. rewrite Hmap.
  destruct (decide (k = k')) as [<-|Hne].
  - rewrite lookup_insert_eq, Hw. repeat split; auto.
  - rewrite lookup_insert_ne by exact Hne.
    destruct (watcherMap g !! k'); auto using watcher_evolved_refl.
Qed.

Lemma same_map_evolved g g' :
  watcherMap g' = watcherMap g → watchers_evolved g g'.
Proof.
  intros Hmap k. rewrite Hmap.
  destruct (watcherMap g !! k); auto using watcher_evolved_refl.
Qed.

(** What one call of the callback does to the process-wide state. *)
Lemma kvdbWatch_step prefix kvp err g g' r :
  kvdbWatch prefix kvp err g = Ret (g', r) →
  watchers_evolved g g'
  ∧ (within_budget g → within_budget g')
  ∧ (∀ e, err = Some e → r = Some e)
  ∧ ∃ es, effects g' = effects g ++ es ∧ (length es <= 1)%nat
      ∧ (err = None → resubscriptions es = [])
      ∧ (callbacks es ≠ [] → err = None ∨ watchErrors g = 5).
Proof.
  unfold kvdbWatch, within_budget.
  destruct (Split prefix "/" !! 1%nat) as [k|]; [|discriminate].
  destruct err as [e|].
  - destruct (watcherMap g !! k) as [w|] eqn:Hw; [|discriminate].
    destruct (decide (status w = watchBootstrap)) as [Hb|Hb].
    + intros [= <- <-]. simpl. split; [|split; [auto|split; [now intros ? [= ->]|]]].
      * eapply (set_status_evolved g _ k w watchError Hw); [rewrite Hb; simpl; lia|reflexivity].
      * exists []. rewrite app_nil_r. repeat split; auto; simpl; try lia; try congruence.
    + destruct (decide (watchErrors g = 5)) as [H5|H5].
      * unfold invoke. intros [= <- <-]. simpl.
        split; [now apply same_map_evolved|]. split; [auto|].
        split; [now intros ? [= ->]|].
        eexists. split; [reflexivity|]. simpl. repeat split; auto; try discriminate; try lia; try congruence.
      * unfold subscribeWatch. simpl. rewrite Hw. intros [= <- <-]. simpl.
        split; [now apply same_map_evolved|]. split.
        { intros Hb5. rewrite int64_wrap_id; [lia|].
          unfold is_int64, int64_min, int64_max. rewrite two63. lia. }
        split; [now intros ? [= ->]|].
        eexists. split; [reflexivity|]. simpl. repeat split; auto; try discriminate; try lia; try congruence.
  - destruct kvp as [kvp|]; [|discriminate].
    destruct (HasSuffix (Key kvp) bootstrap).
    + destruct (watcherMap g !! k) as [w|] eqn:Hw; [|discriminate].
      intros [= <- <-]. simpl. split; [|split; [auto|split; [discriminate|]]].
      * eapply (set_status_evolved g _ k w watchReady Hw); [|reflexivity].
        destruct (status w); simpl; lia.
      * exists []. rewrite app_nil_r. repeat split; auto; simpl; try lia; try congruence.
    + destruct (HasSuffix (Key kvp) nextAlertIDKey || Contains (Key kvp) subscriptionsKey).
      * intros [= <- <-]. split; [apply watchers_evolved_refl|]. split; [auto|].
        split; [discriminate|]. exists []. rewrite app_nil_r.
        repeat split; auto; simpl; try lia; try congruence.
      * assert (Hinv : ∀ a action g0 r0,
                  invoke k (watcherMap g !! k) a action prefix (Key kvp)
                    {| watcherMap := watcherMap g; watchErrors := 0;
                       effects := effects g |} = Ret (g0, r0) →
                  watcherMap g0 = watcherMap g ∧ watchErrors g0 = 0
                  ∧ effects g0 = effects g ++ [CallbackInvoked k a action prefix (Key kvp)]).
        { intros a action g0 r0. unfold invoke.
          destruct (watcherMap g !! k); [|discriminate].
          intros [= <- <-]. auto. }
        assert (Hdone : ∀ g0 r0, (watcherMap g0 = watcherMap g ∧ watchErrors g0 = 0
                  ∧ ∃ es, effects g0 = effects g ++ es ∧ (length es <= 1)%nat
                          ∧ resubscriptions es = []) →
                  watchers_evolved g g0
                  ∧ (0 <= watchErrors g <= 5 → 0 <= watchErrors g0 <= 5)
                  ∧ (∀ e : error, @None error = Some e → r0 = Some e)
                  ∧ ∃ es, effects g0 = effects g ++ es ∧ (length es <= 1)%nat
                      ∧ (@None error = None → resubscriptions es = [])
                      ∧ (callbacks es ≠ [] → @None error = None ∨ watchErrors g = 5)).
        { intros g0 r0 (Hm & H0 & es & He & Hl & Hr).
          split; [now apply same_map_evolved|]. split; [lia|]. split; [discriminate|].
          exists es. auto. }
        simpl.
        destruct (decide (Action kvp = KVDelete)).
        { intros Hi. apply Hdone. apply Hinv in Hi as (? & ? & ?).
          repeat split; auto. eexists. split; [eassumption|]. simpl. auto. }
        destruct (unmarshalAlert (Value kvp)) as [alert|].
        2:{ intros [= <- <-]. apply Hdone. simpl. repeat split.
            exists []. rewrite app_nil_r. simpl. auto. }
        destruct (Action kvp);
          try (intros Hi; apply Hdone; apply Hinv in Hi as (? & ? & ?);
               repeat split; auto; eexists; split; [eassumption|]; simpl; auto);
          intros [= <- <-]; apply Hdone; simpl; repeat split;
          exists []; rewrite app_nil_r; simpl; auto.
Qed.

Lemma deliver_evolved ds : ∀ g g' rs,
  deliver ds g = Ret (g', rs) → watchers_evolved g g'.
Proof.
  induction ds as [|d ds IH]; intros g g' rs Hrun.
  - injection Hrun as <- <-. apply watchers_evolved_refl.
  - cbn [deliver] in Hrun.
    destruct (kvdbWatch (dPrefix d) (dKvp d) (dErr d) g) as [[g1 r1]|] eqn:Hstep;
      [|discriminate].
    destruct (deliver ds g1) as [[g2 rs2]|] eqn:Hrest; [|discriminate].
    injection Hrun as <- <-.
    apply kvdbWatch_step in Hstep as (Hev1 & _).
    eapply watchers_evolved_trans; [exact Hev1|]. eapply IH. exact Hrest.
Qed.

(** X12. Deliveries never add or remove a watcher, never change its
    callback or store handle, and only move its status forward (bootstrap
    to error or ready, error to ready): whatever is delivered, a watcher
    that is ready stays ready. *)
Theorem watchers_only_move_forward (ds : list delivery) (g g' : globals)
    (rs : list (option error)) :
  deliver ds g = Ret (g', rs) →
  watchers_evolved g g'
  ∧ ∀ k w, watcherMap g !! k = Some w → status w = watchReady →
      ∃ w', watcherMap g' !! k = Some w' ∧ status w' = watchReady ∧ cb w' = cb w.
Proof.
  intros Hrun. pose proof (deliver_evolved ds g g' rs Hrun) as Hev.
  split; [exact Hev|].
  intros k w Hw Hready. specialize (Hev k). rewrite Hw in Hev.
  destruct (watcherMap g' !! k) as [w'|]; [|contradiction].
  destruct Hev as (Hcb & _ & _ & Hrank). exists w'. split; [reflexivity|].
  split; [|exact Hcb]. rewrite Hready in Hrank. destruct (status w'); simpl in Hrank; auto; lia.
Qed.

(** X13. The error counter never leaves the range 0..5: the callback
    stops counting at 5 and every surfaced mutation sets it back to 0, so
    the 64-bit wrap-around of the increment is never reached. *)
Theorem watchErrors_stays_in_budget (ds : list delivery) (g g' : globals)
    (rs : list (option error)) :
  within_budget g → deliver ds g = Ret (g', rs) → within_budget g'.
Proof.
  revert g g' rs. induction ds as [|d ds IH]; intros g g' rs Hb Hrun.
  - injection Hrun as <- <-. exact Hb.
  - cbn [deliver] in Hrun.
    destruct (kvdbWatch (dPrefix d) (dKvp d) (dErr d) g) as [[g1 r1]|] eqn:Hstep;
      [|discriminate].
    destruct (deliver ds g1) as [[g2 rs2]|] eqn:Hrest; [|discriminate].
    injection Hrun as <- <-.
    apply kvdbWatch_step in Hstep as (_ & Hb1 & _).
    eapply IH; [apply Hb1, Hb|exact Hrest].
Qed.

(** X14. The callback never swallows a delivery error and does at most
    one thing per call: over any sequence of deliveries that it survives,
    the value returned for an error delivery is that error, and the
    callback invocations and resubscriptions together number at most the
    deliveries. *)
Theorem errors_returned_effects_bounded (ds : list delivery) (g g' : globals)
    (rs : list (option error)) :
  deliver ds g = Ret (g', rs) →
  Forall2 (λ d r, ∀ e, dErr d = Some e → r = Some e) ds rs
  ∧ ∃ es, effects g' = effects g ++ es ∧ (length es <= length ds)%nat.
Proof.
  revert g g' rs. induction ds as [|d ds IH]; intros g g' rs Hrun.
  - injection Hrun as <- <-. split; [constructor|]. exists []. now rewrite app_nil_r.
  - cbn [deliver] in Hrun.
    destruct (kvdbWatch (dPrefix d) (dKvp d) (dErr d) g) as [[g1 r1]|] eqn:Hstep;
      [|discriminate].
    destruct (deliver ds g1) as [[g2 rs2]|] eqn:Hrest; [|discriminate].
    injection Hrun as <- <-.
    apply kvdbWatch_step in Hstep as (_ & _ & Herr & es1 & He1 & Hl1 & _).
    apply IH in Hrest as (Hall & es2 & He2 & Hl2).
    split; [constructor; assumption|].
    exists (es1 ++ es2). rewrite He2, He1, <- app_assoc. split; [reflexivity|].
    rewrite length_app. simpl. lia.
Qed.

Lemma bookkeeping_ignored d g :
  bookkeeping d → kvdbWatch (dPrefix d) (dKvp d) (dErr d) g = Ret (g, None).
Proof.
  intros (He & [k Hk] & kvp & Hkvp & Hb & Hi). unfold kvdbWatch.
  rewrite Hk, He, Hkvp, Hb.
  destruct Hi as [Hi|Hi]; rewrite Hi; [reflexivity|].
  now rewrite orb_true_r.
Qed.

Lemma steady_error_same_map g g' d :
  watcherMap g' = watcherMap g → steady_error g d → steady_error g' d.
Proof.
  intros Hmap (k & w & e & He & Hw & Hst). exists k, w, e.
  repeat split; auto. unfold watcher_for in *. now rewrite Hmap.
Qed.

Lemma error_count_cons d ds :
  error_count (d :: ds)
  = ((match dErr d with Some _ => 1 | None => 0 end) + error_count ds)%nat.
Proof. unfold error_count. simpl. now destruct (dErr d). Qed.

(** X15. Mutations of the allocator's counter and of subscription lists
    are ignored altogether, so they do not count as a sign of life:
    steady-state errors with such mutations delivered in between use up
    the budget just as consecutive errors do, and the counter ends at the
    number of errors. *)
Theorem bookkeeping_keeps_budget (ds : list delivery) (g : globals) :
  Forall (λ d, steady_error g d ∨ bookkeeping d) ds →
  0 <= watchErrors g → watchErrors g + Z.of_nat (error_count ds) <= 5 →
  ∃ g', deliver ds g = Ret (g', map dErr ds)
    ∧ watchErrors g' = watchErrors g + Z.of_nat (error_count ds)
    ∧ watcherMap g' = watcherMap g
    ∧ callbacks (effects g') = callbacks (effects g).
Proof.
  revert g. induction ds as [|d ds IH]; intros g Hds H0 H5.
  - exists g. simpl. repeat split; auto. unfold error_count. simpl. lia.
  - inversion Hds as [|? ? Hd Hrest]; subst. rewrite error_count_cons in H5.
    destruct Hd as [Hd|Hd].
    + pose proof Hd as (k & w & e & He & Hw & Hst). rewrite He in H5.
      cbn [deliver]. rewrite He.
      rewrite (WatchSpec.error_resubscribes g _ _ e k w Hw Hst) by lia.
      rewrite int64_wrap_id
        by (unfold is_int64, int64_min, int64_max; rewrite two63; lia).
      destruct (IH {| watcherMap := watcherMap g; watchErrors := watchErrors g + 1;
                      effects := effects g ++ [WatchTreeCalled k alertKey 0] |})
        as (g' & Hrun & Hc & Hm & Hcb).
      * eapply Forall_impl; [exact Hrest|]. intros d' [Hs|Hb]; [left|now right].
        now apply (steady_error_same_map g).
      * simpl. lia.
      * simpl. lia.
      * exists g'. rewrite Hrun. simpl in *. rewrite He.
        split; [reflexivity|]. split; [|split; [exact Hm|]].
        -- rewrite Hc, error_count_cons, He. lia.
        -- rewrite Hcb, WatchSpec.callbacks_app. simpl. now rewrite app_nil_r.
    + pose proof Hd as (He & _). rewrite He in H5.
      cbn [deliver]. rewrite (bookkeeping_ignored d g Hd).
      destruct (IH g) as (g' & Hrun & Hc & Hm & Hcb); [exact Hrest|exact H0|lia|].
      exists g'. rewrite Hrun. simpl. rewrite He.
      split; [reflexivity|]. split; [|split; assumption].
      rewrite Hc, error_count_cons, He. lia.
Qed.

End WithCodec.

Import Json.

Lemma watchers_only_move_forward_witness :
  ∃ g' rs,
    deliver (Sample.mixed_errors ++ [error_on "pwx/c2/alert/" Sample.io_error])
            Sample.two_clusters = Ret (g', rs)
    ∧ watchers_evolved Sample.two_clusters g'
    ∧ ∀ k w, watcherMap Sample.two_clusters !! k = Some w → status w = watchReady →
        ∃ w', watcherMap g' !! k = Some w' ∧ status w' = watchReady ∧ cb w' = cb w.
Proof.
  eexists _, _. split; [vm_compute; reflexivity|].
  eapply (@watchers_only_move_forward Json.codec
           (Sample.mixed_errors ++ [error_on "pwx/c2/alert/" Sample.io_error])
           Sample.two_clusters _ _).
  vm_compute. reflexivity.
Defined.

Lemma watchErrors_stays_in_budget_witness :
  ∃ g' rs,
    deliver (Sample.mixed_errors ++ Sample.mixed_errors) Sample.two_clusters = Ret (g', rs)
    ∧ within_budget g'.
Proof.
  eexists _, _. split; [vm_compute; reflexivity|].
  eapply (@watchErrors_stays_in_budget Json.codec
           (Sample.mixed_errors ++ Sample.mixed_errors) Sample.two_clusters _ _).
  - unfold within_budget. simpl. lia.
  - vm_compute. reflexivity.
Defined.

Lemma errors_returned_effects_bounded_witness :
  ∃ g' rs,
    deliver Sample.mixed_errors Sample.two_clusters = Ret (g', rs)
    ∧ Forall2 (λ d r, ∀ e, dErr d = Some e → r = Some e) Sample.mixed_errors rs
    ∧ ∃ es, effects g' = effects Sample.two_clusters ++ es
        ∧ (length es <= length Sample.mixed_errors)%nat.
Proof.
  eexists _, _. split; [vm_compute; reflexivity|].
  eapply (@errors_returned_effects_bounded Json.codec Sample.mixed_errors
           Sample.two_clusters _ _).
  vm_compute. reflexivity.
Defined.

Lemma bookkeeping_keeps_budget_witness :
  ∃ g', deliver Scenario.interleaved_errors Sample.two_clusters
        = Ret (g', map dErr Scenario.interleaved_errors)
    ∧ watchErrors g'
      = watchErrors Sample.two_clusters + Z.of_nat (error_count Scenario.interleaved_errors)
    ∧ watcherMap g' = watcherMap Sample.two_clusters
    ∧ callbacks (effects g') = callbacks (effects Sample.two_clusters).
Proof.
  assert (Hc1 : steady_error Sample.two_clusters (error_on "pwx/c1/alert/" Sample.io_error)).
  { exists "c1", (Sample.ready_watcher "c1"), Sample.io_error.
    split; [reflexivity|]. split; [vm_compute; reflexivity|discriminate]. }
  assert (Hc2 : steady_error Sample.two_clusters (error_on "pwx/c2/alert/" Sample.io_error)).
  { exists "c2", (Sample.ready_watcher "c2"), Sample.io_error.
    split; [reflexivity|]. split; [vm_compute; reflexivity|discriminate]. }
  assert (Hn : bookkeeping Scenario.counter_mutation).
  { split; [reflexivity|]. split; [eexists; vm_compute; reflexivity|].
    eexists. split; [reflexivity|]. split; [vm_compute; reflexivity|].
    left. vm_compute. reflexivity. }
  assert (Hs : bookkeeping Scenario.subscription_mutation).
  { split; [reflexivity|]. split; [eexists; vm_compute; reflexivity|].
    eexists. split; [reflexivity|]. split; [vm_compute; reflexivity|].
    right. vm_compute. reflexivity. }
  apply (@bookkeeping_keeps_budget Json.codec Scenario.interleaved_errors
           Sample.two_clusters).
  - unfold Scenario.interleaved_errors.
    constructor; [left; exact Hc1|]. constructor; [right; exact Hn|].
    constructor; [left; exact Hc2|]. constructor; [right; exact Hs|].
    constructor; [left; exact Hc1|]. constructor.
  - simpl. lia.
  - vm_compute. discriminate.
Defined.

End WatchMore.

(** ** The client: store instances and time ranges *)
Module ClientMore.
Import Go Kv Alert GoTime KvAlertClient GoFacts.

Section WithCodec.
Context `{!AlertCodec}.

(** The instant of an alert as [time.Unix] gives it: its second counted
    from year 1, in [int64]. *)
Lemma within_seconds timeStart timeEnd v :
  0 <= nsec timeStart →
  within timeStart timeEnd v = true ↔
  sec timeStart < int64_wrap (Timestamp v + unixToInternal)
  ∧ (int64_wrap (Timestamp v + unixToInternal) < sec timeEnd
     ∨ (int64_wrap (Timestamp v + unixToInternal) = sec timeEnd ∧ 0 < nsec timeEnd)).
Proof.
  intros Hn. unfold within, Before, After, Unix. simpl.
  rewrite andb_true_iff, !orb_true_iff, !andb_true_iff.
  rewrite !Z.ltb_lt, !Z.eqb_eq. split.
  - intros [Hb Ha]. split; [|tauto]. destruct Ha as [Ha|[_ Ha]]; lia.
  - intros [Ha Hb]. split; [tauto|]. now left.
Qed.

Lemma time_loop_alerts timeStart timeEnd alerts : ∀ acc,
  time_loop timeStart timeEnd (map Some alerts) acc
  = Ret (acc ++ map Some (List.filter (within timeStart timeEnd) alerts)).
Proof.
  induction alerts as [|v alerts IH]; intros acc; simpl.
  - now rewrite app_nil_r.
  - destruct (within timeStart timeEnd v); rewrite IH; [|reflexivity].
    now rewrite <- app_assoc.
Qed.

Lemma time_loop_nil timeStart timeEnd l : ∀ acc,
  In None l → time_loop timeStart timeEnd l acc = Panic "nil pointer dereference".
Proof.
  induction l as [|[v|] l IH]; intros acc Hin; simpl.
  - destruct Hin.
  - destruct Hin as [Hin|Hin]; [discriminate|].
    destruct (within timeStart timeEnd v); now apply IH.
  - reflexivity.
Qed.

Lemma EnumerateWithinTimeRange_loop timeStart timeEnd r kv :
  EnumerateWithinTimeRange timeStart timeEnd r kv
  = match enumeration_error r kv with
    | Some err => Ret ([], Some err)
    | None =>
        match time_loop timeStart timeEnd
                (if decide (r = RESOURCE_TYPE_NONE) then union_alerts kv
                 else partition_alerts r kv) [] with
        | Ret allAlerts => Ret (allAlerts, None)
        | Panic why => Panic why
        end
    end.
Proof.
  unfold EnumerateWithinTimeRange, enumeration_error.
  destruct (decide (r = RESOURCE_TYPE_NONE)) as [Hr|Hr].
  - rewrite decide_False by (intros Hne; now apply Hne).
    rewrite AlertSpec.getAllAlerts_union.
    destruct (decide (union_alerts kv = [])); reflexivity.
  - rewrite decide_True by exact Hr. unfold partition_alerts.
    destruct (getResourceSpecificAlerts r kv); reflexivity.
Qed.

(** X16. [EnumerateWithinTimeRange] keeps the alerts whose instant lies
    strictly after the start and strictly before the end of the range.
    When the partition cannot be read, or no partition holds an alert for
    the resource [None], it returns the error with an empty list.
    Otherwise, when no element read is nil, it returns exactly the alerts
    read (of the partition, or of the union of the partitions for [None])
    that pass the time test, in order; on a nil element, which a stored
    [null] gives, it panics. An alert passes the test exactly when its
    instant, [time.Unix(Timestamp, 0)], has its second after the start's
    second and before the end instant; that second is the time stamp plus
    the seconds from year 1 to 1970 in 64-bit arithmetic, so a time stamp
    near the largest integer wraps to the remote past. A range whose end
    second is not after its start second lets no alert pass. *)
Theorem time_range_is_open (timeStart timeEnd : Time) (r : ResourceType) (kv : Store) :
  0 <= nsec timeStart →
  let enumerated :=
    if decide (r = RESOURCE_TYPE_NONE) then union_alerts kv else partition_alerts r kv in
  let instant := λ a : Alert, int64_wrap (Timestamp a + unixToInternal) in
  (∀ err, enumeration_error r kv = Some err →
     EnumerateWithinTimeRange timeStart timeEnd r kv = Ret ([], Some err))
  ∧ (enumeration_error r kv = None → ∀ alerts, enumerated = map Some alerts →
     EnumerateWithinTimeRange timeStart timeEnd r kv
     = Ret (map Some (List.filter (within timeStart timeEnd) alerts), None))
  ∧ (enumeration_error r kv = None → In None enumerated →
     EnumerateWithinTimeRange timeStart timeEnd r kv = Panic "nil pointer dereference")
  ∧ ((∀ k e, data kv !! k = Some e → json_null (eValue e) = false) →
     ∃ alerts, enumerated = map Some alerts)
  ∧ (∀ a, within timeStart timeEnd a = true ↔
          sec timeStart < instant a
          ∧ (instant a < sec timeEnd ∨ (instant a = sec timeEnd ∧ 0 < nsec timeEnd)))
  ∧ (∀ a, is_int64 (Timestamp a + unixToInternal) →
          instant a = Timestamp a + unixToInternal)
  ∧ (∀ a, is_int64 (Timestamp a) → int64_max - unixToInternal < Timestamp a →
          instant a = Timestamp a + unixToInternal - 2 ^ 64)
  ∧ (sec timeEnd <= sec timeStart → ∀ a, within timeStart timeEnd a = false).
Proof.
  intros Hs. cbv zeta. rewrite EnumerateWithinTimeRange_loop.
  split; [|split; [|split; [|split; [|split; [|split; [|split]]]]]].
  - now intros err ->.
  - intros -> alerts ->. now rewrite time_loop_alerts.
  - intros -> Hin. now rewrite (time_loop_nil _ _ _ [] Hin).
  - apply AlertSpec.enumerated_no_nil.
  - intros a. now apply within_seconds.
  - intros a Ha. now apply int64_wrap_id.
  - intros a [Hlo Hhi] Hbig. unfold int64_wrap, unixToInternal, int64_min, int64_max in *.
    rewrite two63, two64 in *.
    replace (Timestamp a + 62135596800 + 9223372036854775808)
      with (Timestamp a + 62135596800 - 9223372036854775808 + 1 * 18446744073709551616)
      by lia.
    rewrite Z.mod_add by lia. rewrite Z.mod_small by lia. lia.
  - intros Hinv a. destruct (within timeStart timeEnd a) eqn:Hw; [|reflexivity].
    apply (within_seconds _ _ _ Hs) in Hw. lia.
Qed.

End WithCodec.

Section Instances.
Context (newFails : KvdbInstance → option error).

(** X17. The instance cache is keyed by the cluster alone and never
    replaces an entry: once a client of a cluster was initialized, a later
    [Init] for the same cluster succeeds without opening anything,
    whatever name, domain, machines and options it is given and even if the
    backend would refuse them, and the later client works on the instance
    opened with the first client's settings. *)
Theorem cached_instance_ignores_later_settings (name domain : string)
    (machines : list string) (c : string) (options : gmap string string)
    (m : gmap string KvdbInstance) :
  let kv := {| kvName := name; kvDomain := domain +:+ "/" +:+ c;
               kvMachines := machines; kvOptions := options |} in
  m !! c = None → newFails kv = None →
  ∃ m1 client, Init newFails name domain machines c options m = (m1, Ok client)
    ∧ GetKvdbInstance client m1 = Some kv
    ∧ ∀ refuses name' domain' machines' options',
        ∃ client', Init refuses name' domain' machines' c options' m1 = (m1, Ok client')
          ∧ kvdbDomain client' = domain'
          ∧ GetKvdbInstance client' m1 = Some kv.
Proof.
  cbv zeta. intros Hm Hnew. unfold Init, kvdb_New. rewrite Hm, Hnew.
  eexists _, _. split; [reflexivity|]. unfold GetKvdbInstance. simpl.
  rewrite lookup_insert_eq. split; [reflexivity|].
  intros refuses name' domain' machines' options'.
  eexists. split; [reflexivity|]. simpl. split; [reflexivity|].
  apply lookup_insert_eq.
Qed.

(** X18. [getKvdbForCluster] caches successes and only successes: an
    instance it returns is in the cache afterwards and is what every later
    call for that cluster returns without opening anything, the entries of
    the other clusters being untouched; a failure to open leaves the cache
    as it was, so the next call tries again. *)
Theorem getKvdbForCluster_caches (kva : KvAlert) (c : string)
    (m m' : gmap string KvdbInstance) :
  (∀ kv, getKvdbForCluster newFails kva c m = (m', Ok kv) →
     m' !! c = Some kv
     ∧ (∀ k, k ≠ c → m' !! k = m !! k)
     ∧ (∀ k kv0, m !! k = Some kv0 → m' !! k = Some kv0)
     ∧ ∀ refuses kva', getKvdbForCluster refuses kva' c m' = (m', Ok kv))
  ∧ (∀ e, getKvdbForCluster newFails kva c m = (m', Fail e) →
     m' = m ∧ m !! c = None).
Proof.
  unfold getKvdbForCluster, kvdb_New. split.
  - intros kv. destruct (m !! c) as [kv0|] eqn:Hc.
    + intros [= <- <-]. rewrite Hc. repeat split; auto.
    + destruct (newFails _); [discriminate|]. intros [= <- <-].
      rewrite lookup_insert_eq. split; [reflexivity|]. split; [|split].
      * intros k Hk. now rewrite lookup_insert_ne.
      * intros k kv0 Hk. rewrite lookup_insert_ne; [exact Hk|congruence].
      * reflexivity.
  - intros e. destruct (m !! c); [discriminate|].
    destruct (newFails _); [|discriminate]. intros [= <- _]. auto.
Qed.

End Instances.

Import Json.

Lemma time_range_is_open_witness :
  EnumerateWithinTimeRange (Unix 50 0) (Unix 101 0) RESOURCE_TYPE_NONE Sample.raised_store
  = Ret ([ Some {| Id := 0; Severity := 1; AlertType := 8; Timestamp := 100;
                   Resource := RESOURCE_TYPE_NODE; Cleared := false; Ttl := 0 |};
           Some {| Id := 1; Severity := 3; AlertType := 7; Timestamp := 100;
                   Resource := RESOURCE_TYPE_VOLUME; Cleared := false; Ttl := 0 |} ], None)
  ∧ EnumerateWithinTimeRange (Unix 100 0) (Unix 101 0) RESOURCE_TYPE_NONE
      Sample.raised_store = Ret ([], None)
  ∧ EnumerateWithinTimeRange (Unix 50 0) (mkTime 9223372036854775807 999999999)
      RESOURCE_TYPE_VOLUME Scenario.far_future = Ret ([], None)
  ∧ EnumerateWithinTimeRange (Unix 50 0) (Unix 101 0) RESOURCE_TYPE_NONE
      Scenario.null_record = Panic "nil pointer dereference".
Proof.
  pose proof (@time_range_is_open Json.codec (Unix 50 0) (Unix 101 0) RESOURCE_TYPE_NONE
                Sample.raised_store ltac:(vm_compute; discriminate)) as Hwide.
  pose proof (@time_range_is_open Json.codec (Unix 100 0) (Unix 101 0) RESOURCE_TYPE_NONE
                Sample.raised_store ltac:(vm_compute; discriminate)) as Hlate.
  pose proof (@time_range_is_open Json.codec (Unix 50 0) (mkTime 9223372036854775807 999999999)
                RESOURCE_TYPE_VOLUME Scenario.far_future ltac:(vm_compute; discriminate))
    as Hfar.
  pose proof (@time_range_is_open Json.codec (Unix 50 0) (Unix 101 0) RESOURCE_TYPE_NONE
                Scenario.null_record ltac:(vm_compute; discriminate)) as Hnull.
  cbv zeta in Hwide, Hlate, Hfar, Hnull.
  destruct Hwide as (_ & Hwide & _). destruct Hlate as (_ & Hlate & _).
  destruct Hfar as (_ & Hfar & _). destruct Hnull as (_ & _ & Hnull & _).
  split; [|split; [|split]].
  - rewrite (Hwide ltac:(vm_compute; reflexivity)
               [ {| Id := 0; Severity := 1; AlertType := 8; Timestamp := 100;
                    Resource := RESOURCE_TYPE_NODE; Cleared := false; Ttl := 0 |};
                 {| Id := 1; Severity := 3; AlertType := 7; Timestamp := 100;
                    Resource := RESOURCE_TYPE_VOLUME; Cleared := false; Ttl := 0 |} ]
               ltac:(vm_compute; reflexivity)).
    vm_compute. reflexivity.
  - rewrite (Hlate ltac:(vm_compute; reflexivity)
               [ {| Id := 0; Severity := 1; AlertType := 8; Timestamp := 100;
                    Resource := RESOURCE_TYPE_NODE; Cleared := false; Ttl := 0 |};
                 {| Id := 1; Severity := 3; AlertType := 7; Timestamp := 100;
                    Resource := RESOURCE_TYPE_VOLUME; Cleared := false; Ttl := 0 |} ]
               ltac:(vm_compute; reflexivity)).
    vm_compute. reflexivity.
  - rewrite (Hfar ltac:(vm_compute; reflexivity)
               [ {| Id := 0; Severity := 3; AlertType := 7;
                    Timestamp := 9223372036854775807;
                    Resource := RESOURCE_TYPE_VOLUME; Cleared := false; Ttl := 0 |} ]
               ltac:(vm_compute; reflexivity)).
    vm_compute. reflexivity.
  - apply Hnull; [vm_compute; reflexivity|]. vm_compute. now left.
Defined.

Lemma cached_instance_ignores_later_settings_witness :
  ∃ m1 client,
    Init Scenario.open_backend "etcd-kv" "pwx" Scenario.machines "c1" ∅ ∅ = (m1, Ok client)
    ∧ GetKvdbInstance client m1 = Some (Scenario.instance_of "c1")
    ∧ ∀ refuses name' domain' machines' options',
        ∃ client', Init refuses name' domain' machines' "c1" options' m1 = (m1, Ok client')
          ∧ kvdbDomain client' = domain'
          ∧ GetKvdbInstance client' m1 = Some (Scenario.instance_of "c1").
Proof.
  apply (cached_instance_ignores_later_settings Scenario.open_backend "etcd-kv" "pwx"
           Scenario.machines "c1" ∅ ∅); reflexivity.
Defined.

End ClientMore.

(** ** The bootstrap handshake of [Watch] *)
Module BootstrapSpec.
Import Go Kv Alert WatchRuns KvAlertClient GoFacts.

Section WithEnvironment.
Context `{!AlertCodec}.
Context (newFails : KvdbInstance → option error).
Context (handle : KvdbInstance → KvdbHandle).
Context (putFails : KvdbInstance → nat → option error).

Lemma read_status_evolved arrivals reading key g g' st :
  read_status arrivals reading key g = Ret (g', st) →
  watchers_evolved g g' ∧ ∃ w', watcherMap g' !! key = Some w' ∧ status w' = st.
Proof.
  unfold read_status.
  destruct (deliver (arrivals reading) g) as [[g1 rs]|] eqn:Hrun; [|discriminate].
  destruct (watcherMap g1 !! key) as [w'|] eqn:Hw; [|discriminate].
  intros [= <- <-]. split; [exact (WatchMore.deliver_evolved _ _ _ _ Hrun)|eauto].
Qed.

(** A watcher that has left the bootstrap state is not read in it again. *)
Lemma read_status_past_bootstrap arrivals reading key g g' st w :
  watcherMap g !! key = Some w → status w ≠ watchBootstrap →
  read_status arrivals reading key g = Ret (g', st) → st ≠ watchBootstrap.
Proof.
  intros Hw Hst Hread. apply read_status_evolved in Hread as (Hev & w' & Hw' & <-).
  specialize (Hev key). rewrite Hw, Hw' in Hev. destruct Hev as (_ & _ & _ & Hrank).
  intros Hb. rewrite Hb in Hrank. destruct (status w); simpl in Hrank; [congruence|lia|lia].
Qed.

(** Once the watcher has left the bootstrap state the loop is over. *)
Lemma bootstrap_loop_exit fuel kv c arrivals reading puts retries g w :
  watcherMap g !! c = Some w → status w ≠ watchBootstrap →
  ∃ out, bootstrap_loop putFails (S fuel) kv c arrivals reading puts retries g = Some out
    ∧ ∀ g' p e, out = Ret (g', p, e) → p = puts.
Proof.
  intros Hw Hst. cbn [bootstrap_loop].
  destruct (read_status arrivals reading c g) as [[g1 st]|] eqn:Hread.
  2:{ eexists. split; [reflexivity|discriminate]. }
  pose proof (read_status_past_bootstrap _ _ _ _ _ _ _ Hw Hst Hread) as Hst1.
  rewrite decide_False by exact Hst1.
  destruct (read_status arrivals (S reading) c g1) as [[g2 st2]|].
  - destruct (decide (st2 ≠ watchReady)); eexists; (split; [reflexivity|]);
      now intros ? ? ? [= _ <- _].
  - eexists. split; [reflexivity|discriminate].
Qed.

Lemma bootstrap_loop_bounded budget : ∀ fuel kv c arrivals reading puts retries g,
  (1 <= budget)%nat → 0 <= retries → retries + Z.of_nat budget = 5 →
  (budget < fuel)%nat →
  ∃ out, bootstrap_loop putFails fuel kv c arrivals reading puts retries g = Some out
    ∧ ∀ g' p e, out = Ret (g', p, e) → (p <= puts + budget)%nat.
Proof.
  induction budget as [|budget IH]; intros fuel kv c arrivals reading puts retries g
    Hb H0 Hr Hf; [lia|].
  destruct fuel as [|fuel]; [lia|]. cbn [bootstrap_loop].
  destruct (read_status arrivals reading c g) as [[g1 st]|] eqn:Hread.
  2:{ eexists. split; [reflexivity|discriminate]. }
  destruct (decide (st = watchBootstrap)) as [Hst|Hst].
  2:{ destruct (read_status arrivals (S reading) c g1) as [[g2 st2]|].
      - destruct (decide (st2 ≠ watchReady)); eexists; (split; [reflexivity|]);
          intros ? ? ? [= _ <- _]; lia.
      - eexists. split; [reflexivity|discriminate]. }
  destruct (putFails kv puts).
  { eexists. split; [reflexivity|]. intros ? ? ? [= _ <- _]. lia. }
  destruct (read_status arrivals (S reading) c g1) as [[g2 st2]|] eqn:Hread2.
  2:{ eexists. split; [reflexivity|discriminate]. }
  destruct (decide (st2 = watchBootstrap)) as [Hst2|Hst2].
  - rewrite int64_wrap_id
      by (unfold is_int64, int64_min, int64_max; rewrite two63; lia).
    unfold watchRetries. destruct (decide (retries + 1 = 5)) as [H5|H5].
    + eexists. split; [reflexivity|]. intros ? ? ? [= _ <- _]. lia.
    + destruct (IH fuel kv c arrivals (S (S reading)) (S puts) (retries + 1) g2)
        as (out & Hout & Hp); [lia|lia|lia|lia|].
      exists out. split; [exact Hout|]. intros g' p e Hret.
      specialize (Hp g' p e Hret). lia.
  - unfold watchRetries. rewrite decide_False by lia.
    apply read_status_evolved in Hread2 as (_ & w2 & Hw2 & Hs2). subst st2.
    destruct fuel as [|fuel]; [lia|].
    destruct (bootstrap_loop_exit fuel kv c arrivals (S (S reading)) (S puts) retries g2 w2
                Hw2 Hst2) as (out & Hout & Hp).
    exists out. split; [exact Hout|]. intros g' p e Hret.
    rewrite (Hp g' p e Hret). lia.
Qed.

Lemma all_registered_evolved registered g g' :
  watchers_evolved g g' → all_registered registered g → all_registered registered g'.
Proof.
  intros Hev Hreg k Hk. destruct (Hreg k Hk) as [w Hw]. specialize (Hev k).
  rewrite Hw in Hev. destruct (watcherMap g' !! k); [eauto|contradiction].
Qed.

(** The callback returns on a delivery addressed to a registered watcher. *)
Lemma kvdbWatch_returns registered d g :
  all_registered registered g → addressed registered d →
  ∃ g' r, kvdbWatch (dPrefix d) (dKvp d) (dErr d) g = Ret (g', r).
Proof.
  intros Hreg [(k & Hk & Hin) Hkvp]. destruct (Hreg k Hin) as [w Hw].
  unfold kvdbWatch. rewrite Hk. destruct (dErr d) as [e|].
  - rewrite Hw. destruct (decide (status w = watchBootstrap)); [eauto|].
    destruct (decide (watchErrors g = 5)); [simpl; eauto|].
    destruct (subscribeWatch k _); eauto.
  - destruct (Hkvp eq_refl) as [kvp ->].
    destruct (HasSuffix (Key kvp) bootstrap); [rewrite Hw; eauto|].
    destruct (_ || _); [eauto|]. cbn [watcherMap]. rewrite Hw.
    destruct (decide (Action kvp = KVDelete)); [simpl; eauto|].
    destruct (unmarshalAlert (Value kvp)); [|eauto].
    destruct (Action kvp); simpl; eauto.
Qed.

Lemma deliver_returns registered ds : ∀ g,
  all_registered registered g → Forall (addressed registered) ds →
  ∃ g' rs, deliver ds g = Ret (g', rs).
Proof.
  induction ds as [|d ds IH]; intros g Hreg Hds; [simpl; eauto|].
  inversion Hds as [|? ? Hd Hrest]; subst. cbn [deliver].
  destruct (kvdbWatch_returns registered d g Hreg Hd) as (g1 & r & Hstep).
  rewrite Hstep. apply WatchMore.kvdbWatch_step in Hstep as (Hev & _).
  destruct (IH g1 (all_registered_evolved _ _ _ Hev Hreg) Hrest) as (g2 & rs & Hrun).
  rewrite Hrun. eauto.
Qed.

Lemma read_status_returns registered arrivals reading c g :
  all_registered registered g → registered c →
  Forall (addressed registered) (arrivals reading) →
  ∃ g' st, read_status arrivals reading c g = Ret (g', st) ∧ all_registered registered g'.
Proof.
  intros Hreg Hc Hds. unfold read_status.
  destruct (deliver_returns registered _ g Hreg Hds) as (g1 & rs & Hrun). rewrite Hrun.
  pose proof (all_registered_evolved _ _ _ (WatchMore.deliver_evolved _ _ _ _ Hrun) Hreg)
    as Hreg1.
  destruct (Hreg1 c Hc) as [w Hw]. rewrite Hw. eauto.
Qed.

(** The loop of [Watch] does not crash on addressed deliveries. *)
Lemma bootstrap_loop_returns registered fuel : ∀ kv c arrivals reading puts retries g why,
  all_registered registered g → registered c →
  (∀ n, Forall (addressed registered) (arrivals n)) →
  bootstrap_loop putFails fuel kv c arrivals reading puts retries g ≠ Some (Panic why).
Proof.
  induction fuel as [|fuel IH]; intros kv c arrivals reading puts retries g why Hreg Hc Harr;
    [discriminate|].
  cbn [bootstrap_loop].
  destruct (read_status_returns registered arrivals reading c g Hreg Hc (Harr reading))
    as (g1 & st & -> & Hreg1).
  destruct (read_status_returns registered arrivals (S reading) c g1 Hreg1 Hc
              (Harr (S reading))) as (g2 & st2 & Hread2 & Hreg2).
  destruct (decide (st = watchBootstrap)).
  - destruct (putFails kv puts); [discriminate|]. rewrite Hread2.
    destruct (decide (_ = watchRetries)); [discriminate|]. now apply IH.
  - rewrite Hread2. destruct (decide (st2 ≠ watchReady)); discriminate.
Qed.

(** X19. [Watch] comes back. As long as every delivery the callback
    handles while [Watch] waits is addressed to a registered cluster (the
    one being watched or one that had a watcher before) and carries a pair
    unless it carries an error, [Watch] returns within six passes of its
    loop, having written the bootstrap key at most five times. *)
Theorem Watch_is_bounded (kva : KvAlert) (c : string) (f : AlertWatcherFunc)
    (arrivals : nat → list delivery) (m : gmap string KvdbInstance) (g : globals) :
  (∀ n, Forall (addressed (λ k, k = c ∨ is_Some (watcherMap g !! k))) (arrivals n)) →
  ∃ m' g' puts err,
    Watch newFails handle putFails 6 kva c f arrivals m g = Some (Ret (m', g', puts, err))
    ∧ (puts <= 5)%nat.
Proof.
  intros Harr. unfold Watch.
  destruct (getKvdbForCluster newFails kva c m) as [m' [kv|e]].
  2:{ eexists _, _, _, _. split; [reflexivity|lia]. }
  cbv zeta.
  set (g1 := {| watcherMap := <[c := new_watcher handle f kv]> (watcherMap g);
                watchErrors := watchErrors g; effects := effects g |}).
  assert (Hreg1 : all_registered (λ k, k = c ∨ is_Some (watcherMap g !! k)) g1).
  { intros k Hk. unfold g1. simpl. destruct (decide (k = c)) as [->|Hne].
    - rewrite lookup_insert_eq. eauto.
    - rewrite lookup_insert_ne by congruence. now destruct Hk. }
  destruct (subscribeWatch c g1) as [g2 [e|]] eqn:Hsub.
  { eexists _, _, _, _. split; [reflexivity|lia]. }
  assert (Hreg2 : all_registered (λ k, k = c ∨ is_Some (watcherMap g !! k)) g2).
  { unfold subscribeWatch in Hsub. destruct (watcherMap g1 !! c); [|discriminate].
    injection Hsub as <- _. exact Hreg1. }
  destruct (bootstrap_loop_bounded 5 6 kv c arrivals 0 0 0 g2) as (out & Hout & Hp);
    [lia|lia|lia|lia|].
  rewrite Hout. destruct out as [[[g3 p] e]|why].
  - eexists _, _, _, _. split; [reflexivity|]. specialize (Hp g3 p e eq_refl). lia.
  - exfalso. revert Hout.
    apply (bootstrap_loop_returns _ 6 kv c arrivals 0 0 0 g2 why Hreg2); [now left|exact Harr].
Qed.

Lemma bootstrap_loop_result fuel : ∀ kv c arrivals reading puts retries g g' p e,
  bootstrap_loop putFails fuel kv c arrivals reading puts retries g = Some (Ret (g', p, e)) →
  watchers_evolved g g'
  ∧ (e = None → ∃ w, watcherMap g' !! c = Some w ∧ status w = watchReady).
Proof.
  induction fuel as [|fuel IH]; intros kv c arrivals reading puts retries g g' p e Hrun;
    [discriminate|].
  cbn [bootstrap_loop] in Hrun.
  destruct (read_status arrivals reading c g) as [[g1 st]|] eqn:Hread; [|discriminate].
  apply read_status_evolved in Hread as (Hev1 & _).
  destruct (decide (st = watchBootstrap)).
  - destruct (putFails kv puts).
    { injection Hrun as <- <- <-. split; [exact Hev1|discriminate]. }
    destruct (read_status arrivals (S reading) c g1) as [[g2 st2]|] eqn:Hread2;
      [|discriminate].
    apply read_status_evolved in Hread2 as (Hev2 & _).
    pose proof (WatchMore.watchers_evolved_trans _ _ _ Hev1 Hev2) as Hev12.
    destruct (decide (_ = watchRetries)).
    + injection Hrun as <- <- <-. split; [exact Hev12|discriminate].
    + apply IH in Hrun as (Hev3 & Hready). split; [|exact Hready].
      exact (WatchMore.watchers_evolved_trans _ _ _ Hev12 Hev3).
  - destruct (read_status arrivals (S reading) c g1) as [[g2 st2]|] eqn:Hread2;
      [|discriminate].
    apply read_status_evolved in Hread2 as (Hev2 & w2 & Hw2 & Hs2).
    pose proof (WatchMore.watchers_evolved_trans _ _ _ Hev1 Hev2) as Hev12.
    destruct (decide (st2 ≠ watchReady)) as [Hn|Hn]; injection Hrun as <- <- <-.
    + split; [exact Hev12|discriminate].
    + split; [exact Hev12|]. intros _. exists w2. split; [exact Hw2|].
      rewrite Hs2. destruct (decide (st2 = watchReady)); [assumption|contradiction].
Qed.

Lemma getKvdbForCluster_cached kva c m m' kv :
  getKvdbForCluster newFails kva c m = (m', Ok kv) → m' !! c = Some kv.
Proof.
  unfold getKvdbForCluster, kvdb_New. destruct (m !! c) eqn:Hc.
  - now intros [= <- <-].
  - destruct (newFails _); [discriminate|]. intros [= <- <-]. apply lookup_insert_eq.
Qed.

Lemma getKvdbForCluster_failed kva c m m' e :
  getKvdbForCluster newFails kva c m = (m', Fail e) → m' !! c = None.
Proof.
  unfold getKvdbForCluster, kvdb_New. destruct (m !! c) eqn:Hc; [discriminate|].
  destruct (newFails _); [|discriminate]. now intros [= <- _].
Qed.

(** What [Watch] has done when it returns, the instance being there. *)
Lemma Watch_installed fuel kva c f arrivals m g m' g' puts err kv :
  Watch newFails handle putFails fuel kva c f arrivals m g = Some (Ret (m', g', puts, err)) →
  m' !! c = Some kv →
  watchers_evolved
    {| watcherMap := <[c := new_watcher handle f kv]> (watcherMap g);
       watchErrors := watchErrors g; effects := effects g |} g'
  ∧ (err = None → ∃ w, watcherMap g' !! c = Some w ∧ status w = watchReady).
Proof.
  unfold Watch. intros Hrun Hkv.
  destruct (getKvdbForCluster newFails kva c m) as [m1 [kv1|e]] eqn:Hget.
  2:{ injection Hrun as <- <- <- <-.
      apply getKvdbForCluster_failed in Hget. congruence. }
  pose proof (getKvdbForCluster_cached _ _ _ _ _ Hget) as Hc1.
  cbv zeta in Hrun. unfold subscribeWatch in Hrun. simpl in Hrun.
  rewrite lookup_insert_eq in Hrun.
  assert (Hsame : kv1 = kv).
  { destruct (WatchTree (kvdb (new_watcher handle f kv1)) alertKey 0);
      [injection Hrun as <- _ _ _; congruence|].
    destruct (bootstrap_loop _ _ _ _ _ _ _ _ _) as [[[[? ?] ?]|?]|];
      try discriminate. injection Hrun as <- _ _ _. congruence. }
  subst kv1.
  destruct (WatchTree (kvdb (new_watcher handle f kv)) alertKey 0).
  { injection Hrun as _ <- _ <-. split; [|discriminate].
    now apply WatchMore.same_map_evolved. }
  destruct (bootstrap_loop _ _ _ _ _ _ _ _ _) as [[[[g3 p] e]|?]|] eqn:Hloop;
    try discriminate.
  injection Hrun as _ <- _ <-.
  apply bootstrap_loop_result in Hloop as (Hev & Hready). split; [|exact Hready].
  eapply WatchMore.watchers_evolved_trans; [|exact Hev].
  now apply WatchMore.same_map_evolved.
Qed.

(** X20. When [Watch] returns without error, the instance of the cluster
    is cached and the watcher registered for the cluster is ready, with the
    caller's callback and that instance. *)
Theorem Watch_success_means_ready (fuel : nat) (kva : KvAlert) (c : string)
    (f : AlertWatcherFunc) (arrivals : nat → list delivery)
    (m m' : gmap string KvdbInstance) (g g' : globals) (puts : nat) :
  Watch newFails handle putFails fuel kva c f arrivals m g = Some (Ret (m', g', puts, None)) →
  ∃ kv w, m' !! c = Some kv ∧ watcherMap g' !! c = Some w
    ∧ status w = watchReady ∧ cb w = f ∧ kvdb w = handle kv.
Proof.
  intros Hrun.
  assert (Hkv : ∃ kv, m' !! c = Some kv).
  { unfold Watch in Hrun.
    destruct (getKvdbForCluster newFails kva c m) as [m1 [kv1|e]] eqn:Hget;
      [|discriminate].
    exists kv1. apply getKvdbForCluster_cached in Hget.
    cbv zeta in Hrun. destruct (subscribeWatch c _) as [g2 [e|]]; [discriminate|].
    destruct (bootstrap_loop _ _ _ _ _ _ _ _ _) as [[[[? ?] ?]|?]|];
      try discriminate. injection Hrun as <- _ _ _. exact Hget. }
  destruct Hkv as [kv Hkv]. exists kv.
  destruct (Watch_installed _ _ _ _ _ _ _ _ _ _ _ _ Hrun Hkv) as (Hev & Hready).
  destruct (Hready eq_refl) as (w & Hw & Hst). exists w.
  specialize (Hev c). simpl in Hev. rewrite lookup_insert_eq, Hw in Hev.
  destruct Hev as (Hcb & _ & Hh & _). auto.
Qed.

(** X21. [Watch] never undoes its registration: whenever it returns with
    the cluster's instance in the cache, be it with the bootstrap-timeout
    error, a watch error or a failed write, the watcher registered for the
    cluster is the one this call installed (an earlier watcher of the
    cluster is lost), and the watchers of the other clusters are the ones
    that were there, their status moved forward at most. *)
Theorem Watch_replaces_registration (fuel : nat) (kva : KvAlert) (c : string)
    (f : AlertWatcherFunc) (arrivals : nat → list delivery)
    (m m' : gmap string KvdbInstance) (g g' : globals) (puts : nat)
    (err : option error) (kv : KvdbInstance) :
  Watch newFails handle putFails fuel kva c f arrivals m g = Some (Ret (m', g', puts, err)) →
  m' !! c = Some kv →
  (∃ w, watcherMap g' !! c = Some w ∧ cb w = f ∧ kvdb w = handle kv
        ∧ Alert.clusterID w = "")
  ∧ ∀ k, k ≠ c →
      match watcherMap g !! k, watcherMap g' !! k with
      | Some w, Some w' => watcher_evolved w w'
      | None, None => True
      | _, _ => False
      end.
Proof.
  intros Hrun Hkv.
  destruct (Watch_installed _ _ _ _ _ _ _ _ _ _ _ _ Hrun Hkv) as (Hev & _). split.
  - specialize (Hev c). simpl in Hev. rewrite lookup_insert_eq in Hev.
    destruct (watcherMap g' !! c) as [w|]; [|contradiction].
    destruct Hev as (Hcb & Hid & Hh & _). eauto.
  - intros k Hk. specialize (Hev k). simpl in Hev.
    now rewrite lookup_insert_ne in Hev by congruence.
Qed.

Lemma read_status_silent arrivals reading c g w :
  arrivals reading = [] → watcherMap g !! c = Some w →
  read_status arrivals reading c g = Ret (g, status w).
Proof. intros Ha Hw. unfold read_status. rewrite Ha. simpl. now rewrite Hw. Qed.

(** One pass of the loop while nothing is delivered. *)
Lemma silent_pass fuel kv c arrivals reading puts retries g w :
  arrivals reading = [] → arrivals (S reading) = [] →
  watcherMap g !! c = Some w → status w = watchBootstrap →
  putFails kv puts = None → 0 <= retries < 5 →
  bootstrap_loop putFails (S fuel) kv c arrivals reading puts retries g
  = if decide (retries + 1 = 5)
    then Some (Ret (g, S puts, Some (Errorf ("Failed to bootstrap watch on " +:+ c))))
    else bootstrap_loop putFails fuel kv c arrivals (S (S reading)) (S puts) (retries + 1) g.
Proof.
  intros Ha Ha' Hw Hst Hput Hr. cbn [bootstrap_loop].
  rewrite (read_status_silent _ _ _ _ _ Ha Hw), Hst.
  destruct (decide (watchBootstrap = watchBootstrap)) as [_|Hc]; [|now destruct Hc].
  rewrite Hput, (read_status_silent _ _ _ _ _ Ha' Hw), Hst.
  destruct (decide (watchBootstrap = watchBootstrap)) as [_|Hc]; [|now destruct Hc].
  rewrite int64_wrap_id by (unfold is_int64, int64_min, int64_max; rewrite two63; lia).
  reflexivity.
Qed.

Lemma subscribe_installed c w g :
  watcherMap g !! c = Some w →
  subscribeWatch c g
  = ({| watcherMap := watcherMap g; watchErrors := watchErrors g;
        effects := effects g ++ [WatchTreeCalled c alertKey 0] |},
     WatchTree (kvdb w) alertKey 0).
Proof. intros Hw. unfold subscribeWatch. now rewrite Hw. Qed.

(** X22. When the watch delivers nothing, [Watch] gives up after exactly
    five writes of the bootstrap key with the bootstrap error, and leaves
    its watcher registered in the bootstrap state, the tree-watch
    subscribed once. *)
Theorem Watch_times_out_in_silence (kva : KvAlert) (c : string) (f : AlertWatcherFunc)
    (arrivals : nat → list delivery) (m m' : gmap string KvdbInstance) (g : globals)
    (kv : KvdbInstance) :
  getKvdbForCluster newFails kva c m = (m', Ok kv) →
  WatchTree (handle kv) alertKey 0 = None →
  (∀ n, (n < 5)%nat → putFails kv n = None) →
  (∀ n, (n < 10)%nat → arrivals n = []) →
  Watch newFails handle putFails 5 kva c f arrivals m g
  = Some (Ret (m',
               {| watcherMap := <[c := new_watcher handle f kv]> (watcherMap g);
                  watchErrors := watchErrors g;
                  effects := effects g ++ [WatchTreeCalled c alertKey 0] |},
               5%nat,
               Some (Errorf ("Failed to bootstrap watch on " +:+ c)))).
Proof.
  intros Hget Hwatch Hput Harr. unfold Watch. rewrite Hget. cbv zeta.
  rewrite (subscribe_installed c (new_watcher handle f kv)) by apply lookup_insert_eq.
  cbn [watcherMap watchErrors effects].
  change (kvdb (new_watcher handle f kv)) with (handle kv). rewrite Hwatch.
  set (g2 := {| watcherMap := <[c := new_watcher handle f kv]> (watcherMap g);
                watchErrors := watchErrors g;
                effects := effects g ++ [WatchTreeCalled c alertKey 0] |}).
  assert (Hw : watcherMap g2 !! c = Some (new_watcher handle f kv))
    by apply lookup_insert_eq.
  rewrite (silent_pass 4 kv c arrivals 0 0 0 g2 _ (Harr 0%nat ltac:(lia))
             (Harr 1%nat ltac:(lia)) Hw eq_refl (Hput 0%nat ltac:(lia)) ltac:(lia)).
  rewrite decide_False by lia.
  rewrite (silent_pass 3 kv c arrivals 2 1 (0 + 1) g2 _ (Harr 2%nat ltac:(lia))
             (Harr 3%nat ltac:(lia)) Hw eq_refl (Hput 1%nat ltac:(lia)) ltac:(lia)).
  rewrite decide_False by lia.
  rewrite (silent_pass 2 kv c arrivals 4 2 (0 + 1 + 1) g2 _ (Harr 4%nat ltac:(lia))
             (Harr 5%nat ltac:(lia)) Hw eq_refl (Hput 2%nat ltac:(lia)) ltac:(lia)).
  rewrite decide_False by lia.
  rewrite (silent_pass 1 kv c arrivals 6 3 (0 + 1 + 1 + 1) g2 _ (Harr 6%nat ltac:(lia))
             (Harr 7%nat ltac:(lia)) Hw eq_refl (Hput 3%nat ltac:(lia)) ltac:(lia)).
  rewrite decide_False by lia.
  rewrite (silent_pass 0 kv c arrivals 8 4 (0 + 1 + 1 + 1 + 1) g2 _ (Harr 8%nat ltac:(lia))
             (Harr 9%nat ltac:(lia)) Hw eq_refl (Hput 4%nat ltac:(lia)) ltac:(lia)).
  rewrite decide_True by lia. reflexivity.
Qed.

End WithEnvironment.

Import Json.

Lemma Watch_is_bounded_witness :
  ∃ m' g' puts err,
    Watch Scenario.open_backend Scenario.quiet_handle Scenario.writable 6 Scenario.client
          "c1" Sample.accepting Scenario.noisy ∅ Sample.two_clusters
    = Some (Ret (m', g', puts, err))
    ∧ (puts <= 5)%nat.
Proof.
  apply (@Watch_is_bounded Json.codec Scenario.open_backend Scenario.quiet_handle
           Scenario.writable Scenario.client "c1" Sample.accepting Scenario.noisy ∅
           Sample.two_clusters).
  assert (Hc2 : addressed (λ k, k = "c1" ∨ is_Some (watcherMap Sample.two_clusters !! k))
                  (error_on "pwx/c2/alert/" Sample.io_error)).
  { split; [|discriminate]. exists "c2". split; [reflexivity|]. right. vm_compute. eauto. }
  assert (Hc1 : addressed (λ k, k = "c1" ∨ is_Some (watcherMap Sample.two_clusters !! k))
                  {| dPrefix := "pwx/c1/alert/"; dKvp := Some Sample.bootstrap_pair;
                     dErr := None |}).
  { split; [|simpl; eauto]. exists "c1". split; [reflexivity|]. now left. }
  intros [|[|[|n]]]; unfold Scenario.noisy.
  - constructor; [exact Hc2|constructor].
  - constructor; [exact Hc2|]. constructor; [exact Hc2|constructor].
  - constructor; [exact Hc1|constructor].
  - constructor.
Defined.

Lemma Watch_success_means_ready_witness :
  ∃ m' g' puts,
    Watch Scenario.open_backend Scenario.quiet_handle Scenario.writable 6 Scenario.client
          "c1" Sample.accepting Scenario.bootstrap_seen ∅ Scenario.no_watchers
    = Some (Ret (m', g', puts, None))
    ∧ ∃ kv w, m' !! "c1" = Some kv ∧ watcherMap g' !! "c1" = Some w
        ∧ status w = watchReady ∧ cb w = Sample.accepting
        ∧ kvdb w = Scenario.quiet_handle kv.
Proof.
  eexists _, _, _. split; [vm_compute; reflexivity|].
  eapply (@Watch_success_means_ready Json.codec Scenario.open_backend Scenario.quiet_handle
           Scenario.writable 6 Scenario.client "c1" Sample.accepting
           Scenario.bootstrap_seen ∅ _ Scenario.no_watchers _ _).
  vm_compute. reflexivity.
Defined.

Lemma Watch_replaces_registration_witness :
  ∃ m' g' puts err,
    Watch Scenario.open_backend Scenario.quiet_handle Scenario.writable 6 Scenario.client
          "c1" Sample.accepting Scenario.silence ∅ Sample.two_clusters
    = Some (Ret (m', g', puts, err))
    ∧ (∃ w, watcherMap g' !! "c1" = Some w ∧ cb w = Sample.accepting
          ∧ kvdb w = Scenario.quiet_handle (Scenario.instance_of "c1")
          ∧ Alert.clusterID w = "")
    ∧ ∀ k, k ≠ "c1" →
        match watcherMap Sample.two_clusters !! k, watcherMap g' !! k with
        | Some w, Some w' => watcher_evolved w w'
        | None, None => True
        | _, _ => False
        end.
Proof.
  eexists _, _, _, _. split; [vm_compute; reflexivity|].
  eapply (@Watch_replaces_registration Json.codec Scenario.open_backend
           Scenario.quiet_handle Scenario.writable 6 Scenario.client "c1"
           Sample.accepting Scenario.silence ∅ _ Sample.two_clusters _ _ _
           (Scenario.instance_of "c1")).
  - vm_compute. reflexivity.
  - vm_compute. reflexivity.
Defined.

Lemma Watch_times_out_in_silence_witness :
  Watch Scenario.open_backend Scenario.quiet_handle Scenario.writable 5 Scenario.client
        "c1" Sample.accepting Scenario.silence ∅ Sample.two_clusters
  = Some (Ret (<["c1" := Scenario.instance_of "c1"]> ∅,
               {| watcherMap :=
                    <["c1" := new_watcher Scenario.quiet_handle Sample.accepting
                                (Scenario.instance_of "c1")]>
                      (watcherMap Sample.two_clusters);
                  watchErrors := watchErrors Sample.two_clusters;
                  effects := effects Sample.two_clusters
                               ++ [WatchTreeCalled "c1" alertKey 0] |},
               5%nat,
               Some (Errorf ("Failed to bootstrap watch on " +:+ "c1")))).
Proof.
  apply (@Watch_times_out_in_silence Json.codec Scenario.open_backend
           Scenario.quiet_handle Scenario.writable Scenario.client "c1" Sample.accepting
           Scenario.silence ∅ (<["c1" := Scenario.instance_of "c1"]> ∅)
           Sample.two_clusters (Scenario.instance_of "c1")).
  - reflexivity.
  - reflexivity.
  - intros n _. reflexivity.
  - intros n _. reflexivity.
Defined.

End BootstrapSpec.

(** ** The driver registry *)
Module RegistrySpec.
Import Go KvAlertClient AlertRegistry.

Lemma Register_drivers name f p :
  drivers (Register name f p).1 = drivers p ∪ {[name := f]}
  ∧ instances (Register name f p).1 = instances p
  ∧ kvdbMap (Register name f p).1 = kvdbMap p.
Proof.
  unfold Register. destruct (drivers p !! name) as [f0|] eqn:Hn; simpl.
  - split; [|auto]. apply map_eq. intros k. rewrite lookup_union.
    destruct (decide (k = name)) as [->|Hk].
    + rewrite Hn, lookup_singleton_eq. reflexivity.
    + rewrite lookup_singleton_ne by congruence. now destruct (drivers p !! k).
  - split; [|auto]. rewrite insert_union_singleton_r by exact Hn. reflexivity.
Qed.

(** X23. [Register] is first come, first served: after any sequence of
    registrations the initializer kept for a name is the one the package
    already had, or else the first one registered under that name in the
    sequence; later registrations of the name are refused and change
    nothing. The instances and the store cache are not touched. *)
Theorem first_registration_wins (regs : list (string * InitFunc)) (p : package) :
  drivers (register_all regs p) = drivers p ∪ list_to_map regs
  ∧ instances (register_all regs p) = instances p
  ∧ kvdbMap (register_all regs p) = kvdbMap p
  ∧ ∀ name f f', drivers p !! name = None →
      (Register name f' (register_all ((name, f) :: regs) p)).2 = Some ErrExist
      ∧ drivers (register_all ((name, f) :: regs) p) !! name = Some f.
Proof.
  assert (Hall : ∀ regs p,
            drivers (register_all regs p) = drivers p ∪ list_to_map regs
            ∧ instances (register_all regs p) = instances p
            ∧ kvdbMap (register_all regs p) = kvdbMap p).
  { clear. induction regs as [|[name f] regs IH]; intros p.
    - simpl. now rewrite map_union_empty.
    - change (register_all ((name, f) :: regs) p)
        with (register_all regs (Register name f p).1).
      destruct (IH (Register name f p).1) as (Hd & Hi & Hm).
      destruct (Register_drivers name f p) as (Hd1 & Hi1 & Hm1).
      rewrite Hd, Hi, Hm, Hd1, Hi1, Hm1. split; [|auto].
      rewrite <- map_union_assoc. f_equal. simpl.
      now rewrite insert_union_singleton_l. }
  destruct (Hall regs p) as (Hd & Hi & Hm). split; [exact Hd|]. split; [exact Hi|].
  split; [exact Hm|]. intros name f f' Hnone.
  destruct (Hall ((name, f) :: regs) p) as (Hd' & _).
  assert (Hf : drivers (register_all ((name, f) :: regs) p) !! name = Some f).
  { rewrite Hd'. rewrite lookup_union, Hnone. simpl. now rewrite lookup_insert_eq. }
  split; [|exact Hf]. unfold Register. now rewrite Hf.
Qed.

Section WithBackend.
Context (newFails : KvdbInstance → option error).

(** X24. The package remembers one client per driver name, not per
    cluster: after two successful calls of [New] with the same driver name
    for two clusters, the instance table holds the second client under
    that name and the first one no longer, while the stores of both
    clusters stay cached. *)
Theorem New_remembers_last_client (name : string) (p : package)
    (k1 d1 : string) (m1 : list string) (c1 : string) (o1 : gmap string string)
    (k2 d2 : string) (m2 : list string) (c2 : string) (o2 : gmap string string) :
  let kv1 := {| kvName := k1; kvDomain := d1 +:+ "/" +:+ c1; kvMachines := m1;
                kvOptions := o1 |} in
  let kv2 := {| kvName := k2; kvDomain := d2 +:+ "/" +:+ c2; kvMachines := m2;
                kvOptions := o2 |} in
  let client1 := {| kvdbOptions := o1; kvdbName := k1; kvdbDomain := d1;
                    kvdbMachines := m1; clusterID := c1 |} in
  let client2 := {| kvdbOptions := o2; kvdbName := k2; kvdbDomain := d2;
                    kvdbMachines := m2; clusterID := c2 |} in
  drivers p !! name = Some (Init newFails) →
  kvdbMap p !! c1 = None → kvdbMap p !! c2 = None → c1 ≠ c2 →
  newFails kv1 = None → newFails kv2 = None →
  ∃ p1 p2, New name k1 d1 m1 c1 o1 p = (p1, Ok client1)
    ∧ New name k2 d2 m2 c2 o2 p1 = (p2, Ok client2)
    ∧ instances p1 !! name = Some client1
    ∧ instances p2 = <[name := client2]> (instances p)
    ∧ kvdbMap p2 !! c1 = Some kv1 ∧ kvdbMap p2 !! c2 = Some kv2
    ∧ drivers p2 = drivers p.
Proof.
  cbv zeta. intros Hd Hc1 Hc2 Hne Hn1 Hn2.
  eexists _, _. split; [|split].
  - unfold New. rewrite Hd. unfold Init, kvdb_New. rewrite Hc1, Hn1. reflexivity.
  - unfold New. simpl. rewrite Hd. unfold Init, kvdb_New.
    rewrite lookup_insert_ne by exact Hne. rewrite Hc2, Hn2. reflexivity.
  - simpl. split; [apply lookup_insert_eq|]. split; [apply insert_insert_eq|].
    split; [|split; [apply lookup_insert_eq|reflexivity]].
    rewrite lookup_insert_ne by congruence. apply lookup_insert_eq.
Qed.

End WithBackend.

Lemma New_remembers_last_client_witness :
  ∃ p1 p2,
    New Name "etcd-kv" "pwx" Scenario.machines "c1" ∅ (initial Scenario.open_backend)
    = (p1, Ok Scenario.client)
    ∧ New Name "etcd-kv" "pwx" Scenario.machines "c2" ∅ p1
      = (p2, Ok {| kvdbOptions := ∅; kvdbName := "etcd-kv"; kvdbDomain := "pwx";
                   kvdbMachines := Scenario.machines; clusterID := "c2" |})
    ∧ instances p1 !! Name = Some Scenario.client
    ∧ instances p2
      = <[Name := {| kvdbOptions := ∅; kvdbName := "etcd-kv"; kvdbDomain := "pwx";
                     kvdbMachines := Scenario.machines; clusterID := "c2" |}]>
          (instances (initial Scenario.open_backend))
    ∧ kvdbMap p2 !! "c1" = Some (Scenario.instance_of "c1")
    ∧ kvdbMap p2 !! "c2" = Some (Scenario.instance_of "c2")
    ∧ drivers p2 = drivers (initial Scenario.open_backend).
Proof.
  apply (New_remembers_last_client Scenario.open_backend Name
           (initial Scenario.open_backend)
           "etcd-kv" "pwx" Scenario.machines "c1" ∅
           "etcd-kv" "pwx" Scenario.machines "c2" ∅).
  - reflexivity.
  - reflexivity.
  - reflexivity.
  - discriminate.
  - reflexivity.
  - reflexivity.
Defined.

End RegistrySpec.

(** ** Writing the cluster database *)
Module ClusterMore.
Import Go Kv Cluster GoFacts.

Section WithCodec.
Context {NodeEntry : Type}.
Context (unmarshalClusterInfo :
           string → @ClusterInfo NodeEntry → @ClusterInfo NodeEntry * option error).
Context (marshalClusterInfo : @ClusterInfo NodeEntry → result string).

(** X25. [writeClusterInfo] overwrites the fixed key whatever it held
    (last writer wins) and touches nothing else; a [readClusterInfo] that
    follows gives back the descriptor written when the codec reads back
    its encoding, and the uninitialized default when that encoding is the
    empty object. A failed encoding or a failed [Put] leaves the store as
    it was. *)
Theorem write_then_read (db : ClusterInfo) (kv : Kvdb) (b : string) :
  marshalClusterInfo db = Ok b → failing kv OpGet = None →
  let kv' := (writeClusterInfo marshalClusterInfo None db kv).1 in
  eValue <$> data (store kv') !! ClusterDBKey = Some b
  ∧ (∀ k, k ≠ ClusterDBKey → data (store kv') !! k = data (store kv) !! k)
  ∧ (b ≠ "{}" → unmarshalClusterInfo b defaultClusterInfo = (db, None) →
     (readClusterInfo unmarshalClusterInfo kv').1 = (db, None))
  ∧ (b = "{}" → (readClusterInfo unmarshalClusterInfo kv').1 = (defaultClusterInfo, None))
  ∧ (∀ e, writeClusterInfo marshalClusterInfo (Some e) db kv = (kv, Fail e)).
Proof.
  intros Hm Hget. cbv zeta. unfold writeClusterInfo. rewrite Hm. simpl.
  split; [now rewrite lookup_insert_eq|]. split; [|split; [|split]].
  - intros k Hk. now rewrite lookup_insert_ne.
  - intros Hb Hround. unfold readClusterInfo, Get, Kv.Get. simpl.
    rewrite Hget, lookup_insert_eq. simpl.
    destruct (String.eqb b "{}") eqn:Heq; [apply String.eqb_eq in Heq; contradiction|].
    now rewrite Hround.
  - intros ->. unfold readClusterInfo, Get, Kv.Get. simpl.
    rewrite Hget, lookup_insert_eq. reflexivity.
  - reflexivity.
Qed.

(** X26. Both readers recognise a missing key by the text of the error:
    any error of the read whose text contains "Key not found" is taken for
    an uninitialized cluster, and the default descriptor is returned
    without error, by [readClusterInfo] and, in a bootstrap state, by
    [snapAndReadClusterInfo]. *)
Theorem key_not_found_by_text (kv : Kvdb) (interference : Store → Store) (e : error) :
  failing kv OpGet = Some e → Contains (Error e) "Key not found" = true →
  readClusterInfo unmarshalClusterInfo kv
  = (defaultClusterInfo, None, [CallGet false ClusterDBKey])
  ∧ (failing kv OpSnapshot = None → failing kv OpNewUpdatesCollector = None →
     ∃ state, snapAndReadClusterInfo unmarshalClusterInfo kv interference
              = (Some state, None,
                 [CallSnapshot ""; CallNewUpdatesCollector "" (index (store kv));
                  CallGet true ClusterDBKey])
       ∧ ClusterInfo_ state = defaultClusterInfo).
Proof.
  intros He Htext. split.
  - unfold readClusterInfo, Get. rewrite He. simpl. now rewrite Htext.
  - intros Hs Hc. unfold snapAndReadClusterInfo, Snapshot, NewUpdatesCollector, Get.
    rewrite Hs. simpl. rewrite Hc, He. simpl. rewrite Htext. simpl.
    eexists. split; reflexivity.
Qed.

End WithCodec.

Lemma write_then_read_witness :
  (readClusterInfo Json.decodeClusterInfo
     (writeClusterInfo Scenario.encodeClusterInfo None Scenario.ok_cluster
        Sample.empty_object_kv).1).1
  = (Scenario.ok_cluster, None).
Proof.
  pose proof (write_then_read Json.decodeClusterInfo Scenario.encodeClusterInfo
                Scenario.ok_cluster Sample.empty_object_kv Sample.ok_database
                ltac:(vm_compute; reflexivity) ltac:(reflexivity)) as Hwrite.
  cbv zeta in Hwrite. destruct Hwrite as (_ & _ & Hread & _).
  apply Hread; [vm_compute; discriminate|vm_compute; reflexivity].
Defined.

Lemma key_not_found_by_text_witness :
  readClusterInfo Json.decodeClusterInfo Scenario.unreadable_kv
  = (defaultClusterInfo, None, [CallGet false ClusterDBKey])
  ∧ ∃ state, snapAndReadClusterInfo Json.decodeClusterInfo Scenario.unreadable_kv id
             = (Some state, None,
                [CallSnapshot "";
                 CallNewUpdatesCollector "" (index (store Scenario.unreadable_kv));
                 CallGet true ClusterDBKey])
      ∧ ClusterInfo_ state = defaultClusterInfo.
Proof.
  destruct (key_not_found_by_text Json.decodeClusterInfo Scenario.unreadable_kv id
              Scenario.lookup_error ltac:(reflexivity) ltac:(vm_compute; reflexivity))
    as (Hread & Hsnap).
  split; [exact Hread|]. apply Hsnap; reflexivity.
Defined.

End ClusterMore.
